(** * llm_to_tts: page-to-speech pipeline

    A shallow embedding of [playwright_scraper.py], [tts.py] and the
    [__main__] block of [main.py].

    The browser (reached through Playwright's synchronous API) and the
    speech model are outside the program.  They are represented by a
    [World]: one field per call site, holding what that call answers,
    either a value or an error raised by the library.  The program itself
    is written in a small monad that records every observable action in a
    trace and propagates Python exceptions. *)

From Stdlib Require Import String Ascii List NArith ZArith Lia Bool Arith DecimalString.
Import ListNotations.
Open Scope string_scope.
Open Scope nat_scope.

(** ** Strings *)

(** A Python or JavaScript string is held as the bytes of its UTF-8
    encoding, the way the literals of the source text stand in this file:
    a character below U+0080 is one byte, any other character is two to
    four bytes of 128 or more. *)

Definition code (c : ascii) : nat := nat_of_ascii c.

Definition byte (n : N) : ascii := ascii_of_N n.

(** The bytes of the character of code point [cp]. *)
Definition utf8 (cp : N) : string :=
  (if cp <? 128 then String (byte cp) ""
   else if cp <? 2048 then
     String (byte (192 + cp / 64)) (String (byte (128 + cp mod 64)) "")
   else if cp <? 65536 then
     String (byte (224 + cp / 4096))
       (String (byte (128 + (cp / 64) mod 64)) (String (byte (128 + cp mod 64)) ""))
   else
     String (byte (240 + cp / 262144))
       (String (byte (128 + (cp / 4096) mod 64))
          (String (byte (128 + (cp / 64) mod 64)) (String (byte (128 + cp mod 64)) ""))))%N.

Definition LF : string := String (ascii_of_nat 10) "".

(** U+2713 and U+2717, the two marks of the log lines. *)
Definition check_mark : string := "✓".
Definition cross_mark : string := "✗".

(** The characters [str.strip()] removes, those [str.isspace] holds of:
    TAB..CR, FS..US, SPACE, NEL (U+0085), NBSP (U+00A0), U+1680,
    U+2000..U+200A, U+2028, U+2029, U+202F, U+205F and U+3000. *)
Definition space_points : list N :=
  [9; 10; 11; 12; 13; 28; 29; 30; 31; 32; 133; 160; 5760;
   8192; 8193; 8194; 8195; 8196; 8197; 8198; 8199; 8200; 8201; 8202;
   8232; 8233; 8239; 8287; 12288]%N.

(** [str.isspace] on the character of code point [cp]. *)
Definition isspace (cp : N) : bool := existsb (N.eqb cp) space_points.

(** The white-space characters as they stand in a string. *)
Definition spaces : list string := map utf8 space_points.

(** The number of bytes of the white-space character [s] starts with,
    none when it starts with another character. *)
Definition space_prefix (s : string) : nat :=
  match find (fun sp => prefix sp s) spaces with
  | Some sp => String.length sp
  | None => 0
  end.

(** [str.lstrip()]: the white-space characters at the beginning, of one
    to three bytes each, are passed over. *)
Fixpoint lstrip (s : string) : string :=
  match s with
  | EmptyString => s
  | String _ r1 =>
      match space_prefix s, r1 with
      | 1, _ => lstrip r1
      | 2, String _ r2 => lstrip r2
      | 3, String _ (String _ r3) => lstrip r3
      | _, _ => s
      end
  end.

(** Every character is white space. *)
Fixpoint all_space (s : string) : bool :=
  match s with
  | EmptyString => true
  | String _ r1 =>
      match space_prefix s, r1 with
      | 1, _ => all_space r1
      | 2, String _ r2 => all_space r2
      | 3, String _ (String _ r3) => all_space r3
      | _, _ => false
      end
  end.

(** [str.rstrip()]: the string is cut where only white space follows. *)
Fixpoint rstrip (s : string) : string :=
  match s with
  | EmptyString => EmptyString
  | String c r => if all_space s then EmptyString else String c (rstrip r)
  end.

(** [str.strip()] with no argument. *)
Definition strip (s : string) : string := rstrip (lstrip s).

(** Python truth value of a [str]. *)
Definition truthy (s : string) : bool :=
  match s with EmptyString => false | _ => true end.

(** A change of case that needs the byte before to tell the second byte
    of a two-byte character. *)
Fixpoint map_bytes (f : ascii -> ascii -> ascii) (prev : ascii) (s : string) : string :=
  match s with
  | EmptyString => EmptyString
  | String c r => String (f prev c) (map_bytes f c r)
  end.

(** [String.prototype.toLowerCase] on one byte: A..Z move up by 32, and
    so does the second byte of the capital letters U+00C0..U+00DE (the
    bytes C3 80 .. C3 9E; U+00D7, the multiplication sign, apart).
    Characters from U+0100 on are left as they are; the tag names of
    the selector hold none. *)
Definition lower_code (after_c3 : bool) (n : nat) : nat :=
  if ((65 <=? n) && (n <=? 90))
     || (after_c3 && (128 <=? n) && (n <=? 158) && negb (n =? 151))
  then n + 32 else n.

Definition lower_byte (prev c : ascii) : ascii :=
  ascii_of_nat (lower_code (code prev =? 195) (code c)).

Definition toLowerCase : string -> string := map_bytes lower_byte zero.

(** [str.upper] on one byte, used for the [[TAG]] log lines only: a..z
    move down by 32, and so does the second byte of the small letters
    U+00E0..U+00FE (the bytes C3 A0 .. C3 BE; U+00F7, the division sign,
    apart).  U+00B5, U+00DF and U+00FF, whose upper case is no character
    below U+0100, and the characters from U+0100 on are left as they
    are; no tag of the selector holds one. *)
Definition upper_code (after_c3 : bool) (n : nat) : nat :=
  if ((97 <=? n) && (n <=? 122))
     || (after_c3 && (160 <=? n) && (n <=? 190) && negb (n =? 183))
  then n - 32 else n.

Definition upper_byte (prev c : ascii) : ascii :=
  ascii_of_nat (upper_code (code prev =? 195) (code c)).

Definition upper : string -> string := map_bytes upper_byte zero.

(** [sep.join(parts)]. *)
Fixpoint join (sep : string) (parts : list string) : string :=
  match parts with
  | [] => ""
  | [p] => p
  | p :: rest => p ++ sep ++ join sep rest
  end.

(** ["=" * n]. *)
Fixpoint times (s : string) (n : nat) : string :=
  match n with
  | O => ""
  | S k => s ++ times s k
  end.

Definition rule : string := times "=" 80.

(** [str(n)] for an [int]. *)
Definition str_of_nat (n : nat) : string := NilZero.string_of_uint (Nat.to_uint n).
Definition str_of_Z (z : Z) : string := NilZero.string_of_int (Z.to_int z).

(** [needle in hay]. *)
Fixpoint contains (needle hay : string) : bool :=
  prefix needle hay
  || match hay with
     | EmptyString => false
     | String _ r => contains needle r
     end.

(** ** Data model *)

(** One entry of [collected_content]: [{'tag': ..., 'text': ...}]. *)
Record ExtractedItem := mkItem { tag : string; text : string }.

(** The dict returned by [navigate_and_extract_content]. *)
Record ExtractionResult := mkResult {
  initial_url : string;
  target_url : string;
  final_url : string;
  title : string;
  content : list ExtractedItem;
  full_text : string
}.

(** ** Exceptions *)

(** An error raised inside the Playwright library: [Error], or its
    subclass [TimeoutError]. *)
Record LibError := mkLibError { is_timeout : bool; lib_msg : string }.

Inductive Exn :=
| PlainException (msg : string)   (* [raise Exception(msg)], written in this program *)
| IndexError                      (* [browser.contexts[0]] on an empty list *)
| PlaywrightError (e : LibError)
| ModelError (msg : string)       (* raised inside [tts_to_file] *)
| SystemExit (status : Z).        (* [exit(status)] *)

(** [str(e)], as the f-strings of the handlers print it. *)
Definition str_exn (e : Exn) : string :=
  match e with
  | PlainException msg => msg
  | IndexError => "list index out of range"
  | PlaywrightError le => lib_msg le
  | ModelError msg => msg
  | SystemExit status => str_of_Z status
  end.

(** [isinstance(e, Exception)]: [SystemExit] derives from
    [BaseException] only, so [except Exception] lets it through. *)
Definition is_Exception (e : Exn) : bool :=
  match e with SystemExit _ => false | _ => true end.

(** ** Observable actions *)

(** The two page variables of [navigate_and_extract_content]. *)
Inductive Tab := page | new_page.

(** The JavaScript functions sent to the browser. *)
Inductive Script :=
| FirstAnchorHref     (* lines 153-161 *)
| CountMarked         (* lines 169-174 *)
| TagNameLowerCase.   (* ['el => el.tagName.toLowerCase()'] *)

Inductive Event :=
| Print (line : string)
| PlaywrightEnter
| PlaywrightExit
| ConnectOverCdp (cdp_url : string)
| ContextNewPage
| Goto (t : Tab) (url wait_until : string) (timeout : option Z)
| WaitForTimeout (t : Tab) (ms : Z)
| WaitForSelector (t : Tab) (selector : string) (timeout : Z)
| QuerySelector (t : Tab) (selector : string)
| Click
| Evaluate (t : Tab) (js : Script)
| Title (t : Tab)
| QuerySelectorAll (selector : string)
| ElementEvaluate (handle : nat) (js : Script)
| InnerText (handle : nat)
| BrowserClose
| TtsToFile (text file_path : string) (split_sentences : bool).

Definition Trace := list Event.

(** ** The monad: a trace and a value or an exception *)

Inductive Outcome (A : Type) :=
| Returns (a : A)
| Raises (e : Exn).
Arguments Returns {A} a.
Arguments Raises {A} e.

Definition M (A : Type) : Type := (Trace * Outcome A)%type.

Definition ret {A} (a : A) : M A := ([], Returns a).

Definition bind {A B} (m : M A) (f : A -> M B) : M B :=
  match m with
  | (t, Returns a) => let (t', r) := f a in ((t ++ t')%list, r)
  | (t, Raises e) => (t, Raises e)
  end.

Notation "x <- m ;; k" := (bind m (fun x => k))
  (at level 61, m at next level, right associativity).
Notation "m ;; k" := (bind m (fun _ => k))
  (at level 61, right associativity).

Definition raise {A} (e : Exn) : M A := ([], Raises e).

Definition print (line : string) : M unit := ([Print line], Returns tt).

(** [print(a, b, ...)]: the arguments separated by one space. *)
Definition print_args (args : list string) : M unit := print (join " " args).

(** [exit(status)]. *)
Definition exit {A} (status : Z) : M A := raise (SystemExit status).

(** [try: body  except Exception as e: handler e]. *)
Definition try_except {A} (body : M A) (handler : Exn -> M A) : M A :=
  match body with
  | (t, Raises e) =>
      if is_Exception e
      then let (t', r) := handler e in ((t ++ t')%list, r)
      else body
  | _ => body
  end.

(** [try: body  finally: cleanup]: the cleanup runs on every path, and an
    exception it raises replaces the outcome of the body. *)
Definition try_finally {A} (body : M A) (cleanup : M unit) : M A :=
  let (t, r) := body in
  match cleanup with
  | (t', Returns _) => ((t ++ t')%list, r)
  | (t', Raises e') => ((t ++ t')%list, Raises e')
  end.

(** ** The world *)

(** What a call into Playwright answers. *)
Inductive Answer (A : Type) :=
| Gives (a : A)
| Fails (e : LibError).
Arguments Gives {A} a.
Arguments Fails {A} e.

(** A library call: the action is recorded, then it answers. *)
Definition call {A} (ev : Event) (ans : Answer A) : M A :=
  ([ev], match ans with
         | Gives a => Returns a
         | Fails e => Raises (PlaywrightError e)
         end).

(** A value read from a live object, unless the read fails. *)
Definition answer {A} (fails : option LibError) (a : A) : Answer A :=
  match fails with
  | Some e => Fails e
  | None => Gives a
  end.

(** An element handle returned by [query_selector_all]: the node's
    [tagName] and rendered inner text, and whether reading them fails
    (the node may be gone by the time it is read). *)
Record Elem := mkElem {
  handle : nat;
  tagName : string;
  innerText : string;
  evaluate_fails : option LibError;
  inner_text_fails : option LibError
}.

(** What the first JavaScript function sees of a page: the elements
    bearing the class, in document order, each given by the [href]
    property of its descendant [<a>] elements in document order (the
    property is the empty string on an anchor without the attribute). *)
Definition Marked := list (list string).

(** Opening the Playwright driver and attaching to the browser. *)
Record Session := mkSession {
  enter : Answer unit;              (* [sync_playwright().__enter__()] *)
  connect_over_cdp : Answer unit;
  contexts : list nat;              (* [browser.contexts], each by its number of pages *)
  context_new_page : Answer unit    (* when the context has no page *)
}.

(** The calls of [test_cdp_connection]. *)
Record Probe := mkProbe {
  probe_session : Session;
  probe_goto : Answer unit;
  probe_title : Answer string;
  probe_url : string;
  probe_close : Answer unit
}.

(** The calls of [navigate_and_extract_content], in program order. *)
Record Scrape := mkScrape {
  session : Session;
  goto_initial : Answer unit;
  settle_initial : Answer unit;
  click_wait : Answer unit;         (* [wait_for_selector(click_selector)] *)
  click_query : Answer bool;        (* [query_selector]: a handle, or [None] *)
  click_click : Answer unit;
  click_settle : Answer unit;
  link_marked : Answer Marked;      (* the page under the first [evaluate] *)
  diag_title : Answer string;
  diag_url : string;
  diag_marked : Answer Marked;      (* the page under the second [evaluate] *)
  open_tab : Answer unit;
  goto_target : Answer unit;
  settle_target : Answer unit;
  container_wait : Answer unit;     (* [wait_for_selector(content_selector)] *)
  container_query : Answer bool;    (* [query_selector]: a handle, or [None] *)
  missing_title : Answer string;
  missing_url : string;
  all_children : Answer (list Elem);
  result_url : string;
  result_title : Answer string;
  close : Answer unit
}.

Record World := mkWorld {
  probe : Probe;
  scrape : Scrape;
  (* [tts_to_file(text, file_path)]: [None] when the file is written,
     the message of the error otherwise *)
  tts_to_file : string -> string -> option string
}.

(** ** playwright_scraper.py *)

Definition marker : string := "group/notification-list-item".

(** [() => { const element = document.getElementsByClassName(marker)[0];
             if (!element) return null;
             const anchor = element.querySelector('a');
             if (!anchor) return null;
             return anchor.href; }] *)
Definition first_anchor_href (dom : Marked) : option string :=
  match dom with
  | [] => None
  | element :: _ =>
      match element with
      | [] => None
      | href :: _ => Some href
      end
  end.

(** [() => document.getElementsByClassName(marker).length] *)
Definition count_marked (dom : Marked) : nat := length dom.

(** [not href], for [href] a string or [None]. *)
Definition falsy (href : option string) : bool :=
  match href with
  | None => true
  | Some s => negb (truthy s)
  end.

(** [with sync_playwright() as p: body]: leaving the block stops the
    driver and lets an exception of the body through. *)
Definition with_playwright {A} (s : Session) (body : M A) : M A :=
  call PlaywrightEnter (enter s) ;;
  try_finally body ([PlaywrightExit], Returns tt).

(** Lines 116-122 (and 22-31, 279-285): attach, take the first context,
    take its first page or open one. *)
Definition first_page (s : Session) (cdp_url : string) : M unit :=
  call (ConnectOverCdp cdp_url) (connect_over_cdp s) ;;
  pages <- match contexts s with
           | [] => raise IndexError
           | pages :: _ => ret pages
           end ;;
  if 0 <? pages then ret tt else call ContextNewPage (context_new_page s).

(** Step 1.5, lines 134-147. *)
Definition click_step (w : Scrape) (wait_time : Z) (click_selector : option string)
  : M unit :=
  match click_selector with
  | None => ret tt
  | Some sel =>
      if truthy sel then
        print ("Clicking element: " ++ sel) ;;
        try_except
          (call (WaitForSelector page sel wait_time) (click_wait w) ;;
           click_element <- call (QuerySelector page sel) (click_query w) ;;
           if click_element : bool then
             call Click (click_click w) ;;
             print (check_mark ++ " Element clicked successfully") ;;
             call (WaitForTimeout page 2000) (click_settle w)
           else
             print "Warning: Click element not found")
          (fun e => print ("Warning: Could not click element: " ++ str_exn e))
      else ret tt
  end.

Definition link_error : string :=
  "Could not find element with class 'group/notification-list-item' or its child anchor tag".

(** Step 2, lines 149-179: the link of the first marked element. *)
Definition resolve_link (w : Scrape) : M string :=
  print "Getting link using class name: group/notification-list-item" ;;
  dom <- call (Evaluate page FirstAnchorHref) (link_marked w) ;;
  let href := first_anchor_href dom in
  (if falsy href then
     print (LF ++ "DEBUG: Could not find element or anchor tag") ;;
     t <- call (Title page) (diag_title w) ;;
     print_args ["Page title:"; t] ;;
     print_args ["Current URL:"; diag_url w] ;;
     dom' <- call (Evaluate page CountMarked) (diag_marked w) ;;
     let classes_found := count_marked dom' in
     print ("Found " ++ str_of_nat classes_found
            ++ " elements with class 'group/notification-list-item'") ;;
     raise (PlainException link_error)
   else ret tt) ;;
  let href := match href with Some h => h | None => "" end in
  print ("Found link: " ++ href) ;;
  ret href.

(** Step 3, lines 181-185: the link opened in a new tab. *)
Definition open_target (w : Scrape) (href : string) (wait_time : Z) : M unit :=
  call ContextNewPage (open_tab w) ;;
  print ("Opening new tab with: " ++ href) ;;
  call (Goto new_page href "domcontentloaded" (Some 60000%Z)) (goto_target w) ;;
  call (WaitForTimeout new_page wait_time) (settle_target w).

Definition container_error (content_selector : string) : string :=
  "Could not find content element with selector: " ++ content_selector.

(** Step 4, lines 187-201: the content container. *)
Definition locate_container (w : Scrape) (content_selector : string) (wait_time : Z)
  : M unit :=
  print ("Extracting content from selector: " ++ content_selector) ;;
  try_except
    (call (WaitForSelector new_page content_selector wait_time) (container_wait w))
    (fun e => print ("Warning: Content element not found after "
                     ++ str_of_Z wait_time ++ "ms wait")) ;;
  content_container <- call (QuerySelector new_page content_selector) (container_query w) ;;
  if content_container : bool then ret tt
  else
    print (LF ++ "DEBUG: Could not find content container") ;;
    t <- call (Title new_page) (missing_title w) ;;
    print_args ["Page title:"; t] ;;
    print_args ["Current URL:"; missing_url w] ;;
    raise (PlainException (container_error content_selector)).

Definition tag_selector : string := "p, h2, h3, h4, ul, ol, pre, code".

(** The loop of lines 207-215, [collected_content] being the list built
    so far. *)
Fixpoint collect (elements : list Elem) (collected_content : list ExtractedItem)
  : M (list ExtractedItem) :=
  match elements with
  | [] => ret collected_content
  | element :: rest =>
      tag_name <- call (ElementEvaluate (handle element) TagNameLowerCase)
                       (answer (evaluate_fails element) (toLowerCase (tagName element))) ;;
      txt <- call (InnerText (handle element))
                  (answer (inner_text_fails element) (innerText element)) ;;
      let txt := strip txt in
      collect rest (if truthy txt
                    then (collected_content ++ [mkItem tag_name txt])%list
                    else collected_content)
  end.

(** Step 5, lines 203-215: the ordered content of the container. *)
Definition extract (w : Scrape) : M (list ExtractedItem) :=
  elements <- call (QuerySelectorAll tag_selector) (all_children w) ;;
  collect elements [].

(** Lines 230-233. *)
Fixpoint print_items (items : list ExtractedItem) : M unit :=
  match items with
  | [] => ret tt
  | item :: rest =>
      print ("[" ++ upper (tag item) ++ "]") ;;
      print (text item) ;;
      print "" ;;
      print_items rest
  end.

(** Lines 217-235. *)
Definition assemble (w : Scrape) (initial_url href : string)
  (collected_content : list ExtractedItem) : M ExtractionResult :=
  t <- call (Title new_page) (result_title w) ;;
  let result := mkResult initial_url href (result_url w) t collected_content
                         (join (LF ++ LF) (map text collected_content)) in
  print (LF ++ rule) ;;
  print "EXTRACTED CONTENT:" ;;
  print (rule ++ LF) ;;
  print_items collected_content ;;
  ret result.

Definition navigate_and_extract_content (w : Scrape)
  (initial_url content_selector cdp_url : string) (wait_time : Z)
  (click_selector : option string) : M ExtractionResult :=
  with_playwright (session w)
    (first_page (session w) cdp_url ;;
     try_finally
       (print ("Navigating to: " ++ initial_url) ;;
        call (Goto page initial_url "domcontentloaded" (Some 60000%Z)) (goto_initial w) ;;
        call (WaitForTimeout page wait_time) (settle_initial w) ;;
        click_step w wait_time click_selector ;;
        href <- resolve_link w ;;
        open_target w href wait_time ;;
        locate_container w content_selector wait_time ;;
        collected_content <- extract w ;;
        assemble w initial_url href collected_content)
       (call BrowserClose (close w))).

Definition default_cdp_url : string := "http://localhost:9222".

Definition the_click_selector : string :=
  "#root > div.border-subtlest.ring-subtlest.divide-subtlest.bg-base > div > div > div.group\/sidebar.relative.z-10.hidden.min-h-0.flex-none.flex-row-reverse.md\:flex.border-r.border-subtlest.ring-subtlest.divide-subtlest.bg-base > div.pb-md.scrollbar-none.relative.flex.h-full.flex-col.items-center.overflow-y-auto.overflow-x-hidden.border-subtlest.ring-subtlest.divide-subtlest.bg-transparent > div.gap-md.pt-sm.mt-auto.flex.w-full.min-w-0.flex-col.items-center.justify-center.\[\&\>\*\]\:w-full.pb-sm > div.relative.flex.flex-col.items-center.justify-center > span > div > div > button".

Definition the_content_selector : string := "#markdown-content-0 > div > div > div".

Definition navigate_with_specific_selectors (w : Scrape) (initial_url cdp_url : string)
  : M ExtractionResult :=
  navigate_and_extract_content w initial_url the_content_selector cdp_url 5000%Z
    (Some the_click_selector).

Definition test_cdp_connection (w : Probe) (cdp_url : string) : M bool :=
  try_except
    (with_playwright (probe_session w)
       (first_page (probe_session w) cdp_url ;;
        call (Goto page "https://example.com" "networkidle" None) (probe_goto w) ;;
        t <- call (Title page) (probe_title w) ;;
        print (check_mark ++ " CDP Connection successful!") ;;
        print ("  Page title: " ++ t) ;;
        print ("  URL: " ++ probe_url w) ;;
        call BrowserClose (probe_close w) ;;
        ret true))
    (fun e =>
       print (cross_mark ++ " CDP Connection failed: " ++ str_exn e) ;;
       ret false).

(** ** tts.py *)

Definition generate_audio_file (w : World) (text output_file : string) : M unit :=
  print_args ["Content to be converted to audio: "; text; LF ++ LF ++ LF] ;;
  ([TtsToFile text output_file false],
   match tts_to_file w text output_file with
   | None => Returns tt
   | Some msg => Raises (ModelError msg)
   end).

(** ** main.py *)

(** [reduce(lambda x, y: x + y['text'], content, "")]. *)
Definition speech_text (content : list ExtractedItem) : string :=
  fold_left (fun x y => x ++ text y) content "".

Definition the_initial_url : string := "https://www.perplexity.ai/".

(** The [__main__] block, run once the imports at the top of the file
    are done (the import of [tts] binds the speech model). *)
Definition main (w : World) : M unit :=
  print rule ;;
  print "PLAYWRIGHT CDP SCRAPER" ;;
  print rule ;;
  print (LF ++ "Attempting to connect to browser on http://localhost:9222") ;;
  print (LF ++ "If you see a connection error, start your browser with remote debugging:") ;;
  print "  macOS: open -a 'Microsoft Edge' --args --remote-debugging-port=9222" ;;
  print "  or: /Applications/Microsoft\ Edge.app/Contents/MacOS/Microsoft\ Edge --remote-debugging-port=9222" ;;
  print (rule ++ LF) ;;
  print "Testing CDP connection..." ;;
  ok <- test_cdp_connection (probe w) default_cdp_url ;;
  (if negb ok then
     print (LF ++ "Please ensure:") ;;
     print "  1. Your browser is running" ;;
     print "  2. It was started with --remote-debugging-port=9222" ;;
     print "  3. No other process is using port 9222" ;;
     exit 1%Z
   else ret tt) ;;
  print (LF ++ rule) ;;
  print "Starting main scraping task..." ;;
  print (rule ++ LF) ;;
  try_except
    (let initial_url := the_initial_url in
     result <- navigate_with_specific_selectors (scrape w) initial_url default_cdp_url ;;
     print (LF ++ check_mark ++ " Successfully extracted "
            ++ str_of_nat (length (content result)) ++ " elements") ;;
     let content := content result in
     let content := speech_text content in
     generate_audio_file w content "content.wav")
    (fun e =>
       print (LF ++ cross_mark ++ " Error during scraping: " ++ str_exn e) ;;
       print (LF ++ "Note: The selectors might need to be updated based on the current page structure.") ;;
       print "You can modify the selectors in the navigate_with_specific_selectors() function." ;;
       exit 1%Z).

(** The exit status of the process: 0 when the block runs to its end,
    the status of [exit], 1 for any other exception left uncaught. *)
Definition exit_status (r : Outcome unit) : Z :=
  match r with
  | Returns _ => 0%Z
  | Raises (SystemExit status) => status
  | Raises _ => 1%Z
  end.

Definition run (w : World) : Trace * Z :=
  let (t, r) := main w in (t, exit_status r).

(** ** Vocabulary of the statements *)

(** *** Computations *)

(** What a computation returns, when it returns. *)
Definition yields {A} (Q : A -> Prop) (m : M A) : Prop :=
  forall t a, m = (t, Returns a) -> Q a.

(** What an exception of a computation is, when it raises. *)
Definition throws {A} (P : Exn -> Prop) (m : M A) : Prop :=
  forall t e, m = (t, Raises e) -> P e.

(** Every action of a computation satisfies [P]. *)
Definition emits {A} (P : Event -> Prop) (m : M A) : Prop := Forall P (fst m).

Definition is_library_error (e : Exn) : Prop := exists le, e = PlaywrightError le.

(** *** Strings *)

Definition total_length (parts : list string) : nat :=
  fold_right (fun p n => String.length p + n) 0 parts.

(** A byte that continues a character of several bytes. *)
Definition is_continuation (c : ascii) : bool := (128 <=? code c) && (code c <? 192).

Fixpoint all_continuation (s : string) : bool :=
  match s with
  | EmptyString => true
  | String c r => is_continuation c && all_continuation r
  end.

(** The first byte of a character is no continuation byte, the others are. *)
Definition well_begun (s : string) : bool :=
  match s with
  | EmptyString => false
  | String c r => negb (is_continuation c) && all_continuation r
  end.

(** A string made of white-space characters only. *)
Inductive blank : string -> Prop :=
| blank_nil : blank ""
| blank_cons cp s : isspace cp = true -> blank s -> blank (utf8 cp ++ s).

(** The first, the last character of the string is white space. *)
Definition starts_with_space (s : string) : Prop :=
  exists cp rest, isspace cp = true /\ s = utf8 cp ++ rest.

Definition ends_with_space (s : string) : Prop :=
  exists cp front, isspace cp = true /\ s = front ++ utf8 cp.

(** A text that is not empty and has no white space at either end. *)
Definition trimmed (s : string) : Prop :=
  s <> "" /\ ~ starts_with_space s /\ ~ ends_with_space s.

(** [core] is [s] without the white space at its two ends. *)
Definition trims (s core : string) : Prop :=
  exists lead trail,
    s = lead ++ core ++ trail /\ blank lead /\ blank trail /\ trimmed core.

Definition is_upper_letter (c : ascii) : bool := (65 <=? code c) && (code c <=? 90).

(** The same character, or the same letter A..Z in its two cases. *)
Definition same_letter (c d : ascii) : bool :=
  (code c =? code d)
  || (is_upper_letter c && (code d =? code c + 32))
  || (is_upper_letter d && (code c =? code d + 32)).

(** Two names that differ at most in the case of their letters A..Z. *)
Fixpoint same_name (a b : string) : bool :=
  match a, b with
  | EmptyString, EmptyString => true
  | String c a', String d b' => same_letter c d && same_name a' b'
  | _, _ => false
  end.

Fixpoint no_upper_letter (s : string) : bool :=
  match s with
  | EmptyString => true
  | String c r => negb (is_upper_letter c) && no_upper_letter r
  end.

(** *** The extractor *)

(** Both reads of the loop body succeed on this element. *)
Definition readable (el : Elem) : Prop :=
  evaluate_fails el = None /\ inner_text_fails el = None.

(** The element's inner text is not empty once trimmed. *)
Definition has_text (el : Elem) : bool := truthy (strip (innerText el)).

(** The item a kept element gives. *)
Definition item_of (el : Elem) : ExtractedItem :=
  mkItem (toLowerCase (tagName el)) (strip (innerText el)).

(** M: how many of the elements have a non-empty trimmed text. *)
Fixpoint count_text (elements : list Elem) : nat :=
  match elements with
  | [] => 0
  | el :: rest => (if has_text el then 1 else 0) + count_text rest
  end.

(** The reads the loop performs over readable elements. *)
Definition reads (elements : list Elem) : Trace :=
  flat_map (fun el => [ElementEvaluate (handle el) TagNameLowerCase;
                       InnerText (handle el)]) elements.

(** [a] is a subsequence of [b]: the order of [b] is kept. *)
Inductive subseq {A : Type} : list A -> list A -> Prop :=
| subseq_nil : subseq [] []
| subseq_skip x a b : subseq a b -> subseq a (x :: b)
| subseq_take x a b : subseq a b -> subseq (x :: a) (x :: b).


(** *** Traces *)

Definition is_tts (ev : Event) : bool :=
  match ev with TtsToFile _ _ _ => true | _ => false end.

(** How many times the speech model is invoked along a trace. *)
Definition count_tts (t : Trace) : nat := length (filter is_tts t).

(** The actions of the extractor. *)
Definition is_extraction (ev : Event) : bool :=
  match ev with
  | QuerySelectorAll _ | ElementEvaluate _ _ | InnerText _ => true
  | _ => false
  end.

Definition is_goto (ev : Event) : bool :=
  match ev with Goto _ _ _ _ => true | _ => false end.

Definition no_tts (ev : Event) : bool := negb (is_tts ev).
Definition no_extraction (ev : Event) : bool := negb (is_extraction ev).

(** The actions of the sequencer before the click step, and of its
    cleanup. *)
Definition is_prelude (ev : Event) : bool :=
  match ev with
  | PlaywrightEnter | PlaywrightExit | ConnectOverCdp _ | ContextNewPage
  | Print _ | Goto page _ _ _ | WaitForTimeout page _ | BrowserClose => true
  | _ => false
  end.

(** The actions of the click, of the link resolution and of the opening
    of the new tab. *)
Definition before_container (ev : Event) : bool :=
  match ev with
  | Print _ | WaitForSelector page _ _ | QuerySelector page _ | Click
  | WaitForTimeout _ _ | Evaluate page _ | Title page | ContextNewPage
  | Goto new_page _ _ _ => true
  | _ => false
  end.

(** Every navigation of the trace goes to [url]. *)
Definition visits (url : string) (ev : Event) : Prop :=
  match ev with
  | Goto _ url' _ _ => url' = url
  | _ => True
  end.

(** Every navigation of the first page goes to [url]. *)
Definition first_page_visits (url : string) (ev : Event) : Prop :=
  match ev with
  | Goto page url' _ _ => url' = url
  | _ => True
  end.

(** *** The sequencer *)

(** The session opens and a first page is at hand. *)
Definition attached (s : Session) : Prop :=
  enter s = Gives tt /\ connect_over_cdp s = Gives tt
  /\ exists pages rest, contexts s = pages :: rest
       /\ (pages = 0 -> context_new_page s = Gives tt).

(** The run gets as far as the link resolution: the session opens, the
    first page loads and settles. (The click step in between always
    returns.) *)
Definition reaches_link (w : Scrape) : Prop :=
  attached (session w) /\ goto_initial w = Gives tt /\ settle_initial w = Gives tt.

(** The script of the link resolution answers [null] or the empty string:
    no element bears the class, or the first one has no anchor under it,
    or its first anchor has no [href]. *)
Definition no_link (w : Scrape) : Prop :=
  exists dom, link_marked w = Gives dom /\ falsy (first_anchor_href dom) = true.

(** The link resolution finds the link [href]. *)
Definition link_found (w : Scrape) (href : string) : Prop :=
  exists dom, link_marked w = Gives dom /\ first_anchor_href dom = Some href
              /\ truthy href = true.

(** The run gets as far as the wait for the content container. *)
Definition reaches_container (w : Scrape) : Prop :=
  reaches_link w /\ (exists href, link_found w href)
  /\ open_tab w = Gives tt /\ goto_target w = Gives tt /\ settle_target w = Gives tt.

(** The two diagnostic reads made before the link error is raised
    answer. *)
Definition diagnostics_answer (w : Scrape) : Prop :=
  (exists t, diag_title w = Gives t) /\ (exists d, diag_marked w = Gives d).

(** The steps of the [try] block that follow the click. *)
Definition after_click (w : Scrape) (initial_url content_selector : string)
  (wait_time : Z) : M ExtractionResult :=
  href <- resolve_link w ;;
  open_target w href wait_time ;;
  locate_container w content_selector wait_time ;;
  collected_content <- extract w ;;
  assemble w initial_url href collected_content.

(** Steps 5 and after. *)
Definition after_container (w : Scrape) (initial_url href : string)
  : M ExtractionResult :=
  collected_content <- extract w ;;
  assemble w initial_url href collected_content.

(** The log line of a timed-out wait for the container, if any. *)
Definition wait_warning (w : Scrape) (wait_time : Z) : Trace :=
  match container_wait w with
  | Gives _ => []
  | Fails _ => [Print ("Warning: Content element not found after "
                       ++ str_of_Z wait_time ++ "ms wait")]
  end.

(** What [navigate_and_extract_content] promises of a result it returns. *)
Definition well_formed (result : ExtractionResult) : Prop :=
  full_text result = join (LF ++ LF) (map text (content result))
  /\ Forall (fun it => truthy (text it) = true) (content result).

(** *** The program *)

(** The lines [main] prints before the connection test. *)
Definition banner : Trace :=
  [Print rule; Print "PLAYWRIGHT CDP SCRAPER"; Print rule;
   Print (LF ++ "Attempting to connect to browser on http://localhost:9222");
   Print (LF ++ "If you see a connection error, start your browser with remote debugging:");
   Print "  macOS: open -a 'Microsoft Edge' --args --remote-debugging-port=9222";
   Print "  or: /Applications/Microsoft\ Edge.app/Contents/MacOS/Microsoft\ Edge --remote-debugging-port=9222";
   Print (rule ++ LF);
   Print "Testing CDP connection..."].

(** The diagnostic instructions printed when the test fails. *)
Definition instructions : Trace :=
  [Print (LF ++ "Please ensure:");
   Print "  1. Your browser is running";
   Print "  2. It was started with --remote-debugging-port=9222";
   Print "  3. No other process is using port 9222"].

Definition heading : Trace :=
  [Print (LF ++ rule); Print "Starting main scraping task..."; Print (rule ++ LF)].

(** What the handler of [main] prints for the exception [e]. *)
Definition failure_report (e : Exn) : Trace :=
  [Print (LF ++ cross_mark ++ " Error during scraping: " ++ str_exn e);
   Print (LF ++ "Note: The selectors might need to be updated based on the current page structure.");
   Print "You can modify the selectors in the navigate_with_specific_selectors() function."].

Definition success_line (result : ExtractionResult) : Event :=
  Print (LF ++ check_mark ++ " Successfully extracted "
         ++ str_of_nat (length (content result)) ++ " elements").

(** The line [generate_audio_file] prints before the synthesis. *)
Definition announcement (txt : string) : Event :=
  Print (join " " ["Content to be converted to audio: "; txt; LF ++ LF ++ LF]).

(** The pipeline as [main] runs it. *)
Definition pipeline (w : World) : M ExtractionResult :=
  navigate_with_specific_selectors (scrape w) the_initial_url default_cdp_url.

(** The connection test as [main] runs it. *)
Definition connection_test (w : World) : M bool :=
  test_cdp_connection (probe w) default_cdp_url.

(** ** Sample worlds *)

Definition timeout_5000 : LibError := mkLibError true "Timeout 5000ms exceeded.".

Definition open_session : Session := mkSession (Gives tt) (Gives tt) [1] (Gives tt).

Definition live_probe : Probe :=
  mkProbe open_session (Gives tt) (Gives "Example Domain") "https://example.com/"
          (Gives tt).

(** [<h2>Title</h2><p>  </p><p>Body text</p>], each node under the handle
    [first], [first + 1], [first + 2]. *)
Definition article (first : nat) : list Elem :=
  [mkElem first "H2" "Title" None None;
   mkElem (first + 1) "P" "  " None None;
   mkElem (first + 2) "P" " Body text " None None].

(** A world in which every call answers; the page under the link
    resolution, the lookup of the container (after a wait that may have
    timed out) and the matched elements are left open. *)
Definition scrape_with (marked : Marked) (wait : Answer unit) (found : bool)
  (elements : list Elem) : Scrape :=
  mkScrape open_session (Gives tt) (Gives tt)
           (Gives tt) (Gives true) (Gives tt) (Gives tt)
           (Gives marked) (Gives "Home") "https://www.perplexity.ai/" (Gives marked)
           (Gives tt) (Gives tt) (Gives tt)
           wait (Gives found) (Gives "Page") "https://www.perplexity.ai/page/a"
           (Gives elements) "https://www.perplexity.ai/page/a" (Gives "Article")
           (Gives tt).

Definition world_with (s : Scrape) : World := mkWorld live_probe s (fun _ _ => None).

Definition linked : Marked := [["https://www.perplexity.ai/page/a"]].

(** Everything is found. *)
Definition calm : World := world_with (scrape_with linked (Gives tt) true (article 0)).

(** No element bears the class. *)
Definition unmarked : World := world_with (scrape_with [] (Gives tt) true (article 0)).

(** The wait for the container times out and the container is absent. *)
Definition hollow : World :=
  world_with (scrape_with linked (Fails timeout_5000) false []).

(** The container is there and holds no matching element. *)
Definition bare : World := world_with (scrape_with linked (Gives tt) true []).

(** No browser listens on the port. *)
Definition offline : World :=
  mkWorld (mkProbe (mkSession (Gives tt)
                              (Fails (mkLibError false "connect ECONNREFUSED 127.0.0.1:9222"))
                              [] (Gives tt))
                   (Gives tt) (Gives "") "" (Gives tt))
          (scrape calm) (fun _ _ => None).

Definition calm_items : list ExtractedItem := [mkItem "h2" "Title"; mkItem "p" "Body text"].

Definition calm_result : ExtractionResult :=
  mkResult the_initial_url "https://www.perplexity.ai/page/a"
           "https://www.perplexity.ai/page/a" "Article" calm_items
           ("Title" ++ LF ++ LF ++ "Body text").

Definition bare_result : ExtractionResult :=
  mkResult the_initial_url "https://www.perplexity.ai/page/a"
           "https://www.perplexity.ai/page/a" "Article" [] "".

(** [<p>D</p><p>&#x3000;</p><pre>&emsp;E&nbsp;</pre><p></p>]: the text of
    the second node is one ideographic space, that of the third begins
    with an em space and ends with a non-breaking space, the fourth has
    no text. *)
Definition spaced : list Elem :=
  [mkElem 0 "P" "D" None None;
   mkElem 1 "P" (utf8 12288) None None;
   mkElem 2 "PRE" (utf8 8195 ++ "E" ++ utf8 160) None None;
   mkElem 3 "P" "" None None].

Definition spaced_items : list ExtractedItem := [mkItem "p" "D"; mkItem "pre" "E"].

(** The matched elements are those of [spaced]. *)
Definition roomy : World := world_with (scrape_with linked (Gives tt) true spaced).

Definition detached : LibError :=
  mkLibError false "ElementHandle.inner_text: Element is not attached to the DOM".

(** [<p>Hello</p>], gone from the page by the time its text is read. *)
Definition gone : list Elem := [mkElem 0 "P" "Hello" None (Some detached)].

Definition stale : World := world_with (scrape_with linked (Gives tt) true gone).

Definition connection_closed : LibError :=
  mkLibError false "Browser.close: Connection closed".

(** The same answers, that of [browser.close()] apart. *)
Definition closing (c : Answer unit) (s : Scrape) : Scrape :=
  mkScrape (session s) (goto_initial s) (settle_initial s)
           (click_wait s) (click_query s) (click_click s) (click_settle s)
           (link_marked s) (diag_title s) (diag_url s) (diag_marked s)
           (open_tab s) (goto_target s) (settle_target s)
           (container_wait s) (container_query s) (missing_title s) (missing_url s)
           (all_children s) (result_url s) (result_title s)
           c.

(** No element bears the class, and the connection is lost before it is
    closed. *)
Definition unmarked_cut : World :=
  world_with (closing (Fails connection_closed) (scrape unmarked)).

(** The container is absent, and the connection is lost before it is
    closed. *)
Definition hollow_cut : World :=
  world_with (closing (Fails connection_closed) (scrape hollow)).

Definition roomy_result : ExtractionResult :=
  mkResult the_initial_url "https://www.perplexity.ai/page/a"
           "https://www.perplexity.ai/page/a" "Article" spaced_items
           ("D" ++ LF ++ LF ++ "E").


(** ** Vocabulary of the further statements *)

Definition is_close (ev : Event) : bool :=
  match ev with BrowserClose => true | _ => false end.

(** How many times the connection to the browser is closed. *)
Definition count_close (t : Trace) : nat := length (filter is_close t).

(** The actions of the [try] block of [navigate_and_extract_content]:
    all but starting and stopping the driver, attaching, closing and
    speaking. *)
Definition in_try (ev : Event) : bool :=
  match ev with
  | PlaywrightEnter | PlaywrightExit | ConnectOverCdp _ | BrowserClose
  | TtsToFile _ _ _ => false
  | _ => true
  end.

(** The [try] block of [navigate_and_extract_content]. *)
Definition try_block (w : Scrape) (initial_url content_selector : string)
  (wait_time : Z) (click_selector : option string) : M ExtractionResult :=
  print ("Navigating to: " ++ initial_url) ;;
  call (Goto page initial_url "domcontentloaded" (Some 60000%Z)) (goto_initial w) ;;
  call (WaitForTimeout page wait_time) (settle_initial w) ;;
  click_step w wait_time click_selector ;;
  after_click w initial_url content_selector wait_time.

(** Everything a run needs to return a result: the calls of the click
    step, the wait for the container and the diagnostic reads are not
    among them. *)
Definition all_answer (w : Scrape) : Prop :=
  reaches_container w
  /\ container_query w = Gives true
  /\ (exists elements, all_children w = Gives elements /\ Forall readable elements)
  /\ (exists t, result_title w = Gives t)
  /\ close w = Gives tt.

Definition is_driver (ev : Event) : bool :=
  match ev with PlaywrightEnter | PlaywrightExit => true | _ => false end.

(** Everything [test_cdp_connection] needs to answer [True]. *)
Definition probe_ok (w : Probe) : Prop :=
  attached (probe_session w)
  /\ probe_goto w = Gives tt
  /\ (exists t, probe_title w = Gives t)
  /\ probe_close w = Gives tt.

(** The test got as far as reading the title of the page. *)
Definition probe_read (w : Probe) : Prop :=
  attached (probe_session w)
  /\ probe_goto w = Gives tt
  /\ (exists t, probe_title w = Gives t).

(** The error of the first step of the attachment that fails, if any:
    the start of the driver, [connect_over_cdp], [browser.contexts[0]] on
    an empty list, [new_page()] on a context without a page. *)
Definition session_failure (s : Session) : option Exn :=
  match enter s with
  | Fails e => Some (PlaywrightError e)
  | Gives _ =>
      match connect_over_cdp s with
      | Fails e => Some (PlaywrightError e)
      | Gives _ =>
          match contexts s with
          | [] => Some IndexError
          | pages :: _ =>
              if 0 <? pages then None
              else match context_new_page s with
                   | Fails e => Some (PlaywrightError e)
                   | Gives _ => None
                   end
          end
      end
  end.

(** The error of the first step of [test_cdp_connection] that fails, if
    any, in the order of the program: the attachment, the navigation,
    the read of the title, the closing of the connection. *)
Definition probe_failure (w : Probe) : option Exn :=
  match session_failure (probe_session w) with
  | Some e => Some e
  | None =>
      match probe_goto w with
      | Fails e => Some (PlaywrightError e)
      | Gives _ =>
          match probe_title w with
          | Fails e => Some (PlaywrightError e)
          | Gives _ =>
              match probe_close w with
              | Fails e => Some (PlaywrightError e)
              | Gives _ => None
              end
          end
      end
  end.

(** A browser that answers everything but the closing of the connection. *)
Definition sticky_probe : Probe :=
  mkProbe open_session (Gives tt) (Gives "Example Domain") "https://example.com/"
          (Fails (mkLibError false "Target closed")).

Definition is_print (ev : Event) : bool :=
  match ev with Print _ => true | _ => false end.

(** The actions of the click step on the first page. *)
Definition is_click_action (ev : Event) : bool :=
  match ev with
  | Click | WaitForSelector page _ _ | QuerySelector page _ => true
  | _ => false
  end.

(** The time, in milliseconds, an action is told it may take: the
    timeout of a navigation or of a wait for a selector, the length of a
    pause. *)
Definition wait_budget (ev : Event) : Z :=
  match ev with
  | Goto _ _ _ (Some ms) => ms
  | WaitForTimeout _ ms => ms
  | WaitForSelector _ _ ms => ms
  | _ => 0%Z
  end.

Definition total_wait (t : Trace) : Z :=
  fold_right (fun ev n => (wait_budget ev + n)%Z) 0%Z t.

(** Every navigation waits for the DOM content only, for 60 s at most. *)
Definition bounded_goto (ev : Event) : Prop :=
  match ev with
  | Goto _ _ wait_until timeout =>
      wait_until = "domcontentloaded" /\ timeout = Some 60000%Z
  | _ => True
  end.

(** ** The two page readers of playwright_scraper.py *)

(** The calls that only [get_webpage_content] and
    [get_webpage_content_with_selector] make. *)
Inductive PageRead :=
| BodyText (selector : string)   (* [page.inner_text(selector)] *)
| Html.                          (* [page.content()] *)

Definition Action : Type := (Event + PageRead)%type.

(** A computation of the readers: as [M], over the wider actions. *)
Definition R (A : Type) : Type := (list Action * Outcome A)%type.

Definition retR {A} (a : A) : R A := ([], Returns a).

Definition bindR {A B} (m : R A) (f : A -> R B) : R B :=
  match m with
  | (t, Returns a) => let (t', r) := f a in ((t ++ t')%list, r)
  | (t, Raises e) => (t, Raises e)
  end.

Notation "x <== m ;; k" := (bindR m (fun x => k))
  (at level 61, m at next level, right associativity).
Notation "m >> k" := (bindR m (fun _ => k))
  (at level 61, right associativity).

(** [try: body  finally: cleanup]. *)
Definition finallyR {A} (body : R A) (cleanup : R unit) : R A :=
  let (t, r) := body in
  match cleanup with
  | (t', Returns _) => ((t ++ t')%list, r)
  | (t', Raises e') => ((t ++ t')%list, Raises e')
  end.

(** A computation of the sequencer, run among the readers' actions. *)
Definition lift {A} (m : M A) : R A := (map inl (fst m), snd m).

(** A call of a reader: the action is recorded, then it answers. *)
Definition read {A} (a : PageRead) (ans : Answer A) : R A :=
  ([inr a], match ans with
            | Gives x => Returns x
            | Fails e => Raises (PlaywrightError e)
            end).

(** The calls of the two readers, in program order. *)
Record Reader := mkReader {
  reader_session : Session;
  reader_goto : Answer unit;
  reader_url : string;
  reader_title : Answer string;
  reader_body : Answer string;           (* [page.inner_text("body")] *)
  reader_html : Answer string;           (* [page.content()] *)
  reader_matches : Answer (list Elem);   (* [page.query_selector_all(selector)] *)
  reader_close : Answer unit
}.

(** The dict returned by [get_webpage_content]. *)
Record PageContent := mkPageContent {
  page_url : string;
  page_title : string;
  page_content : string;
  page_html : string
}.

(** The dict returned by [get_webpage_content_with_selector]; the key
    [selected_content] is there only when a selector was given. *)
Record SelectedContent := mkSelectedContent {
  selected_url : string;
  selected_title : string;
  selected_body : string;
  selected_content : option (list string)
}.

(** [with sync_playwright() as p: body], for a reader. *)
Definition with_playwrightR {A} (s : Session) (body : R A) : R A :=
  lift (call PlaywrightEnter (enter s)) >>
  finallyR body ([inl PlaywrightExit], Returns tt).

(** Lines 5-49. *)
Definition get_webpage_content (w : Reader) (url cdp_url : string) : R PageContent :=
  with_playwrightR (reader_session w)
    (lift (first_page (reader_session w) cdp_url) >>
     finallyR
       (lift (call (Goto page url "networkidle" None) (reader_goto w)) >>
        t <== lift (call (Title page) (reader_title w)) ;;
        c <== read (BodyText "body") (reader_body w) ;;
        h <== read Html (reader_html w) ;;
        retR (mkPageContent (reader_url w) t c h))
       (lift (call BrowserClose (reader_close w)))).

(** [[elem.inner_text() for elem in elements]]. *)
Fixpoint inner_texts (elements : list Elem) : M (list string) :=
  match elements with
  | [] => ret []
  | elem :: rest =>
      txt <- call (InnerText (handle elem))
                  (answer (inner_text_fails elem) (innerText elem)) ;;
      texts <- inner_texts rest ;;
      ret (txt :: texts)
  end.

(** Lines 52-91. *)
Definition get_webpage_content_with_selector (w : Reader) (url : string)
  (selector : option string) (cdp_url : string) : R SelectedContent :=
  with_playwrightR (reader_session w)
    (lift (first_page (reader_session w) cdp_url) >>
     finallyR
       (lift (call (Goto page url "networkidle" None) (reader_goto w)) >>
        t <== lift (call (Title page) (reader_title w)) ;;
        c <== read (BodyText "body") (reader_body w) ;;
        selected <== match selector with
                     | Some sel =>
                         if truthy sel then
                           lift (elements <- call (QuerySelectorAll sel)
                                                  (reader_matches w) ;;
                                 texts <- inner_texts elements ;;
                                 ret (Some texts))
                         else retR None
                     | None => retR None
                     end ;;
        retR (mkSelectedContent (reader_url w) t c selected))
       (lift (call BrowserClose (reader_close w)))).

(** Everything the part shared by the two readers needs. *)
Definition reader_reads (w : Reader) : Prop :=
  attached (reader_session w)
  /\ reader_goto w = Gives tt
  /\ (exists t, reader_title w = Gives t)
  /\ (exists c, reader_body w = Gives c).

Definition is_closeR (a : Action) : bool :=
  match a with inl BrowserClose => true | _ => false end.

(** How many times a reader closes the connection to the browser. *)
Definition count_closeR (t : list Action) : nat := length (filter is_closeR t).

Definition is_query_all (a : Action) : bool :=
  match a with inl (QuerySelectorAll _) => true | _ => false end.

(** A page with four matches, two of them without text. *)
Definition mixed_elements : list Elem :=
  [mkElem 0 "LI" " one " None None; mkElem 1 "LI" "" None None;
   mkElem 2 "LI" "  " None None; mkElem 3 "LI" "two" None None].

Definition plain_reader : Reader :=
  mkReader open_session (Gives tt) "https://example.com/" (Gives "Example Domain")
           (Gives "Example Domain body") (Gives "<html></html>")
           (Gives mixed_elements) (Gives tt).

(** The [try] block of [get_webpage_content]. *)
Definition content_block (w : Reader) (url : string) : R PageContent :=
  lift (call (Goto page url "networkidle" None) (reader_goto w)) >>
  t <== lift (call (Title page) (reader_title w)) ;;
  c <== read (BodyText "body") (reader_body w) ;;
  h <== read Html (reader_html w) ;;
  retR (mkPageContent (reader_url w) t c h).

(** The selection made by [get_webpage_content_with_selector]. *)
Definition selection (w : Reader) (selector : option string) : R (option (list string)) :=
  match selector with
  | Some sel =>
      if truthy sel then
        lift (elements <- call (QuerySelectorAll sel) (reader_matches w) ;;
              texts <- inner_texts elements ;;
              ret (Some texts))
      else retR None
  | None => retR None
  end.

(** The [try] block of [get_webpage_content_with_selector]. *)
Definition selected_block (w : Reader) (url : string) (selector : option string)
  : R SelectedContent :=
  lift (call (Goto page url "networkidle" None) (reader_goto w)) >>
  t <== lift (call (Title page) (reader_title w)) ;;
  c <== read (BodyText "body") (reader_body w) ;;
  selected <== selection w selector ;;
  retR (mkSelectedContent (reader_url w) t c selected).

(** The frame the two readers share: driver, attachment, first page, the
    block, and the closing of the connection whatever the block did. *)
Definition reader_frame {A} (s : Session) (cdp_url : string) (block : R A)
  (closing : Answer unit) : R A :=
  with_playwrightR s
    (lift (first_page s cdp_url) >>
     finallyR block (lift (call BrowserClose closing))).

(** * Properties *)

(** ** Strings *)

Lemma length_append (a b : string) :
  String.length (a ++ b) = String.length a + String.length b.
Proof. induction a as [|c a IH]; simpl; [reflexivity | now rewrite IH]. Qed.

Lemma append_empty_r (a : string) : a ++ "" = a.
Proof. induction a as [|c a IH]; simpl; [reflexivity | now rewrite IH]. Qed.

Lemma append_assoc (a b c : string) : (a ++ b) ++ c = a ++ (b ++ c).
Proof. induction a as [|x a IH]; simpl; [reflexivity | now rewrite IH]. Qed.

(** The fold of [main] is the concatenation of the texts, whatever it
    starts from. *)
Lemma fold_text_from (items : list ExtractedItem) (start : string) :
  fold_left (fun x y => x ++ text y) items start
  = start ++ String.concat "" (map text items).
Proof.
  revert start; induction items as [|it rest IH]; intro start; simpl.
  - now rewrite append_empty_r.
  - rewrite IH. destruct rest as [|it' rest'].
    + simpl. now rewrite !append_empty_r.
    + rewrite append_assoc. reflexivity.
Qed.

Lemma speech_text_concat (items : list ExtractedItem) :
  speech_text items = String.concat "" (map text items).
Proof. unfold speech_text. now rewrite fold_text_from. Qed.

Lemma length_concat_empty (parts : list string) :
  String.length (String.concat "" parts) = total_length parts.
Proof.
  induction parts as [|p rest IH]; [reflexivity|].
  destruct rest as [|q rest'].
  - simpl. lia.
  - change (String.concat "" (p :: q :: rest'))
      with (p ++ "" ++ String.concat "" (q :: rest')).
    rewrite !length_append, IH. reflexivity.
Qed.

Lemma length_join (sep : string) (parts : list string) :
  String.length (join sep parts)
  = total_length parts + String.length sep * (length parts - 1).
Proof.
  induction parts as [|p rest IH]; [simpl; lia|].
  destruct rest as [|q rest'].
  - simpl. lia.
  - change (join sep (p :: q :: rest')) with (p ++ sep ++ join sep (q :: rest')).
    rewrite !length_append, IH. simpl total_length. simpl length. nia.
Qed.

(** Two or more parts joined with a blank line are longer than the same
    parts put end to end. *)
Lemma join_longer (items : list ExtractedItem) :
  2 <= length items ->
  String.length (join (LF ++ LF) (map text items))
  = String.length (speech_text items) + 2 * (length items - 1).
Proof.
  intro H. rewrite speech_text_concat, length_join, length_concat_empty.
  rewrite length_map. reflexivity.
Qed.

Example strip_inner : strip ("  a b" ++ LF ++ " ") = "a b".
Proof. reflexivity. Qed.

Example strip_blank : strip ("   " ++ LF) = "".
Proof. reflexivity. Qed.

(** A non-breaking space (U+00A0), an em space (U+2003), a line
    separator (U+2028) and an ideographic space (U+3000) are white space
    for [strip]; a zero-width space (U+200B) is not. *)
Example strip_nbsp : strip (utf8 160 ++ "x") = "x".
Proof. reflexivity. Qed.

Example strip_wide :
  strip (utf8 12288 ++ utf8 8195 ++ "a" ++ utf8 12288 ++ "b" ++ utf8 8232 ++ " ")
  = "a" ++ utf8 12288 ++ "b"
  /\ strip (utf8 12288 ++ utf8 8195) = ""
  /\ strip (utf8 8203 ++ " ") = utf8 8203.
Proof. repeat split; reflexivity. Qed.

Example utf8_marks : utf8 10003 = check_mark /\ utf8 10007 = cross_mark.
Proof. split; reflexivity. Qed.

Example lower_tag : toLowerCase "H2" = "h2" /\ toLowerCase "PRE" = "pre".
Proof. split; reflexivity. Qed.

Example lower_accent : toLowerCase (utf8 201 ++ "T" ++ utf8 215) = utf8 233 ++ "t" ++ utf8 215.
Proof. reflexivity. Qed.

Example upper_accent : upper (utf8 233 ++ "t" ++ utf8 247 ++ utf8 223) = utf8 201 ++ "T" ++ utf8 247 ++ utf8 223.
Proof. reflexivity. Qed.

Example join_two : join (LF ++ LF) ["A"; "B"] = "A" ++ LF ++ LF ++ "B".
Proof. reflexivity. Qed.

(** *** White space *)

Lemma isspace_In (cp : N) : isspace cp = true <-> In cp space_points.
Proof.
  unfold isspace. rewrite existsb_exists. split.
  - intros (x & Hx & ->%N.eqb_eq). exact Hx.
  - intro H. exists cp. split; [exact H | apply N.eqb_refl].
Qed.

Lemma spaces_In (sp : string) :
  In sp spaces <-> exists cp, isspace cp = true /\ sp = utf8 cp.
Proof.
  unfold spaces. rewrite in_map_iff. split.
  - intros (cp & <- & H). exists cp. now rewrite isspace_In.
  - intros (cp & H & ->). exists cp. now rewrite <- isspace_In.
Qed.

Lemma prefix_append (a r : string) : prefix a (a ++ r) = true.
Proof.
  induction a as [|c a IH]; simpl; [now destruct r|].
  destruct (ascii_dec c c) as [_|N]; [exact IH | now destruct N].
Qed.

Lemma prefix_split (a s : string) : prefix a s = true -> exists r, s = a ++ r.
Proof.
  revert s; induction a as [|c a IH]; intros [|d s]; simpl;
    try discriminate; try (intros _; eexists; reflexivity).
  destruct (ascii_dec c d) as [<-|]; [|discriminate].
  intros [r ->]%IH. now exists r.
Qed.

(** Two prefixes of one string: one is a prefix of the other. *)
Lemma prefix_comparable (a b s : string) :
  prefix a s = true -> prefix b s = true -> prefix a b || prefix b a = true.
Proof.
  revert b s; induction a as [|c a IH]; intros [|e b] [|d s]; simpl;
    try discriminate; try reflexivity.
  destruct (ascii_dec c d) as [<-|]; [|discriminate]. intro Ha.
  destruct (ascii_dec e c) as [->|]; [|discriminate]. intro Hb.
  destruct (ascii_dec c c) as [_|N]; [|now destruct N].
  exact (IH _ _ Ha Hb).
Qed.

(** No white-space character is the beginning of another one. *)
Lemma spaces_prefix_free (a b : string) :
  In a spaces -> In b spaces -> prefix a b || prefix b a = true -> a = b.
Proof.
  assert (H : forallb (fun a =>
                forallb (fun b => implb (prefix a b || prefix b a) (a =? b)%string)
                        spaces) spaces = true) by (vm_compute; reflexivity).
  rewrite forallb_forall in H. intros Ha Hb Hp.
  specialize (H a Ha). rewrite forallb_forall in H. specialize (H b Hb).
  rewrite Hp in H. now apply String.eqb_eq.
Qed.

(** A white-space character takes one, two or three bytes. *)
Lemma spaces_length (sp : string) :
  In sp spaces -> 1 <= String.length sp <= 3.
Proof.
  assert (H : forallb (fun sp => (1 <=? String.length sp) && (String.length sp <=? 3))
                      spaces = true) by (vm_compute; reflexivity).
  rewrite forallb_forall in H. intros [H1 H2]%H%andb_true_iff.
  now apply Nat.leb_le in H1, H2.
Qed.

Lemma space_prefix_found (s sp : string) :
  In sp spaces -> prefix sp s = true -> space_prefix s = String.length sp.
Proof.
  intros Hi Hp. unfold space_prefix.
  destruct (find (fun sp => prefix sp s) spaces) as [sp'|] eqn:E.
  - apply find_some in E as [Hi' Hp'].
    now rewrite (spaces_prefix_free _ _ Hi' Hi (prefix_comparable _ _ _ Hp' Hp)).
  - now rewrite (find_none _ _ E _ Hi) in Hp.
Qed.

Lemma space_prefix_utf8 (cp : N) (r : string) :
  isspace cp = true -> space_prefix (utf8 cp ++ r) = String.length (utf8 cp).
Proof.
  intro H. apply space_prefix_found; [|apply prefix_append].
  apply spaces_In. now exists cp.
Qed.

Lemma space_prefix_cases (s : string) :
  (space_prefix s = 0 /\ ~ starts_with_space s)
  \/ (exists cp r, isspace cp = true /\ s = utf8 cp ++ r
                   /\ space_prefix s = String.length (utf8 cp)).
Proof.
  unfold space_prefix.
  destruct (find (fun sp => prefix sp s) spaces) as [sp|] eqn:E.
  - right. apply find_some in E as [Hi [r ->]%prefix_split].
    apply spaces_In in Hi as (cp & Hc & ->). now exists cp, r.
  - left. split; [reflexivity|]. intros (cp & r & Hc & ->).
    assert (Hi : In (utf8 cp) spaces) by (apply spaces_In; now exists cp).
    pose proof (find_none _ _ E _ Hi) as H. simpl in H.
    now rewrite prefix_append in H.
Qed.

Lemma space_prefix_zero (s : string) : space_prefix s = 0 <-> ~ starts_with_space s.
Proof.
  destruct (space_prefix_cases s) as [[E H]|(cp & r & Hc & -> & E)].
  - tauto.
  - assert (Hi : In (utf8 cp) spaces) by (apply spaces_In; now exists cp).
    pose proof (spaces_length _ Hi). split; [lia|].
    intro N. destruct N. now exists cp, r.
Qed.

(** What [lstrip] and [all_space] do with a string, by what it starts with. *)
Lemma lstrip_fixed (s : string) : space_prefix s = 0 -> lstrip s = s.
Proof. destruct s as [|c s]; [reflexivity|]. cbn [lstrip]. now intros ->. Qed.

Lemma lstrip_space (cp : N) (r : string) :
  isspace cp = true -> lstrip (utf8 cp ++ r) = lstrip r.
Proof.
  intro H. pose proof (space_prefix_utf8 cp r H) as E.
  assert (Hi : In (utf8 cp) spaces) by (apply spaces_In; now exists cp).
  pose proof (spaces_length _ Hi) as L.
  destruct (utf8 cp) as [|a [|b [|c [|d u]]]]; simpl in L; try lia;
    simpl in E |- *; cbn [lstrip]; simpl; rewrite E; reflexivity.
Qed.

Lemma all_space_space (cp : N) (r : string) :
  isspace cp = true -> all_space (utf8 cp ++ r) = all_space r.
Proof.
  intro H. pose proof (space_prefix_utf8 cp r H) as E.
  assert (Hi : In (utf8 cp) spaces) by (apply spaces_In; now exists cp).
  pose proof (spaces_length _ Hi) as L.
  destruct (utf8 cp) as [|a [|b [|c [|d u]]]]; simpl in L; try lia;
    simpl in E |- *; rewrite E; reflexivity.
Qed.

Lemma all_space_other (s : string) :
  s <> "" -> space_prefix s = 0 -> all_space s = false.
Proof. destruct s as [|c s]; [easy|]. intros _ E. cbn [all_space]. now rewrite E. Qed.

Lemma utf8_not_empty (cp : N) : isspace cp = true -> utf8 cp <> "".
Proof.
  intros H E. assert (Hi : In (utf8 cp) spaces) by (apply spaces_In; now exists cp).
  pose proof (spaces_length _ Hi) as L. rewrite E in L. simpl in L. lia.
Qed.

(** Induction on a string by the white-space character it starts with. *)
Lemma space_induction (P : string -> Prop) :
  (forall s, ~ starts_with_space s -> P s) ->
  (forall cp r, isspace cp = true -> P r -> P (utf8 cp ++ r)) ->
  forall s, P s.
Proof.
  intros Hother Hspace s.
  remember (String.length s) as n eqn:En.
  revert s En. induction n as [n IH] using lt_wf_ind. intros s En.
  destruct (space_prefix_cases s) as [[_ H]|(cp & r & Hc & -> & _)].
  - now apply Hother.
  - apply Hspace; [exact Hc|]. apply (IH (String.length r)); [|reflexivity].
    subst n. rewrite length_append.
    pose proof (utf8_not_empty cp Hc). destruct (utf8 cp); [easy | simpl; lia].
Qed.

Lemma blank_all_space (s : string) : blank s <-> all_space s = true.
Proof.
  split.
  - induction 1 as [|cp s Hc _ IH]; [reflexivity|]. now rewrite all_space_space.
  - induction s as [s Hs|cp r Hc IH] using space_induction.
    + destruct s as [|c s]; [constructor|].
      rewrite all_space_other; [discriminate | discriminate | now apply space_prefix_zero].
    + rewrite all_space_space by exact Hc. intro H. constructor; auto.
Qed.

Lemma blank_append (a b : string) : blank a -> blank b -> blank (a ++ b).
Proof.
  induction 1 as [|cp a Hc _ IH]; intro Hb; [exact Hb|].
  rewrite append_assoc. constructor; auto.
Qed.

Lemma blank_one (cp : N) : isspace cp = true -> blank (utf8 cp).
Proof. intro H. rewrite <- (append_empty_r (utf8 cp)). constructor; [exact H | constructor]. Qed.

(** A blank string that is not empty ends with a white-space character. *)
Lemma blank_ends (s : string) : blank s -> s <> "" -> ends_with_space s.
Proof.
  induction 1 as [|cp s Hc Hs IH]; [easy|]. intros _.
  destruct s as [|c s].
  - exists cp, "". now rewrite append_empty_r.
  - destruct IH as (cp' & front & Hc' & E); [discriminate|].
    exists cp', (utf8 cp ++ front). split; [exact Hc'|].
    now rewrite append_assoc, E.
Qed.

Lemma lstrip_blank (s : string) : blank s -> lstrip s = "".
Proof. induction 1 as [|cp s Hc _ IH]; [reflexivity|]. now rewrite lstrip_space. Qed.

(** [lstrip] removes a blank beginning and leaves a string that starts
    with no white space. *)
Lemma lstrip_split (s : string) :
  exists lead, s = lead ++ lstrip s /\ blank lead /\ ~ starts_with_space (lstrip s).
Proof.
  induction s as [s Hs|cp r Hc (lead & E & Hl & Hn)] using space_induction.
  - exists "". rewrite lstrip_fixed by now apply space_prefix_zero.
    repeat split; [constructor | exact Hs].
  - exists (utf8 cp ++ lead). rewrite lstrip_space by exact Hc.
    repeat split; [|now constructor | exact Hn].
    now rewrite append_assoc, <- E.
Qed.

(** [rstrip] removes a blank end. *)
Lemma rstrip_split (s : string) : exists trail, s = rstrip s ++ trail /\ blank trail.
Proof.
  induction s as [|c s (trail & E & Ht)]; [exists ""; split; [reflexivity | constructor]|].
  cbn [rstrip]. destruct (all_space (String c s)) eqn:Ea.
  - exists (String c s). split; [reflexivity | now apply blank_all_space].
  - exists trail. split; [simpl; now rewrite <- E | exact Ht].
Qed.

(** Nothing blank is left at the end of what [rstrip] keeps. *)
Lemma rstrip_tail (s a b trail : string) :
  rstrip s = a ++ b -> s = rstrip s ++ trail -> b <> "" -> blank (b ++ trail) -> False.
Proof.
  revert a; induction s as [|c s IH]; intros a; cbn [rstrip].
  - destruct a, b; simpl; try discriminate. easy.
  - destruct (all_space (String c s)) eqn:Ea.
    + destruct a, b; simpl; try discriminate. easy.
    + destruct a as [|d a]; simpl.
      * intros <- E _ Hb. cbn [append] in E, Hb. rewrite <- E in Hb.
        apply blank_all_space in Hb. congruence.
      * intros [= <- Er] [= E] Hn Hb. exact (IH a Er E Hn Hb).
Qed.

Lemma rstrip_ends (s : string) : ~ ends_with_space (rstrip s).
Proof.
  intros (cp & front & Hc & E).
  destruct (rstrip_split s) as (trail & Es & Ht).
  apply (rstrip_tail s front (utf8 cp) trail E Es (utf8_not_empty _ Hc)).
  now constructor.
Qed.

Lemma rstrip_starts (s : string) : ~ starts_with_space s -> ~ starts_with_space (rstrip s).
Proof.
  intros Hs (cp & r & Hc & E). apply Hs.
  destruct (rstrip_split s) as (trail & Es & _).
  exists cp, (r ++ trail). split; [exact Hc|].
  now rewrite Es at 1; rewrite E, append_assoc.
Qed.

Lemma rstrip_fixed (s : string) : ~ ends_with_space s -> rstrip s = s.
Proof.
  intro Hn. destruct (rstrip_split s) as (trail & E & Ht).
  destruct trail as [|c trail]; [now rewrite append_empty_r in E|].
  destruct Hn. destruct (blank_ends _ Ht) as (cp & front & Hc & Ef); [discriminate|].
  exists cp, (rstrip s ++ front). split; [exact Hc|].
  now rewrite append_assoc, <- Ef.
Qed.

Lemma rstrip_blank (s : string) : rstrip s = "" <-> blank s.
Proof.
  split.
  - intro E. destruct (rstrip_split s) as (trail & Es & Ht). rewrite E in Es.
    now subst s.
  - intro H. apply blank_all_space in H. destruct s as [|c s]; [reflexivity|].
    cbn [rstrip]. now rewrite H.
Qed.

(** Trimming leaves nothing exactly of the blank texts. *)
Lemma strip_blank_iff (s : string) : strip s = "" <-> blank s.
Proof.
  unfold strip. rewrite rstrip_blank. split.
  - intro H. destruct (lstrip_split s) as (lead & E & Hl & _).
    rewrite E. now apply blank_append.
  - intro H. rewrite (lstrip_blank _ H). constructor.
Qed.

(** What is left of any other text is the text without its blank
    beginning and its blank end. *)
Lemma strip_trims (s : string) : strip s <> "" -> trims s (strip s).
Proof.
  intro Hn. destruct (lstrip_split s) as (lead & E & Hl & Hs).
  destruct (rstrip_split (lstrip s)) as (trail & Et & Ht).
  exists lead, trail. fold (strip s) in Et.
  split; [now rewrite <- Et|]. split; [exact Hl|]. split; [exact Ht|].
  split; [exact Hn|]. split; [now apply rstrip_starts | apply rstrip_ends].
Qed.

Lemma strip_trimmed (s : string) : trimmed s -> strip s = s.
Proof.
  intros (_ & Hs & He). unfold strip.
  rewrite (lstrip_fixed s) by now apply space_prefix_zero.
  now apply rstrip_fixed.
Qed.

Lemma strip_strip (s : string) : strip (strip s) = strip s.
Proof.
  destruct (strip s) as [|c r] eqn:E; [reflexivity|]. rewrite <- E.
  assert (Hn : strip s <> "") by (rewrite E; discriminate).
  destruct (strip_trims s Hn) as (_ & _ & _ & _ & _ & Ht).
  now apply strip_trimmed.
Qed.

Lemma spaces_well_begun (cp : N) : isspace cp = true -> well_begun (utf8 cp) = true.
Proof.
  assert (H : forallb well_begun spaces = true) by (vm_compute; reflexivity).
  rewrite forallb_forall in H. intro Hc. apply H, spaces_In. now exists cp.
Qed.

Lemma append_split (a b c d : string) :
  a ++ b = c ++ d ->
  (exists m, c = a ++ m /\ b = m ++ d) \/ (exists m, a = c ++ m /\ d = m ++ b).
Proof.
  revert c; induction a as [|x a IH]; intros c E.
  - left. now exists c.
  - destruct c as [|y c].
    + right. now exists (String x a).
    + injection E as <- E. destruct (IH _ E) as [(m & -> & ->)|(m & -> & ->)].
      * left. now exists m.
      * right. now exists m.
Qed.

Lemma blank_begins (c : ascii) (r : string) :
  blank (String c r) -> is_continuation c = false.
Proof.
  inversion 1 as [|cp s Hc Hs E]. pose proof (spaces_well_begun cp Hc) as W.
  destruct (utf8 cp) as [|c0 tl]; [discriminate W|]. injection E as -> _.
  simpl in W. apply andb_true_iff in W as [W _]. now apply negb_true_iff.
Qed.

Lemma all_continuation_append (a b : string) :
  all_continuation (a ++ b) = all_continuation a && all_continuation b.
Proof. induction a as [|c a IH]; simpl; [reflexivity|]. now rewrite IH, andb_assoc. Qed.

(** A white-space character cut in two: what follows the cut cannot
    begin a blank string. *)
Lemma space_cut (cp : N) (x m rest : string) :
  isspace cp = true -> utf8 cp = x ++ m -> x <> "" -> m <> "" ->
  ~ blank (m ++ rest).
Proof.
  intros Hc E Hx Hm Hb. pose proof (spaces_well_begun cp Hc) as W.
  rewrite E in W. destruct x as [|c0 x]; [easy|]. simpl in W.
  apply andb_true_iff in W as [_ W]. rewrite all_continuation_append in W.
  apply andb_true_iff in W as [_ W].
  destruct m as [|c m]; [easy|]. simpl in W, Hb.
  apply andb_true_iff in W as [W _]. apply blank_begins in Hb. congruence.
Qed.

(** The beginning of a blank string, cut where a blank string follows,
    is blank. *)
Lemma blank_cut (y : string) :
  blank y -> forall x trail, y = x ++ trail -> blank trail -> blank x.
Proof.
  induction 1 as [|cp y Hc Hy IH]; intros x trail E Ht.
  - destruct x; [constructor | discriminate].
  - symmetry in E. apply append_split in E as [(m & E1 & E2)|(m & E1 & E2)].
    + destruct x as [|c x]; [constructor|].
      destruct m as [|d m].
      * rewrite append_empty_r in E1. rewrite <- E1. now apply blank_one.
      * exfalso. rewrite E2 in Ht.
        apply (space_cut cp (String c x) (String d m) y Hc E1); easy.
    + rewrite E1. constructor; [exact Hc|]. now apply (IH m trail).
Qed.

Lemma lstrip_lead (lead s : string) : blank lead -> lstrip (lead ++ s) = lstrip s.
Proof.
  induction 1 as [|cp lead Hc _ IH]; [reflexivity|].
  now rewrite append_assoc, lstrip_space.
Qed.

Lemma rstrip_trail (core trail : string) :
  blank trail ->
  (forall a b, core = a ++ b -> b <> "" -> ~ blank (b ++ trail)) ->
  rstrip (core ++ trail) = core.
Proof.
  intros Ht. induction core as [|c core IH]; intro H.
  - now apply rstrip_blank.
  - change (String c core ++ trail) with (String c (core ++ trail)).
    cbn [rstrip].
    destruct (all_space (String c (core ++ trail))) eqn:Ea.
    + apply blank_all_space in Ea. destruct (H "" (String c core)); easy.
    + f_equal. apply IH. intros a b E. apply (H (String c a) b). now rewrite E.
Qed.

(** What [strip] leaves is the only way to take the white space off the
    two ends of a text. *)
Lemma trims_strip (s core : string) : trims s core -> strip s = core.
Proof.
  intros (lead & trail & -> & Hl & Ht & Hn & Hs & He). unfold strip.
  rewrite (lstrip_lead _ _ Hl).
  assert (Hb : forall a b, core = a ++ b -> b <> "" -> ~ blank (b ++ trail)).
  { intros a b E Hbn Hb. apply He.
    pose proof (blank_cut _ Hb b trail eq_refl Ht) as Hbb.
    destruct (blank_ends _ Hbb Hbn) as (cp & front & Hc & Ef).
    exists cp, (a ++ front). split; [exact Hc|]. now rewrite E, Ef, append_assoc. }
  rewrite lstrip_fixed; [now apply rstrip_trail|].
  apply space_prefix_zero. intros (cp & r & Hc & E).
  apply append_split in E as [(m & E1 & E2)|(m & E1 & E2)].
  - destruct m as [|d m].
    + rewrite append_empty_r in E1. apply Hs. exists cp, "".
      now rewrite append_empty_r.
    + rewrite E2 in Ht. now apply (space_cut cp core (String d m) r Hc E1).
  - apply Hs. now exists cp, m.
Qed.

(** Two ways of taking the white space off the two ends of a text give
    the same text. *)
Lemma trims_unique (s c1 c2 : string) : trims s c1 -> trims s c2 -> c1 = c2.
Proof. intros H1%trims_strip H2%trims_strip. congruence. Qed.

(** ** The monad *)

Lemma bind_inv {A B} (m : M A) (f : A -> M B) t b :
  bind m f = (t, Returns b) ->
  exists t1 a t2, m = (t1, Returns a) /\ f a = (t2, Returns b) /\ t = (t1 ++ t2)%list.
Proof.
  destruct m as [t1 [a|e]]; simpl; [|discriminate].
  destruct (f a) as [t2 r] eqn:E. intros [= <- ->]. now exists t1, a, t2.
Qed.

Lemma try_finally_inv {A} (body : M A) (cleanup : M unit) t a :
  try_finally body cleanup = (t, Returns a) ->
  exists t1 t2, body = (t1, Returns a) /\ cleanup = (t2, Returns tt)
                /\ t = (t1 ++ t2)%list.
Proof.
  destruct body as [t1 r], cleanup as [t2 [[]|e]]; simpl; [|discriminate].
  intros [= <- ->]. now exists t1, t2.
Qed.

Lemma yields_bind {A B} (Q : B -> Prop) (m : M A) (f : A -> M B) :
  (forall a, yields Q (f a)) -> yields Q (bind m f).
Proof.
  intros H t b E. apply bind_inv in E as (t1 & a & t2 & _ & E & _).
  now apply (H a t2).
Qed.

Lemma yields_try_finally {A} (Q : A -> Prop) (body : M A) cleanup :
  yields Q body -> yields Q (try_finally body cleanup).
Proof.
  intros H t a E. apply try_finally_inv in E as (t1 & t2 & E & _).
  now apply (H t1).
Qed.

Lemma emits_ret {A} P (a : A) : emits P (ret a).
Proof. constructor. Qed.

Lemma emits_raise {A} P e : emits P (@raise A e).
Proof. constructor. Qed.

Lemma emits_one {A} (P : Event -> Prop) ev (r : Outcome A) :
  P ev -> emits P ([ev], r).
Proof. intro. repeat constructor. assumption. Qed.

Lemma emits_bind {A B} P (m : M A) (f : A -> M B) :
  emits P m -> (forall a, emits P (f a)) -> emits P (bind m f).
Proof.
  unfold emits. destruct m as [t [a|e]]; simpl; intros Hm Hf; [|assumption].
  specialize (Hf a). destruct (f a) as [t' r]. simpl in *.
  apply Forall_app. now split.
Qed.

Lemma emits_try_except {A} P (body : M A) handler :
  emits P body -> (forall e, emits P (handler e)) -> emits P (try_except body handler).
Proof.
  unfold emits, try_except. destruct body as [t [a|e]]; simpl; intros Hb Hh;
    [assumption|].
  destruct (is_Exception e); [|assumption].
  specialize (Hh e). destruct (handler e) as [t' r]. simpl in *.
  apply Forall_app. now split.
Qed.

Lemma emits_try_finally {A} P (body : M A) cleanup :
  emits P body -> emits P cleanup -> emits P (try_finally body cleanup).
Proof.
  unfold emits, try_finally. destruct body as [t r], cleanup as [t' [u|e]];
    simpl; intros; apply Forall_app; now split.
Qed.

(** ** The ordered content extractor *)

Lemma filter_subseq {A} (f : A -> bool) (l : list A) : subseq (filter f l) l.
Proof.
  induction l as [|x l IH]; simpl; [constructor|].
  destruct (f x); now constructor.
Qed.

(** An element is dropped exactly when its inner text is white space
    only. *)
Lemma has_text_false (el : Elem) : has_text el = false <-> blank (innerText el).
Proof.
  rewrite <- strip_blank_iff. unfold has_text.
  destruct (strip (innerText el)); simpl; split; congruence.
Qed.

(** The text of a kept element is its inner text without the white space
    at its two ends. *)
Lemma has_text_trims (el : Elem) :
  has_text el = true -> trims (innerText el) (text (item_of el)).
Proof.
  unfold has_text. intro H. apply strip_trims. simpl.
  now destruct (strip (innerText el)).
Qed.

Lemma count_text_filter (elements : list Elem) :
  count_text elements = length (filter has_text elements).
Proof.
  induction elements as [|el rest IH]; simpl; [reflexivity|].
  rewrite IH. now destruct (has_text el).
Qed.

Lemma count_text_le (elements : list Elem) : count_text elements <= length elements.
Proof.
  induction elements as [|el rest IH]; simpl; [lia|].
  destruct (has_text el); lia.
Qed.

(** Over readable elements the loop returns, in order, the items of the
    elements that have text, appended to what was collected before. *)
Lemma collect_readable (elements : list Elem) :
  Forall readable elements ->
  forall acc,
    collect elements acc
    = (reads elements, Returns (acc ++ map item_of (filter has_text elements))%list).
Proof.
  induction 1 as [|el rest [He Ht] _ IH]; intro acc; simpl.
  - now rewrite app_nil_r.
  - rewrite He, Ht. simpl. rewrite IH. unfold has_text.
    destruct (truthy (strip (innerText el))); simpl.
    + now rewrite <- app_assoc.
    + reflexivity.
Qed.

(** Whenever the loop returns, it returns exactly those items. *)
Lemma collect_returns (elements : list Elem) :
  forall acc t items,
    collect elements acc = (t, Returns items) ->
    items = (acc ++ map item_of (filter has_text elements))%list.
Proof.
  induction elements as [|el rest IH]; intros acc t items; simpl.
  - intros [= _ <-]. now rewrite app_nil_r.
  - destruct (evaluate_fails el); simpl; [discriminate|].
    destruct (inner_text_fails el); simpl; [discriminate|].
    destruct (collect rest _) as [t' r] eqn:E. intros [= _ ->].
    apply IH in E. subst items. unfold has_text.
    destruct (truthy (strip (innerText el))); simpl.
    + now rewrite <- app_assoc.
    + reflexivity.
Qed.

Lemma kept_items_have_text (elements : list Elem) :
  Forall (fun it => truthy (text it) = true) (map item_of (filter has_text elements)).
Proof.
  apply Forall_map, Forall_forall. intros el [_ H]%filter_In. exact H.
Qed.

Lemma kept_items_trimmed (elements : list Elem) :
  Forall2 (fun it el => trims (innerText el) (text it))
          (map item_of (filter has_text elements)) (filter has_text elements).
Proof.
  assert (H : Forall (fun el => has_text el = true) (filter has_text elements))
    by (apply Forall_forall; now intros el [_ H]%filter_In).
  induction H as [|el kept Hel _ IH]; simpl; constructor;
    [now apply has_text_trims | exact IH].
Qed.

Lemma kept_items_only_trimmed (elements : list Elem) :
  Forall2 (fun it el => forall core, trims (innerText el) core -> core = text it)
          (map item_of (filter has_text elements)) (filter has_text elements).
Proof.
  induction (filter has_text elements) as [|el kept IH]; simpl; constructor;
    [|exact IH].
  intros core H. symmetry. now apply trims_strip.
Qed.

(** C2. For a container whose query for the tags p, h2, h3, h4, ul, ol,
    pre, code answers N elements, whose tag names and inner texts can all
    be read, and of which M have an inner text that is not white space
    only, the extractor returns exactly M items: the items of these M
    elements, in the order of the elements, each with the inner text of
    its element without the white space at its two ends; an element
    whose inner text is empty or white space only gives no item; no
    element at all gives the empty sequence, not an error. *)
Theorem extract_keeps_text_in_order (w : Scrape) (elements : list Elem) :
  all_children w = Gives elements ->
  Forall readable elements ->
  exists items,
    extract w = ((QuerySelectorAll tag_selector :: reads elements)%list, Returns items)
    /\ items = map item_of (filter has_text elements)
    /\ subseq (filter has_text elements) elements
    /\ length items = count_text elements
    /\ count_text elements <= length elements
    /\ Forall (fun el => has_text el = false <-> blank (innerText el)) elements
    /\ Forall2 (fun it el => trims (innerText el) (text it))
               items (filter has_text elements)
    /\ Forall2 (fun it el => forall core, trims (innerText el) core -> core = text it)
               items (filter has_text elements)
    /\ Forall (fun it => truthy (text it) = true) items
    /\ (elements = [] -> items = []).
Proof.
  intros Hq Hr. exists (map item_of (filter has_text elements)).
  repeat split.
  - unfold extract. rewrite Hq. simpl. now rewrite (collect_readable _ Hr).
  - apply filter_subseq.
  - now rewrite length_map, count_text_filter.
  - apply count_text_le.
  - apply Forall_forall. intros el _. apply has_text_false.
  - apply kept_items_trimmed.
  - apply kept_items_only_trimmed.
  - apply kept_items_have_text.
  - now intros ->.
Qed.



(** *** Tag names *)

Lemma lower_byte_not_upper (prev c : ascii) : is_upper_letter (lower_byte prev c) = false.
Proof.
  unfold lower_byte. destruct (code prev =? 195);
    destruct c as [[] [] [] [] [] [] [] []]; reflexivity.
Qed.

Lemma lower_code_cases (after_c3 : bool) (n : nat) :
  let capital := 65 <= n <= 90 \/ (Is_true after_c3 /\ 128 <= n <= 158 /\ n <> 151) in
  (capital /\ lower_code after_c3 n = n + 32)
  \/ (~ capital /\ lower_code after_c3 n = n).
Proof.
  unfold lower_code.
  destruct (_ || _) eqn:E; [left | right]; split; try reflexivity.
  - rewrite orb_true_iff, !andb_true_iff, negb_true_iff, !Nat.leb_le, Nat.eqb_neq in E.
    destruct after_c3; simpl; intuition (try discriminate; lia).
  - rewrite orb_false_iff, !andb_false_iff, negb_false_iff, !Nat.leb_gt, Nat.eqb_eq in E.
    destruct after_c3; simpl; intuition (try discriminate; lia).
Qed.

(** Two bytes that are the same letter are treated alike, and neither is
    the first byte of a two-byte character unless both are. *)
Lemma lower_byte_same_letter (p q c d : ascii) :
  (code p =? 195) = (code q =? 195) ->
  same_letter c d = true ->
  lower_byte p c = lower_byte q d /\ (code c =? 195) = (code d =? 195).
Proof.
  unfold lower_byte, same_letter, is_upper_letter. intros <-.
  generalize (code p =? 195) (code c) (code d). intros f n m H.
  rewrite !orb_true_iff, !andb_true_iff, !Nat.eqb_eq, !Nat.leb_le in H.
  split.
  - f_equal.
    destruct (lower_code_cases f n) as [[Hn ->]|[Hn ->]],
             (lower_code_cases f m) as [[Hm ->]|[Hm ->]];
      destruct f; simpl in Hn, Hm; lia.
  - destruct (Nat.eqb_spec n 195), (Nat.eqb_spec m 195); try reflexivity; lia.
Qed.

Lemma map_lower_same_name (a b : string) :
  same_name a b = true ->
  forall p q, (code p =? 195) = (code q =? 195) ->
    map_bytes lower_byte p a = map_bytes lower_byte q b.
Proof.
  revert b; induction a as [|c a IH]; intros [|d b]; simpl;
    try discriminate; [reflexivity|].
  intros [Hc Hr]%andb_true_iff p q Hp.
  destruct (lower_byte_same_letter p q c d Hp Hc) as [-> Hn].
  now rewrite (IH _ Hr c d Hn).
Qed.

Lemma toLowerCase_same_name (a b : string) :
  same_name a b = true -> toLowerCase a = toLowerCase b.
Proof. intro H. now apply map_lower_same_name. Qed.

Lemma map_lower_no_upper (s : string) (p : ascii) :
  no_upper_letter (map_bytes lower_byte p s) = true.
Proof.
  revert p; induction s as [|c s IH]; intro p; simpl; [reflexivity|].
  now rewrite lower_byte_not_upper, IH.
Qed.

Lemma toLowerCase_no_upper (s : string) : no_upper_letter (toLowerCase s) = true.
Proof. apply map_lower_no_upper. Qed.

Lemma collect_tags (elements : list Elem) t items :
  collect elements [] = (t, Returns items) ->
  Forall2 (fun it el => tag it = toLowerCase (tagName el))
          items (filter has_text elements).
Proof.
  intros ->%collect_returns. simpl.
  induction (filter has_text elements); simpl; constructor; auto.
Qed.

(** C8. Whenever the extractor returns, its items stand for the elements
    with text, one for one and in order, and the tag of each item is the
    tag name of its element in lower case: it holds no capital letter,
    and two spellings of a name that differ in case only give the same
    tag; [P] and [p] both give [p]. *)
Theorem tag_is_lower_case (w : Scrape) (elements : list Elem) (t : Trace)
  (items : list ExtractedItem) :
  all_children w = Gives elements ->
  extract w = (t, Returns items) ->
  Forall2 (fun it el => tag it = toLowerCase (tagName el))
          items (filter has_text elements)
  /\ Forall (fun it => no_upper_letter (tag it) = true) items
  /\ (forall a b, same_name a b = true -> toLowerCase a = toLowerCase b)
  /\ toLowerCase "P" = "p" /\ toLowerCase "p" = "p".
Proof.
  intros Hq H. unfold extract in H. rewrite Hq in H.
  apply bind_inv in H as (? & els & ? & [= _ <-] & H & _).
  repeat split.
  - exact (collect_tags _ _ _ H).
  - apply collect_returns in H. subst items. simpl.
    apply Forall_map, Forall_forall. intros el _. apply toLowerCase_no_upper.
  - exact toLowerCase_same_name.
Qed.

(** ** The synthesis sink *)

(** C7. One call of the sink prints the text and hands all of it, as it
    is and whatever its length, to the model in a single invocation with
    sentence splitting off; the sink raises nothing of its own, so the
    outcome is the model's. *)
Theorem whole_text_in_one_call (w : World) (txt output_file : string) :
  fst (generate_audio_file w txt output_file)
  = [Print (join " " ["Content to be converted to audio: "; txt; LF ++ LF ++ LF]);
     TtsToFile txt output_file false]
  /\ count_tts (fst (generate_audio_file w txt output_file)) = 1
  /\ snd (generate_audio_file w txt output_file)
     = match tts_to_file w txt output_file with
       | None => Returns tt
       | Some msg => Raises (ModelError msg)
       end.
Proof. repeat split. Qed.

(** ** The optional click *)

Lemma click_step_returns (w : Scrape) (wait_time : Z) (click_selector : option string) :
  snd (click_step w wait_time click_selector) = Returns tt.
Proof.
  unfold click_step. destruct click_selector as [sel|]; [|reflexivity].
  destruct (truthy sel); [|reflexivity].
  destruct (click_wait w) as [[]|e]; [|reflexivity].
  destruct (click_query w) as [[|]|e]; try reflexivity.
  destruct (click_click w) as [[]|e]; [|reflexivity].
  destruct (click_settle w) as [[]|e]; reflexivity.
Qed.

(** A step that returns hands over to what follows it. *)
Lemma bind_after_return {B} (m : M unit) (k : M B) :
  snd m = Returns tt -> (m ;; k) = ((fst m ++ fst k)%list, snd k).
Proof. destruct m as [t r]. simpl. intros ->. now destruct k. Qed.

(** C6. With a click selector, the step waits up to [wait_time] for the
    element; found, it is clicked and a pause of 2000 ms follows; when the
    wait times out or the element is absent a warning is logged. Whatever
    the browser answers, the step returns, and the rest of the pipeline
    runs after it. *)
Theorem click_step_never_aborts (w : Scrape) (wait_time : Z) (sel : string) :
  truthy sel = true ->
  let step := click_step w wait_time (Some sel) in
  snd step = Returns tt
  /\ (forall B (rest : M B), (step ;; rest) = ((fst step ++ fst rest)%list, snd rest))
  /\ exists t,
       fst step
       = Print ("Clicking element: " ++ sel) :: WaitForSelector page sel wait_time :: t
       /\ (forall e, click_wait w = Fails e ->
             t = [Print ("Warning: Could not click element: " ++ lib_msg e)])
       /\ (click_wait w = Gives tt -> click_query w = Gives false ->
             t = [QuerySelector page sel; Print "Warning: Click element not found"])
       /\ (click_wait w = Gives tt -> click_query w = Gives true ->
           click_click w = Gives tt ->
           exists t',
             t = ([QuerySelector page sel; Click;
                   Print (check_mark ++ " Element clicked successfully");
                   WaitForTimeout page 2000%Z] ++ t')%list
             /\ (click_settle w = Gives tt -> t' = [])).
Proof.
  intros Hs step.
  split; [apply click_step_returns|].
  split; [intros; apply bind_after_return, click_step_returns|].
  unfold step, click_step. rewrite Hs.
  destruct (click_wait w) as [[]|e] eqn:Ew.
  - destruct (click_query w) as [[|]|e] eqn:Eq.
    + destruct (click_click w) as [[]|e] eqn:Ec.
      * destruct (click_settle w) as [[]|e] eqn:Es;
          eexists; (split; [reflexivity|]);
          (split; [|split]); intros; try discriminate;
          eexists; (split; [reflexivity|]); intros; try discriminate; reflexivity.
      * eexists; (split; [reflexivity|]);
          repeat split; intros; try discriminate; reflexivity.
    + eexists; (split; [reflexivity|]);
        repeat split; intros; try discriminate; reflexivity.
    + eexists; (split; [reflexivity|]);
        repeat split; intros; try discriminate; reflexivity.
  - eexists; (split; [reflexivity|]).
    repeat split; intros; try discriminate.
    match goal with H : Fails _ = Fails _ |- _ => injection H as <- end.
    reflexivity.
Qed.

(** ** The navigation sequencer *)

Lemma snd_bind_returns {A B} (m : M A) (f : A -> M B) a :
  snd m = Returns a -> snd (bind m f) = snd (f a).
Proof. destruct m as [t r]. simpl. intros ->. now destruct (f a). Qed.

Lemma snd_bind_raises {A B} (m : M A) (f : A -> M B) e :
  snd m = Raises e -> snd (bind m f) = Raises e.
Proof. destruct m as [t r]. simpl. now intros ->. Qed.

Lemma snd_try_finally {A} (body : M A) (cleanup : M unit) :
  snd (try_finally body cleanup)
  = match snd cleanup with
    | Returns _ => snd body
    | Raises e => Raises e
    end.
Proof. destruct body as [t r], cleanup as [t' [u|e]]; reflexivity. Qed.

Lemma first_page_attached (s : Session) (cdp_url : string) :
  attached s -> snd (first_page s cdp_url) = Returns tt.
Proof.
  intros (_ & Hc & pages & rest & Hx & Hp). unfold first_page. rewrite Hc, Hx.
  destruct pages as [|n]; [|reflexivity]. simpl. now rewrite Hp.
Qed.

(** Once the link resolution is reached, the run ends as the steps after
    the click end, unless closing the connection fails. *)
Lemma outcome_navigate (w : Scrape) initial_url content_selector cdp_url wait_time
  click_selector :
  reaches_link w ->
  snd (navigate_and_extract_content w initial_url content_selector cdp_url
         wait_time click_selector)
  = match close w with
    | Gives _ => snd (after_click w initial_url content_selector wait_time)
    | Fails e => Raises (PlaywrightError e)
    end.
Proof.
  intros (Ha & Hg & Hs). unfold navigate_and_extract_content, with_playwright.
  pose proof (first_page_attached _ cdp_url Ha) as Hf.
  destruct Ha as (He & _). rewrite He, Hg, Hs.
  rewrite (snd_bind_returns _ _ tt) by reflexivity.
  rewrite snd_try_finally. simpl snd at 1. cbv iota.
  rewrite (snd_bind_returns _ _ tt) by exact Hf.
  rewrite snd_try_finally.
  rewrite (snd_bind_returns _ _ tt) by reflexivity.
  rewrite (snd_bind_returns _ _ tt) by reflexivity.
  rewrite (snd_bind_returns _ _ tt) by reflexivity.
  rewrite (snd_bind_returns _ _ tt) by apply click_step_returns.
  destruct (close w) as [[]|e]; reflexivity.
Qed.

Lemma fst_bind_raises {A B} (m : M A) (f : A -> M B) e :
  snd m = Raises e -> fst (bind m f) = fst m.
Proof. destruct m as [t r]. simpl. now intros ->. Qed.

Ltac emits_step :=
  cbv zeta;
  match goal with
  | |- emits _ (bind _ _) => apply emits_bind; [|intro]
  | |- emits _ (try_except _ _) => apply emits_try_except; [|intro]
  | |- emits _ (try_finally _ _) => apply emits_try_finally
  | |- emits _ (ret _) => apply emits_ret
  | |- emits _ (raise _) => apply emits_raise
  | |- emits _ (exit _) => apply emits_raise
  | |- emits _ (print _) => apply emits_one
  | |- emits _ (print_args _) => apply emits_one
  | |- emits _ (call _ _) => apply emits_one
  | |- emits _ (cons _ nil, _) => apply emits_one
  | |- emits _ (if ?b then _ else _) => destruct b
  | |- emits _ (match ?x with _ => _ end) => destruct x
  end.

Ltac emits_all := repeat emits_step; try reflexivity.

Lemma emits_bind_raising {A B} P (m : M A) (f : A -> M B) e :
  snd m = Raises e -> emits P m -> emits P (bind m f).
Proof. unfold emits. intros H. now rewrite (fst_bind_raises _ _ _ H). Qed.

Section Emits.
Variable P : Event -> Prop.
Hypothesis P_plain :
  forall ev, is_goto ev = false -> is_tts ev = false -> is_extraction ev = false -> P ev.

Lemma emits_first_page (s : Session) cdp_url : emits P (first_page s cdp_url).
Proof. unfold first_page. emits_all; now apply P_plain. Qed.

Lemma emits_click_step (w : Scrape) wait_time click_selector :
  emits P (click_step w wait_time click_selector).
Proof. unfold click_step. emits_all; now apply P_plain. Qed.

Lemma emits_resolve_link (w : Scrape) : emits P (resolve_link w).
Proof. unfold resolve_link. emits_all; now apply P_plain. Qed.

Lemma emits_open_target (w : Scrape) href wait_time :
  P (Goto new_page href "domcontentloaded" (Some 60000%Z)) ->
  emits P (open_target w href wait_time).
Proof. intro. unfold open_target. emits_all; try assumption; now apply P_plain. Qed.

Lemma emits_locate_container (w : Scrape) content_selector wait_time :
  emits P (locate_container w content_selector wait_time).
Proof. unfold locate_container. emits_all; now apply P_plain. Qed.

Lemma emits_print_items (items : list ExtractedItem) : emits P (print_items items).
Proof.
  induction items as [|it rest IH]; cbn [print_items]; emits_all;
    try (now apply P_plain).
  exact IH.
Qed.

Lemma emits_collect (elements : list Elem) :
  (forall ev, is_extraction ev = true -> P ev) ->
  forall acc, emits P (collect elements acc).
Proof.
  intro Hx. induction elements as [|el rest IH]; intro acc; cbn [collect];
    emits_all; try (now apply Hx).
  apply IH.
Qed.

Lemma emits_test_cdp_connection (w : Probe) cdp_url :
  P (Goto page "https://example.com" "networkidle" None) ->
  emits P (test_cdp_connection w cdp_url).
Proof.
  intro. unfold test_cdp_connection, with_playwright.
  emits_all; try assumption; try apply emits_first_page; now apply P_plain.
Qed.

Lemma emits_navigate (w : Scrape) initial_url content_selector cdp_url wait_time
  click_selector :
  P (Goto page initial_url "domcontentloaded" (Some 60000%Z)) ->
  (forall href, P (Goto new_page href "domcontentloaded" (Some 60000%Z))) ->
  (forall ev, is_extraction ev = true -> P ev) ->
  emits P (navigate_and_extract_content w initial_url content_selector cdp_url
             wait_time click_selector).
Proof.
  intros Hg Hn Hx.
  unfold navigate_and_extract_content, with_playwright, extract, assemble.
  emits_all;
    first [ assumption
          | apply emits_first_page
          | apply emits_click_step
          | apply emits_resolve_link
          | now apply emits_open_target
          | apply emits_locate_container
          | apply emits_print_items
          | now apply emits_collect
          | now apply Hx
          | now apply P_plain ].
Qed.
End Emits.

(** The sequencer never invokes the speech model. *)
Lemma navigate_no_tts (w : Scrape) initial_url content_selector cdp_url wait_time
  click_selector :
  emits (fun ev => no_tts ev = true)
    (navigate_and_extract_content w initial_url content_selector cdp_url wait_time
       click_selector).
Proof.
  apply emits_navigate; try reflexivity.
  - intros ev _ H _. unfold no_tts. now rewrite H.
  - intros [] H; try discriminate H; reflexivity.
Qed.

Lemma count_tts_app (a b : Trace) :
  count_tts (a ++ b)%list = count_tts a + count_tts b.
Proof. unfold count_tts. now rewrite filter_app, length_app. Qed.

Lemma count_tts_none (t : Trace) :
  Forall (fun ev => no_tts ev = true) t -> count_tts t = 0.
Proof.
  induction 1 as [|ev t H _ IH]; [reflexivity|].
  unfold count_tts, no_tts in *. simpl. destruct (is_tts ev); [discriminate|].
  exact IH.
Qed.

(** ** The connection test *)

Lemma test_cdp_connection_returns (w : Probe) (cdp_url : string) :
  exists ok, snd (test_cdp_connection w cdp_url) = Returns ok.
Proof.
  unfold test_cdp_connection, with_playwright, first_page.
  destruct (enter (probe_session w)) as [[]|e]; [|now exists false].
  destruct (connect_over_cdp (probe_session w)) as [[]|e]; [|now exists false].
  destruct (contexts (probe_session w)) as [|pages rest]; [now exists false|].
  destruct pages as [|n].
  - destruct (context_new_page (probe_session w)) as [[]|e]; [|now exists false].
    destruct (probe_goto w) as [[]|e]; [|now exists false].
    destruct (probe_title w) as [t|e]; [|now exists false].
    destruct (probe_close w) as [[]|e]; [now exists true | now exists false].
  - destruct (probe_goto w) as [[]|e]; [|now exists false].
    destruct (probe_title w) as [t|e]; [|now exists false].
    destruct (probe_close w) as [[]|e]; [now exists true | now exists false].
Qed.

(** ** What the sequencer can raise *)

Lemma throws_ret {A} P (a : A) : throws P (ret a).
Proof. intros t e [=]. Qed.

Lemma throws_returning {A} P t0 (a : A) : throws P (t0, Returns a).
Proof. intros t e [=]. Qed.

Lemma throws_raise {A} (P : Exn -> Prop) e : P e -> throws P (@raise A e).
Proof. intros H t e' [= _ <-]. exact H. Qed.

Lemma throws_call {A} (P : Exn -> Prop) ev (ans : Answer A) :
  (forall le, P (PlaywrightError le)) -> throws P (call ev ans).
Proof. intros H t e. destruct ans; intros [= _ <-]. apply H. Qed.

Lemma throws_bind {A B} P (m : M A) (f : A -> M B) :
  throws P m -> (forall a, throws P (f a)) -> throws P (bind m f).
Proof.
  intros Hm Hf t e. destruct m as [t1 [a|e1]]; simpl.
  - destruct (f a) as [t2 r] eqn:E. intros [= _ ->]. now apply (Hf a t2).
  - intros [= _ <-]. now apply (Hm t1).
Qed.

Lemma throws_try_except {A} P (body : M A) handler :
  throws P body -> (forall e, throws P (handler e)) -> throws P (try_except body handler).
Proof.
  intros Hb Hh t e. unfold try_except. destruct body as [t1 [a|e1]]; [intros [=]|].
  destruct (is_Exception e1).
  - destruct (handler e1) as [t2 r] eqn:E. intros [= _ ->]. now apply (Hh e1 t2).
  - intros [= _ <-]. now apply (Hb t1).
Qed.

Lemma throws_try_finally {A} P (body : M A) cleanup :
  throws P body -> throws P cleanup -> throws P (try_finally body cleanup).
Proof.
  intros Hb Hc t e. unfold try_finally.
  destruct body as [t1 r], cleanup as [t2 [u|e2]]; intros [= _ ->].
  - now apply (Hb t1).
  - now apply (Hc t2).
Qed.

Ltac throws_step :=
  cbv zeta;
  match goal with
  | |- throws _ (bind _ _) => apply throws_bind; [|intro]
  | |- throws _ (try_except _ _) => apply throws_try_except; [|intro]
  | |- throws _ (try_finally _ _) => apply throws_try_finally
  | |- throws _ (ret _) => apply throws_ret
  | |- throws _ (print _) => apply throws_returning
  | |- throws _ (print_args _) => apply throws_returning
  | |- throws _ (_, Returns _) => apply throws_returning
  | |- throws _ (raise _) => apply throws_raise
  | |- throws _ (call _ _) => apply throws_call
  | |- throws _ (if ?b then _ else _) => destruct b
  | |- throws _ (match ?x with _ => _ end) => destruct x
  end.

Ltac throws_all := repeat throws_step.

Lemma throws_print_items P (items : list ExtractedItem) : throws P (print_items items).
Proof.
  induction items as [|it rest IH]; cbn [print_items]; throws_all. exact IH.
Qed.

Lemma throws_collect (P : Exn -> Prop) (elements : list Elem) :
  (forall le, P (PlaywrightError le)) ->
  forall acc, throws P (collect elements acc).
Proof.
  intro H. induction elements as [|el rest IH]; intro acc; cbn [collect];
    throws_all; try exact H.
  apply IH.
Qed.

(** Steps 5 and after raise library errors only. *)
Lemma after_container_throws (w : Scrape) initial_url href :
  throws is_library_error (after_container w initial_url href).
Proof.
  assert (H : forall le, is_library_error (PlaywrightError le)) by (now eexists).
  unfold after_container, extract, assemble. throws_all; try exact H.
  - now apply throws_collect.
  - apply throws_print_items.
Qed.

(** Whatever the sequencer raises is an [Exception]. *)
Lemma navigate_throws_exception (w : Scrape) initial_url content_selector cdp_url
  wait_time click_selector :
  throws (fun e => is_Exception e = true)
    (navigate_and_extract_content w initial_url content_selector cdp_url wait_time
       click_selector).
Proof.
  unfold navigate_and_extract_content, with_playwright, first_page, click_step,
    resolve_link, open_target, locate_container, extract, assemble.
  throws_all; try reflexivity; try (intro; reflexivity).
  - now apply throws_collect.
  - apply throws_print_items.
Qed.

(** ** The [__main__] block *)

Lemma main_test_fails (w : World) tp :
  connection_test w = (tp, Returns false) ->
  main w = ((banner ++ tp ++ instructions)%list, Raises (SystemExit 1%Z)).
Proof.
  unfold connection_test, main. intros ->. reflexivity.
Qed.

Lemma main_pipeline_raises (w : World) tp tn e :
  connection_test w = (tp, Returns true) ->
  pipeline w = (tn, Raises e) ->
  main w = ((banner ++ tp ++ heading ++ tn ++ failure_report e)%list,
            Raises (SystemExit 1%Z)).
Proof.
  intros Ht Hp.
  assert (He : is_Exception e = true)
    by (exact (navigate_throws_exception _ _ _ _ _ _ _ _ Hp)).
  unfold connection_test, pipeline in *. unfold main. rewrite Ht.
  cbv zeta. rewrite Hp. cbn [bind negb try_except]. rewrite He. reflexivity.
Qed.

Lemma main_pipeline_returns (w : World) tp tn result :
  connection_test w = (tp, Returns true) ->
  pipeline w = (tn, Returns result) ->
  main w
  = match tts_to_file w (speech_text (content result)) "content.wav" with
    | None =>
        ((banner ++ tp ++ heading ++ tn ++ success_line result
            :: fst (generate_audio_file w (speech_text (content result)) "content.wav"))%list,
         Returns tt)
    | Some msg =>
        ((banner ++ tp ++ heading ++ tn ++ success_line result
            :: fst (generate_audio_file w (speech_text (content result)) "content.wav")
            ++ failure_report (ModelError msg))%list,
         Raises (SystemExit 1%Z))
    end.
Proof.
  intros Ht Hp. unfold connection_test, pipeline in *. unfold main. rewrite Ht.
  cbv zeta. rewrite Hp. unfold generate_audio_file.
  cbn [bind negb print print_args ret fst snd app].
  destruct (tts_to_file w _ _) as [msg|];
    cbn [bind negb try_except print ret exit raise fst snd is_Exception app];
    [|reflexivity].
  rewrite <- app_assoc. reflexivity.
Qed.

(** ** Link resolution *)

Lemma resolve_link_missing (w : Scrape) :
  no_link w ->
  snd (resolve_link w)
  = match diag_title w with
    | Fails e => Raises (PlaywrightError e)
    | Gives _ =>
        match diag_marked w with
        | Fails e => Raises (PlaywrightError e)
        | Gives _ => Raises (PlainException link_error)
        end
    end.
Proof.
  intros (dom & Hd & Hf). unfold resolve_link. rewrite Hd.
  destruct dom as [|[|[|c h] l] d]; try discriminate Hf;
    destruct (diag_title w) as [t|e]; try reflexivity;
    destruct (diag_marked w) as [d'|e]; reflexivity.
Qed.

Lemma resolve_link_found (w : Scrape) (href : string) :
  link_found w href -> snd (resolve_link w) = Returns href.
Proof.
  intros (dom & Hd & Hf & Ht). unfold resolve_link. rewrite Hd.
  destruct dom as [|[|h l] d]; try discriminate Hf.
  injection Hf as ->. destruct href; [discriminate Ht | reflexivity].
Qed.

Lemma resolve_link_raises (w : Scrape) :
  no_link w -> exists e, snd (resolve_link w) = Raises e.
Proof.
  intro H. rewrite (resolve_link_missing _ H).
  destruct (diag_title w); [destruct (diag_marked w)|]; eauto.
Qed.

Lemma prefix_refl (s : string) : prefix s s = true.
Proof. induction s as [|c s IH]; simpl; [reflexivity|]. now destruct (ascii_dec c c). Qed.

Lemma contains_append (needle a b : string) :
  contains needle b = true -> contains needle (a ++ b) = true.
Proof.
  intro H. induction a as [|c a IH]; simpl; [exact H|].
  rewrite IH. apply orb_true_r.
Qed.

Lemma contains_suffix (a s : string) : contains s (a ++ s) = true.
Proof.
  apply contains_append. destruct s; simpl; [reflexivity|].
  destruct (ascii_dec a0 a0); [|congruence]. now rewrite prefix_refl.
Qed.

(** ** The content container *)

Lemma locate_container_outcome (w : Scrape) content_selector wait_time :
  snd (locate_container w content_selector wait_time)
  = match container_query w with
    | Fails e => Raises (PlaywrightError e)
    | Gives true => Returns tt
    | Gives false =>
        match missing_title w with
        | Fails e => Raises (PlaywrightError e)
        | Gives _ => Raises (PlainException (container_error content_selector))
        end
    end.
Proof.
  unfold locate_container.
  destruct (container_wait w) as [[]|ew];
    destruct (container_query w) as [[|]|eq]; try reflexivity;
    destruct (missing_title w) as [t|et]; reflexivity.
Qed.

Lemma locate_container_trace (w : Scrape) content_selector wait_time :
  exists rest,
    fst (locate_container w content_selector wait_time)
    = (Print ("Extracting content from selector: " ++ content_selector)
         :: WaitForSelector new_page content_selector wait_time
         :: wait_warning w wait_time
         ++ QuerySelector new_page content_selector :: rest)%list.
Proof.
  unfold locate_container, wait_warning.
  destruct (container_wait w) as [[]|ew];
    destruct (container_query w) as [[|]|eq]; try (eexists; reflexivity);
    destruct (missing_title w) as [t|et]; eexists; reflexivity.
Qed.

Lemma after_click_found (w : Scrape) initial_url content_selector wait_time href :
  link_found w href ->
  open_tab w = Gives tt -> goto_target w = Gives tt -> settle_target w = Gives tt ->
  snd (after_click w initial_url content_selector wait_time)
  = snd (locate_container w content_selector wait_time ;;
         after_container w initial_url href).
Proof.
  intros Hl Ho Hg Hs. unfold after_click.
  rewrite (snd_bind_returns _ _ href) by now apply resolve_link_found.
  unfold open_target. rewrite Ho, Hg, Hs.
  now rewrite (snd_bind_returns _ _ tt) by reflexivity.
Qed.

(** ** Where a run has got to, read off its trace *)

Lemma in_fst_bind {A B} ev (m : M A) (f : A -> M B) :
  In ev (fst (bind m f)) ->
  In ev (fst m) \/ exists a, snd m = Returns a /\ In ev (fst (f a)).
Proof.
  destruct m as [t [a|e]]; simpl; [|now left].
  destruct (f a) as [t' r] eqn:E. simpl. intros [H|H]%in_app_or; [now left|].
  right. exists a. rewrite E. now split.
Qed.

Lemma in_fst_try_finally {A} ev (body : M A) (cleanup : M unit) :
  In ev (fst (try_finally body cleanup)) -> In ev (fst body) \/ In ev (fst cleanup).
Proof.
  destruct body as [t r], cleanup as [t' [u|e]]; simpl; apply in_app_or.
Qed.

Lemma call_returns {A} ev (ans : Answer A) a :
  snd (call ev ans) = Returns a -> ans = Gives a.
Proof. destruct ans; simpl; congruence. Qed.

Lemma first_page_events (s : Session) cdp_url ev :
  In ev (fst (first_page s cdp_url)) -> ev = ConnectOverCdp cdp_url \/ ev = ContextNewPage.
Proof.
  unfold first_page.
  destruct (connect_over_cdp s) as [[]|e]; [|simpl; intuition].
  destruct (contexts s) as [|[|n] rest]; simpl; intuition.
Qed.

Lemma first_page_returns (s : Session) cdp_url u :
  snd (first_page s cdp_url) = Returns u ->
  connect_over_cdp s = Gives tt
  /\ exists pages rest, contexts s = pages :: rest
       /\ (pages = 0 -> context_new_page s = Gives tt).
Proof.
  unfold first_page.
  destruct (connect_over_cdp s) as [[]|e]; [|discriminate].
  destruct (contexts s) as [|[|n] rest]; [discriminate| |].
  - destruct (context_new_page s) as [[]|e]; [|discriminate].
    intros _. split; [reflexivity|]. now exists 0, rest.
  - intros _. split; [reflexivity|]. exists (S n), rest. split; [reflexivity|].
    discriminate.
Qed.

(** An action that is not of the prelude occurs in a run only once the
    link resolution is reached, and then in the steps from the click on. *)
Lemma navigate_trace_inv (w : Scrape) initial_url content_selector cdp_url wait_time
  click_selector ev :
  In ev (fst (navigate_and_extract_content w initial_url content_selector cdp_url
                wait_time click_selector)) ->
  is_prelude ev = false ->
  reaches_link w
  /\ In ev (fst (click_step w wait_time click_selector ;;
                 after_click w initial_url content_selector wait_time)).
Proof.
  intros H Hq.
  assert (Hone : forall ev', is_prelude ev' = true -> In ev [ev'] -> False)
    by (intros ev' H' [<-|[]]; congruence).
  unfold navigate_and_extract_content, with_playwright in H.
  apply in_fst_bind in H as [H | ([] & Hen%call_returns & H)];
    [now apply Hone in H|].
  apply in_fst_try_finally in H as [H|H]; [|now apply Hone in H].
  apply in_fst_bind in H as [H | ([] & Hf & H)];
    [apply first_page_events in H as [-> | ->]; discriminate Hq|].
  apply first_page_returns in Hf as (Hco & Hpg).
  apply in_fst_try_finally in H as [H|H]; [|now apply Hone in H].
  apply in_fst_bind in H as [H | ([] & _ & H)]; [now apply Hone in H|].
  apply in_fst_bind in H as [H | ([] & Hgo%call_returns & H)]; [now apply Hone in H|].
  apply in_fst_bind in H as [H | ([] & Hse%call_returns & H)]; [now apply Hone in H|].
  split; [|exact H]. repeat split; assumption.
Qed.

Lemma link_event_reaches (w : Scrape) initial_url content_selector cdp_url wait_time
  click_selector :
  In (Evaluate page FirstAnchorHref)
     (fst (navigate_and_extract_content w initial_url content_selector cdp_url
             wait_time click_selector)) ->
  reaches_link w.
Proof. intro H. now apply navigate_trace_inv in H as [H _]. Qed.

Lemma emits_as_forall {A} (P : Event -> Prop) (m : M A) ev :
  emits P m -> In ev (fst m) -> P ev.
Proof. unfold emits. rewrite Forall_forall. auto. Qed.

Lemma click_step_events (w : Scrape) wait_time click_selector :
  emits (fun ev => before_container ev = true) (click_step w wait_time click_selector).
Proof. unfold click_step. emits_all. Qed.

Lemma resolve_link_events (w : Scrape) :
  emits (fun ev => before_container ev = true) (resolve_link w).
Proof. unfold resolve_link. emits_all. Qed.

Lemma open_target_events (w : Scrape) href wait_time :
  emits (fun ev => before_container ev = true) (open_target w href wait_time).
Proof. unfold open_target. emits_all. Qed.

Lemma resolve_link_returns (w : Scrape) href :
  snd (resolve_link w) = Returns href -> link_found w href.
Proof.
  unfold resolve_link. destruct (link_marked w) as [dom|e] eqn:Ed; [|discriminate].
  destruct dom as [|[|[|c h] l] d];
    try (destruct (diag_title w); [destruct (diag_marked w)|]; discriminate).
  simpl. intros [= <-]. exists ((String c h :: l) :: d). now repeat split.
Qed.

Lemma open_target_returns (w : Scrape) href wait_time u :
  snd (open_target w href wait_time) = Returns u ->
  open_tab w = Gives tt /\ goto_target w = Gives tt /\ settle_target w = Gives tt.
Proof.
  unfold open_target.
  destruct (open_tab w) as [[]|e]; [|discriminate].
  destruct (goto_target w) as [[]|e]; [|discriminate].
  destruct (settle_target w) as [[]|e]; [|discriminate].
  now intros _.
Qed.

Lemma container_event_reaches (w : Scrape) initial_url content_selector cdp_url
  wait_time click_selector sel ms :
  In (WaitForSelector new_page sel ms)
     (fst (navigate_and_extract_content w initial_url content_selector cdp_url
             wait_time click_selector)) ->
  reaches_container w.
Proof.
  intro H. apply navigate_trace_inv in H as [Hr H]; [|reflexivity].
  split; [exact Hr|].
  apply in_fst_bind in H as [H | ([] & _ & H)];
    [apply (emits_as_forall _ _ _ (click_step_events _ _ _)) in H; discriminate H|].
  unfold after_click in H.
  apply in_fst_bind in H as [H | (href & Hl%resolve_link_returns & H)];
    [apply (emits_as_forall _ _ _ (resolve_link_events _)) in H; discriminate H|].
  apply in_fst_bind in H as [H | ([] & Ho%open_target_returns & H)];
    [apply (emits_as_forall _ _ _ (open_target_events _ _ _)) in H; discriminate H|].
  split; [now exists href | exact Ho].
Qed.

(** The premise of C3, on the page the script sees:
    no element bears the class, or the first one has no anchor with an
    [href] under it. *)
Lemma lacks_link_falsy (dom : Marked) :
  dom = [] \/ (exists anchors rest, dom = anchors :: rest /\ Forall (eq "") anchors) ->
  falsy (first_anchor_href dom) = true.
Proof.
  intros [-> | (anchors & rest & -> & H)]; [reflexivity|].
  destruct H as [|h anchors <- _]; reflexivity.
Qed.

Lemma navigate_without_link (w : Scrape) initial_url content_selector cdp_url
  wait_time click_selector :
  no_link w ->
  emits (fun ev => no_extraction ev = true)
    (navigate_and_extract_content w initial_url content_selector cdp_url wait_time
       click_selector).
Proof.
  intro Hn.
  assert (Hp : forall ev, is_goto ev = false -> is_tts ev = false ->
                          is_extraction ev = false -> no_extraction ev = true)
    by (intros ev _ _ H; unfold no_extraction; now rewrite H).
  destruct (resolve_link_raises _ Hn) as [e He].
  unfold navigate_and_extract_content, with_playwright.
  apply emits_bind; [now apply emits_one | intros _].
  apply emits_try_finally; [|now apply emits_one].
  apply emits_bind; [now apply emits_first_page | intros _].
  apply emits_try_finally; [|now apply emits_one].
  do 3 (apply emits_bind; [now apply emits_one | intros _]).
  apply emits_bind; [now apply emits_click_step | intros _].
  apply (emits_bind_raising _ _ _ e He). now apply emits_resolve_link.
Qed.

Lemma test_no_tts (w : Probe) cdp_url :
  emits (fun ev => no_tts ev = true) (test_cdp_connection w cdp_url).
Proof.
  apply emits_test_cdp_connection; [|reflexivity].
  intros ev _ H _. unfold no_tts. now rewrite H.
Qed.

Lemma run_test_fails (w : World) tp :
  connection_test w = (tp, Returns false) ->
  run w = ((banner ++ tp ++ instructions)%list, 1%Z).
Proof. intro H. unfold run. now rewrite (main_test_fails _ _ H). Qed.

Lemma run_pipeline_raises (w : World) tp tn e :
  connection_test w = (tp, Returns true) ->
  pipeline w = (tn, Raises e) ->
  run w = ((banner ++ tp ++ heading ++ tn ++ failure_report e)%list, 1%Z).
Proof. intros Ht Hp. unfold run. now rewrite (main_pipeline_raises _ _ _ _ Ht Hp). Qed.

Lemma connection_test_cases (w : World) :
  exists tp ok, connection_test w = (tp, Returns ok)
                /\ count_tts tp = 0.
Proof.
  destruct (test_cdp_connection_returns (probe w) default_cdp_url) as [ok H].
  pose proof (test_no_tts (probe w) default_cdp_url) as Hq.
  unfold connection_test. destruct (test_cdp_connection _ _) as [tp r].
  simpl in H. subst r. exists tp, ok. split; [reflexivity|].
  now apply count_tts_none.
Qed.

(** A run whose pipeline raises ends with status 1 and without a call of
    the speech model. *)
Lemma run_without_result (w : World) tn e :
  pipeline w = (tn, Raises e) ->
  count_tts (fst (run w)) = 0 /\ snd (run w) = 1%Z.
Proof.
  intro Hp. destruct (connection_test_cases w) as (tp & [|] & Ht & Hc).
  - rewrite (run_pipeline_raises _ _ _ _ Ht Hp). split; [|reflexivity].
    cbn [fst]. rewrite !count_tts_app, Hc.
    assert (count_tts tn = 0) as ->.
    { apply count_tts_none.
      pose proof (navigate_no_tts (scrape w) the_initial_url the_content_selector
                    default_cdp_url 5000%Z (Some the_click_selector)) as H.
      unfold pipeline, navigate_with_specific_selectors in Hp.
      unfold emits in H. now rewrite Hp in H. }
    reflexivity.
  - rewrite (run_test_fails _ _ Ht). split; [|reflexivity].
    cbn [fst]. rewrite !count_tts_app, Hc. reflexivity.
Qed.

(** What a run that finds no link does, whatever else the browser
    answers: the pipeline raises an [Exception], no element is read, the
    program ends with status 1 and the model is never invoked; the
    exception is the one naming the class unless a diagnostic read or the
    closing of the connection fails first. *)
Lemma missing_link_outcome (w : World)
  (initial_url content_selector cdp_url : string) (wait_time : Z)
  (click_selector : option string) :
  In (Evaluate page FirstAnchorHref)
     (fst (navigate_and_extract_content (scrape w) initial_url content_selector
             cdp_url wait_time click_selector)) ->
  no_link (scrape w) ->
  let out := navigate_and_extract_content (scrape w) initial_url content_selector
               cdp_url wait_time click_selector in
  (exists e, snd out = Raises e /\ is_Exception e = true
     /\ ((exists t, diag_title (scrape w) = Gives t) ->
         (exists d, diag_marked (scrape w) = Gives d) ->
         close (scrape w) = Gives tt ->
         e = PlainException link_error))
  /\ str_exn (PlainException link_error) = link_error
  /\ contains marker link_error = true
  /\ Forall (fun ev => no_extraction ev = true) (fst out)
  /\ count_tts (fst (run w)) = 0
  /\ snd (run w) = 1%Z.
Proof.
  intros Hr%link_event_reaches Hn out.
  destruct (resolve_link_raises _ Hn) as [e He].
  assert (Ho : snd out
               = match close (scrape w) with
                 | Gives _ => Raises e
                 | Fails ec => Raises (PlaywrightError ec)
                 end).
  { unfold out. rewrite (outcome_navigate _ _ _ _ _ _ Hr).
    destruct (close (scrape w)); [|reflexivity].
    unfold after_click. now rewrite (snd_bind_raises _ _ e He). }
  rewrite (resolve_link_missing _ Hn) in He.
  split; [|split; [reflexivity|split; [reflexivity|split]]].
  - destruct (close (scrape w)) as [[]|ec];
      [destruct (diag_title (scrape w)) as [t|et];
       [destruct (diag_marked (scrape w)) as [d|ed]|]|];
      eexists; (split; [exact Ho|]);
      (split; [try reflexivity; now injection He as <-|]);
      intros [? ?] [? ?] ?; congruence.
  - apply navigate_without_link, Hn.
  - assert (exists tn e', pipeline w = (tn, Raises e')) as (tn & e' & Hp).
    { unfold pipeline, navigate_with_specific_selectors.
      pose proof (outcome_navigate (scrape w) the_initial_url the_content_selector
                    default_cdp_url 5000%Z (Some the_click_selector) Hr) as H.
      destruct (navigate_and_extract_content (scrape w) the_initial_url _ _ _ _)
        as [tn r].
      cbn [snd] in H. subst r. exists tn.
      destruct (close (scrape w)); [|eauto].
      destruct (resolve_link_raises _ Hn) as [e' He']. exists e'. f_equal.
      unfold after_click. now rewrite (snd_bind_raises _ _ e' He'). }
    exact (run_without_result _ _ _ Hp).
Qed.

(** C3. When a run performs the link resolution and it finds no element
    bearing the class, or no anchor with an [href] under it, the pipeline
    raises an exception; no element is read and no item produced; the
    program ends with status 1 and the speech model is never invoked.
    The exception is the one whose message names the class when the two
    diagnostic reads made before it is raised and the closing of the
    connection made after it answer; it is the error of the closing when
    that fails, and otherwise the error of the diagnostic read that
    fails. *)
Theorem missing_link_is_fatal (w : World)
  (initial_url content_selector cdp_url : string) (wait_time : Z)
  (click_selector : option string) :
  In (Evaluate page FirstAnchorHref)
     (fst (navigate_and_extract_content (scrape w) initial_url content_selector
             cdp_url wait_time click_selector)) ->
  no_link (scrape w) ->
  let out := navigate_and_extract_content (scrape w) initial_url content_selector
               cdp_url wait_time click_selector in
  (exists e, snd out = Raises e /\ is_Exception e = true)
  /\ snd out
     = match close (scrape w) with
       | Fails e => Raises (PlaywrightError e)
       | Gives _ =>
           match diag_title (scrape w) with
           | Fails e => Raises (PlaywrightError e)
           | Gives _ =>
               match diag_marked (scrape w) with
               | Fails e => Raises (PlaywrightError e)
               | Gives _ => Raises (PlainException link_error)
               end
           end
       end
  /\ (diagnostics_answer (scrape w) -> close (scrape w) = Gives tt ->
      snd out = Raises (PlainException link_error))
  /\ contains marker (str_exn (PlainException link_error)) = true
  /\ Forall (fun ev => no_extraction ev = true) (fst out)
  /\ count_tts (fst (run w)) = 0
  /\ snd (run w) = 1%Z.
Proof.
  intros Hi Hn out.
  destruct (missing_link_outcome w initial_url content_selector cdp_url wait_time
              click_selector Hi Hn) as ((e & He & Hx & Hm) & _ & Hk & Hnx & Hq & Hs).
  fold out in He, Hnx.
  split; [now exists e|]. split; [|split; [|repeat split; assumption]].
  - apply link_event_reaches in Hi. unfold out.
    rewrite (outcome_navigate _ _ _ _ _ _ Hi).
    destruct (close (scrape w)) as [[]|ec]; [|reflexivity].
    destruct (resolve_link_raises _ Hn) as [e' He']. unfold after_click.
    rewrite (snd_bind_raises _ _ e' He').
    rewrite (resolve_link_missing _ Hn) in He'.
    destruct (diag_title (scrape w)); [destruct (diag_marked (scrape w))|];
      injection He' as <-; reflexivity.
  - intros [Ht Hd] Hc. rewrite He. f_equal. now apply Hm.
Qed.

Lemma outcome_at_container (w : Scrape) initial_url content_selector cdp_url
  wait_time click_selector :
  reaches_container w ->
  exists href,
    snd (navigate_and_extract_content w initial_url content_selector cdp_url
           wait_time click_selector)
    = match close w with
      | Gives _ => snd (locate_container w content_selector wait_time ;;
                        after_container w initial_url href)
      | Fails e => Raises (PlaywrightError e)
      end.
Proof.
  intros (Hr & (href & Hl) & Ho & Hg & Hs). exists href.
  rewrite (outcome_navigate _ _ _ _ _ _ Hr).
  now rewrite (after_click_found _ _ _ _ _ Hl Ho Hg Hs).
Qed.

(** What a run that waits for the container does, whatever else the
    browser answers. *)
Lemma missing_container_outcome (w : Scrape)
  (initial_url content_selector cdp_url : string) (wait_time : Z)
  (click_selector : option string) :
  In (WaitForSelector new_page content_selector wait_time)
     (fst (navigate_and_extract_content w initial_url content_selector
             cdp_url wait_time click_selector)) ->
  let out := snd (navigate_and_extract_content w initial_url content_selector
                    cdp_url wait_time click_selector) in
  (exists rest,
     fst (locate_container w content_selector wait_time)
     = (Print ("Extracting content from selector: " ++ content_selector)
          :: WaitForSelector new_page content_selector wait_time
          :: wait_warning w wait_time
          ++ QuerySelector new_page content_selector :: rest)%list)
  /\ snd (locate_container w content_selector wait_time)
     = match container_query w with
       | Fails e => Raises (PlaywrightError e)
       | Gives true => Returns tt
       | Gives false =>
           match missing_title w with
           | Fails e => Raises (PlaywrightError e)
           | Gives _ => Raises (PlainException (container_error content_selector))
           end
       end
  /\ (out = Raises (PlainException (container_error content_selector)) ->
      container_query w = Gives false)
  /\ (container_query w = Gives false ->
      (exists e, out = Raises e)
      /\ ((exists t, missing_title w = Gives t) -> close w = Gives tt ->
          out = Raises (PlainException (container_error content_selector))))
  /\ contains content_selector (container_error content_selector) = true.
Proof.
  intros Hr%container_event_reaches out.
  destruct (outcome_at_container w initial_url content_selector cdp_url wait_time
              click_selector Hr) as [href Ho].
  fold out in Ho.
  pose proof (locate_container_outcome w content_selector wait_time) as Hl.
  split; [apply locate_container_trace|].
  split; [exact Hl|].
  split; [|split; [|apply contains_suffix]].
  - intro E. rewrite E in Ho.
    destruct (close w) as [[]|ec]; [|discriminate Ho].
    destruct (container_query w) as [[|]|eq]; [| reflexivity |].
    + rewrite (snd_bind_returns _ _ tt Hl) in Ho.
      destruct (after_container w initial_url href) as [t r] eqn:Ea.
      simpl in Ho. subst r.
      destruct (after_container_throws _ _ _ _ _ Ea) as [le [=]].
    + rewrite (snd_bind_raises _ _ _ Hl) in Ho. discriminate Ho.
  - intro Hq. rewrite Hq in Hl.
    assert (exists e, snd (locate_container w content_selector wait_time) = Raises e)
      as [e He] by (rewrite Hl; destruct (missing_title w); eauto).
    rewrite (snd_bind_raises _ _ _ He) in Ho. split.
    + rewrite Ho. destruct (close w); eauto.
    + intros [t Ht] Hc. rewrite Ho, Hc. rewrite Ht in Hl. congruence.
Qed.

(** C4. When a run performs the wait for the content container: a wait
    that times out only adds a warning to the log and is followed by a
    new lookup of the container, on which alone the outcome of the step
    depends.  If that lookup finds no container, the pipeline raises an
    exception and returns no result; the exception is the extraction
    failure whose message names the selector when the diagnostic read
    made before it is raised and the closing of the connection made
    after it answer, and the error of the failing call otherwise.  The
    pipeline raises that extraction failure only if the lookup finds no
    container. *)
Theorem missing_container_is_fatal (w : Scrape)
  (initial_url content_selector cdp_url : string) (wait_time : Z)
  (click_selector : option string) :
  In (WaitForSelector new_page content_selector wait_time)
     (fst (navigate_and_extract_content w initial_url content_selector
             cdp_url wait_time click_selector)) ->
  let out := snd (navigate_and_extract_content w initial_url content_selector
                    cdp_url wait_time click_selector) in
  (exists rest,
     fst (locate_container w content_selector wait_time)
     = (Print ("Extracting content from selector: " ++ content_selector)
          :: WaitForSelector new_page content_selector wait_time
          :: wait_warning w wait_time
          ++ QuerySelector new_page content_selector :: rest)%list)
  /\ snd (locate_container w content_selector wait_time)
     = match container_query w with
       | Fails e => Raises (PlaywrightError e)
       | Gives true => Returns tt
       | Gives false =>
           match missing_title w with
           | Fails e => Raises (PlaywrightError e)
           | Gives _ => Raises (PlainException (container_error content_selector))
           end
       end
  /\ (out = Raises (PlainException (container_error content_selector)) ->
      container_query w = Gives false)
  /\ (container_query w = Gives false ->
      (forall result, out <> Returns result)
      /\ out = match close w with
               | Fails e => Raises (PlaywrightError e)
               | Gives _ =>
                   match missing_title w with
                   | Fails e => Raises (PlaywrightError e)
                   | Gives _ => Raises (PlainException (container_error content_selector))
                   end
               end)
  /\ ((exists t, missing_title w = Gives t) -> close w = Gives tt ->
      (out = Raises (PlainException (container_error content_selector))
       <-> container_query w = Gives false))
  /\ contains content_selector
       (str_exn (PlainException (container_error content_selector))) = true.
Proof.
  intros Hi out.
  destruct (missing_container_outcome w initial_url content_selector cdp_url
              wait_time click_selector Hi) as (Htr & Hl & Ho & Hq & Hk).
  fold out in Ho, Hq.
  split; [exact Htr|]. split; [exact Hl|]. split; [exact Ho|].
  split; [|split; [|exact Hk]].
  - intro H. destruct (Hq H) as [[e He] _]. split; [intros result E; congruence|].
    apply container_event_reaches in Hi.
    destruct (outcome_at_container w initial_url content_selector cdp_url wait_time
                click_selector Hi) as [href Hh].
    fold out in Hh. rewrite Hh. destruct (close w) as [[]|ec]; [|reflexivity].
    rewrite H in Hl.
    assert (exists e', snd (locate_container w content_selector wait_time) = Raises e')
      as [e' He'] by (rewrite Hl; destruct (missing_title w); eauto).
    rewrite (snd_bind_raises _ _ _ He'). rewrite Hl in He'.
    destruct (missing_title w); injection He' as <-; reflexivity.
  - intros Ht Hc. split; [exact Ho|]. intro H. now apply (proj2 (Hq H)).
Qed.

(** ** Results and the text that is spoken *)

Lemma yields_bind_with {A B} (R : A -> Prop) (Q : B -> Prop) (m : M A) (f : A -> M B) :
  yields R m -> (forall a, R a -> yields Q (f a)) -> yields Q (bind m f).
Proof.
  intros Hm Hf t b E. apply bind_inv in E as (t1 & a & t2 & Ea & Eb & _).
  exact (Hf a (Hm _ _ Ea) _ _ Eb).
Qed.

Lemma extract_yields_text (w : Scrape) :
  yields (Forall (fun it => truthy (text it) = true)) (extract w).
Proof.
  unfold extract. apply yields_bind. intros elements t items E.
  apply collect_returns in E. subst items. apply kept_items_have_text.
Qed.

Lemma assemble_yields (w : Scrape) initial_url href items :
  Forall (fun it => truthy (text it) = true) items ->
  yields well_formed (assemble w initial_url href items).
Proof.
  intros H t r E. unfold assemble in E.
  apply bind_inv in E as (? & ttl & ? & _ & E & _).
  repeat (apply bind_inv in E as (? & ? & ? & _ & E & _)).
  injection E as _ <-. split; [reflexivity | exact H].
Qed.

Lemma navigate_yields (w : Scrape) initial_url content_selector cdp_url wait_time
  click_selector :
  yields well_formed
    (navigate_and_extract_content w initial_url content_selector cdp_url wait_time
       click_selector).
Proof.
  unfold navigate_and_extract_content, with_playwright.
  apply yields_bind; intros _. apply yields_try_finally.
  apply yields_bind; intros _. apply yields_try_finally.
  do 4 (apply yields_bind; intros _).
  apply yields_bind; intros href.
  do 2 (apply yields_bind; intros _).
  apply (yields_bind_with _ _ _ _ (extract_yields_text w)).
  intros items. apply assemble_yields.
Qed.

(** When the pipeline returns, [main] hands the flat concatenation of the
    item texts to the model, once. *)
Lemma main_speaks (w : World) tp tn result :
  connection_test w = (tp, Returns true) ->
  pipeline w = (tn, Returns result) ->
  In (TtsToFile (speech_text (content result)) "content.wav" false) (fst (main w))
  /\ count_tts (fst (main w)) = 1.
Proof.
  intros Ht Hp. rewrite (main_pipeline_returns _ _ _ _ Ht Hp).
  assert (Hc : count_tts tp = 0).
  { apply count_tts_none.
    pose proof (test_no_tts (probe w) default_cdp_url) as H.
    unfold emits in H. fold (connection_test w) in H. now rewrite Ht in H. }
  assert (Hn : count_tts tn = 0).
  { apply count_tts_none.
    pose proof (navigate_no_tts (scrape w) the_initial_url the_content_selector
                  default_cdp_url 5000%Z (Some the_click_selector)) as H.
    unfold pipeline, navigate_with_specific_selectors in Hp.
    unfold emits in H. now rewrite Hp in H. }
  destruct (tts_to_file w _ _) as [msg|]; cbn [fst]; split;
    try (rewrite !count_tts_app, Hc, Hn; reflexivity);
    repeat (apply in_or_app; right); simpl; tauto.
Qed.

(** C10. When the connection test passes and the pipeline returns a
    result without any item, [main] still calls the sink, and the text it
    passes to the model is the empty string, the start value of the fold. *)
Theorem empty_content_is_synthesized (w : World) (tp tn : Trace)
  (result : ExtractionResult) :
  connection_test w = (tp, Returns true) ->
  pipeline w = (tn, Returns result) ->
  content result = [] ->
  speech_text (content result) = ""
  /\ truthy (speech_text (content result)) = false
  /\ In (TtsToFile "" "content.wav" false) (fst (main w))
  /\ count_tts (fst (main w)) = 1.
Proof.
  intros Ht Hp He. destruct (main_speaks _ _ _ _ Ht Hp) as [Hi Hc].
  rewrite He in *. repeat split; assumption.
Qed.


(** ** The statements at sample worlds *)

Lemma calm_runs : run calm
  = ((banner ++ fst (connection_test calm) ++ heading ++ fst (pipeline calm)
      ++ [success_line calm_result; announcement "TitleBody text";
          TtsToFile "TitleBody text" "content.wav" false])%list, 0%Z).
Proof. vm_compute. reflexivity. Qed.


Lemma extract_keeps_text_in_order_witness :
  exists items,
    extract (scrape roomy)
    = ((QuerySelectorAll tag_selector :: reads spaced)%list, Returns items)
    /\ items = spaced_items
    /\ subseq [mkElem 0 "P" "D" None None;
               mkElem 2 "PRE" (utf8 8195 ++ "E" ++ utf8 160) None None] spaced
    /\ length items = 2
    /\ 2 <= 4
    /\ Forall (fun el => has_text el = false <-> blank (innerText el)) spaced
    /\ Forall2 (fun it el => trims (innerText el) (text it))
               items
               [mkElem 0 "P" "D" None None;
                mkElem 2 "PRE" (utf8 8195 ++ "E" ++ utf8 160) None None]
    /\ Forall2 (fun it el => forall core, trims (innerText el) core -> core = text it)
               items
               [mkElem 0 "P" "D" None None;
                mkElem 2 "PRE" (utf8 8195 ++ "E" ++ utf8 160) None None]
    /\ Forall (fun it => truthy (text it) = true) items
    /\ (spaced = [] -> items = []).
Proof.
  apply (extract_keeps_text_in_order (scrape roomy) spaced);
    [reflexivity | repeat constructor].
Defined.

(** C2 does not hold of a container one of whose elements cannot be
    read: the only element of [gone] has text, so M = N = 1, and the
    extractor raises the error of the read instead of returning one
    item. *)
Lemma extract_raises_when_a_read_fails :
  all_children (scrape stale) = Gives gone
  /\ length gone = 1
  /\ count_text gone = 1
  /\ snd (extract (scrape stale)) = Raises (PlaywrightError detached)
  /\ ~ (exists items, snd (extract (scrape stale)) = Returns items).
Proof.
  repeat split. intros [items H]. discriminate H.
Qed.

Lemma missing_link_is_fatal_witness :
  let out := navigate_and_extract_content (scrape unmarked) the_initial_url
               the_content_selector default_cdp_url 5000%Z (Some the_click_selector) in
  (exists e, snd out = Raises e /\ is_Exception e = true)
  /\ snd out = Raises (PlainException link_error)
  /\ (diagnostics_answer (scrape unmarked) -> close (scrape unmarked) = Gives tt ->
      snd out = Raises (PlainException link_error))
  /\ contains marker (str_exn (PlainException link_error)) = true
  /\ Forall (fun ev => no_extraction ev = true) (fst out)
  /\ count_tts (fst (run unmarked)) = 0
  /\ snd (run unmarked) = 1%Z.
Proof.
  apply (missing_link_is_fatal unmarked the_initial_url the_content_selector
           default_cdp_url 5000%Z (Some the_click_selector)).
  - vm_compute. repeat (first [left; reflexivity | right]).
  - exists []. split; reflexivity.
Defined.

(** C3 does not hold of a run whose connection is lost before
    [browser.close()]: no element bears the class, and the error the
    pipeline raises is that of the closing, which does not name the
    class. *)
Lemma missing_link_error_may_not_name_the_class :
  no_link (scrape unmarked_cut)
  /\ In (Evaluate page FirstAnchorHref) (fst (pipeline unmarked_cut))
  /\ snd (pipeline unmarked_cut) = Raises (PlaywrightError connection_closed)
  /\ str_exn (PlaywrightError connection_closed) = "Browser.close: Connection closed"
  /\ contains marker (str_exn (PlaywrightError connection_closed)) = false.
Proof.
  split; [exists []; split; reflexivity|].
  split; [vm_compute; repeat (first [left; reflexivity | right])|].
  repeat split.
Qed.

Lemma missing_container_is_fatal_witness :
  let w := scrape hollow in
  let out := snd (navigate_and_extract_content w the_initial_url the_content_selector
                    default_cdp_url 5000%Z (Some the_click_selector)) in
  (exists rest,
     fst (locate_container w the_content_selector 5000%Z)
     = (Print ("Extracting content from selector: " ++ the_content_selector)
          :: WaitForSelector new_page the_content_selector 5000%Z
          :: [Print "Warning: Content element not found after 5000ms wait"]
          ++ QuerySelector new_page the_content_selector :: rest)%list)
  /\ snd (locate_container w the_content_selector 5000%Z)
     = Raises (PlainException (container_error the_content_selector))
  /\ (out = Raises (PlainException (container_error the_content_selector)) ->
      container_query w = Gives false)
  /\ (container_query w = Gives false ->
      (forall result, out <> Returns result)
      /\ out = Raises (PlainException (container_error the_content_selector)))
  /\ ((exists t, missing_title w = Gives t) -> close w = Gives tt ->
      (out = Raises (PlainException (container_error the_content_selector))
       <-> container_query w = Gives false))
  /\ contains the_content_selector
       (str_exn (PlainException (container_error the_content_selector))) = true.
Proof.
  apply (missing_container_is_fatal (scrape hollow) the_initial_url
           the_content_selector default_cdp_url 5000%Z (Some the_click_selector)).
  vm_compute. repeat (first [left; reflexivity | right]).
Defined.

(** C4 does not hold of a run whose connection is lost before
    [browser.close()]: the lookup finds no container, and the error the
    pipeline raises is that of the closing, not the extraction failure
    naming the selector. *)
Lemma missing_container_error_may_not_name_the_selector :
  In (WaitForSelector new_page the_content_selector 5000%Z) (fst (pipeline hollow_cut))
  /\ container_query (scrape hollow_cut) = Gives false
  /\ snd (pipeline hollow_cut) = Raises (PlaywrightError connection_closed)
  /\ snd (pipeline hollow_cut)
     <> Raises (PlainException (container_error the_content_selector))
  /\ contains the_content_selector (str_exn (PlaywrightError connection_closed)) = false.
Proof.
  split; [vm_compute; repeat (first [left; reflexivity | right])|].
  repeat split. discriminate.
Qed.

Lemma click_step_never_aborts_witness :
  let step := click_step (scrape calm) 5000%Z (Some the_click_selector) in
  snd step = Returns tt
  /\ (forall B (rest : M B), (step ;; rest) = ((fst step ++ fst rest)%list, snd rest))
  /\ exists t,
       fst step
       = Print ("Clicking element: " ++ the_click_selector)
           :: WaitForSelector page the_click_selector 5000%Z :: t
       /\ (forall e, click_wait (scrape calm) = Fails e ->
             t = [Print ("Warning: Could not click element: " ++ lib_msg e)])
       /\ (click_wait (scrape calm) = Gives tt -> click_query (scrape calm) = Gives false ->
             t = [QuerySelector page the_click_selector;
                  Print "Warning: Click element not found"])
       /\ (click_wait (scrape calm) = Gives tt -> click_query (scrape calm) = Gives true ->
           click_click (scrape calm) = Gives tt ->
           exists t',
             t = ([QuerySelector page the_click_selector; Click;
                   Print (check_mark ++ " Element clicked successfully");
                   WaitForTimeout page 2000%Z] ++ t')%list
             /\ (click_settle (scrape calm) = Gives tt -> t' = [])).
Proof.
  apply (click_step_never_aborts (scrape calm) 5000%Z the_click_selector).
  reflexivity.
Defined.

Lemma tag_is_lower_case_witness :
  Forall2 (fun it el => tag it = toLowerCase (tagName el))
          calm_items (filter has_text (article 0))
  /\ Forall (fun it => no_upper_letter (tag it) = true) calm_items
  /\ (forall a b, same_name a b = true -> toLowerCase a = toLowerCase b)
  /\ toLowerCase "P" = "p" /\ toLowerCase "p" = "p".
Proof.
  apply (tag_is_lower_case (scrape calm) (article 0)
           (QuerySelectorAll tag_selector :: reads (article 0)) calm_items);
    reflexivity.
Defined.


Lemma empty_content_is_synthesized_witness :
  speech_text (content bare_result) = ""
  /\ truthy (speech_text (content bare_result)) = false
  /\ In (TtsToFile "" "content.wav" false) (fst (main bare))
  /\ count_tts (fst (main bare)) = 1.
Proof.
  apply (empty_content_is_synthesized bare (fst (connection_test bare))
           (fst (pipeline bare)) bare_result); reflexivity.
Defined.

(** The scenario of the container [<h2>Title</h2><p>  </p><p>Body text</p>]. *)
Example article_items :
  snd (extract (scrape calm)) = Returns [mkItem "h2" "Title"; mkItem "p" "Body text"].
Proof. reflexivity. Qed.

Example unmarked_run_reports_the_marker :
  snd (run unmarked) = 1%Z
  /\ In (Print (LF ++ cross_mark ++ " Error during scraping: " ++ link_error))
        (fst (run unmarked)).
Proof. vm_compute. intuition. Qed.

Example hollow_run_reports_the_selector :
  snd (run hollow) = 1%Z
  /\ In (Print ("Warning: Content element not found after 5000ms wait"))
        (fst (run hollow))
  /\ In (Print (LF ++ cross_mark ++ " Error during scraping: "
                ++ container_error the_content_selector))
        (fst (run hollow)).
Proof. vm_compute. intuition. Qed.

Example offline_run :
  run offline
  = ((banner
        ++ [PlaywrightEnter; ConnectOverCdp default_cdp_url; PlaywrightExit;
            Print (cross_mark ++ " CDP Connection failed: connect ECONNREFUSED 127.0.0.1:9222")]
        ++ instructions)%list, 1%Z).
Proof. reflexivity. Qed.

(** * Further properties *)

(** ** Traces of composed computations *)

Lemma fst_try_finally {A} (body : M A) (cleanup : M unit) :
  fst (try_finally body cleanup) = (fst body ++ fst cleanup)%list.
Proof. destruct body as [t r], cleanup as [t' [u|e]]; reflexivity. Qed.

Lemma fst_bind_returns {A B} (m : M A) (f : A -> M B) a :
  snd m = Returns a -> fst (bind m f) = (fst m ++ fst (f a))%list.
Proof. destruct m as [t r]. simpl. intros ->. now destruct (f a). Qed.

Lemma count_close_app (a b : Trace) :
  count_close (a ++ b)%list = count_close a + count_close b.
Proof. unfold count_close. now rewrite filter_app, length_app. Qed.

Lemma count_close_none (t : Trace) :
  Forall (fun ev => is_close ev = false) t -> count_close t = 0.
Proof.
  induction 1 as [|ev t H _ IH]; [reflexivity|].
  unfold count_close in *. simpl. now rewrite H.
Qed.

Lemma in_try_collect (elements : list Elem) :
  forall acc, emits (fun ev => in_try ev = true) (collect elements acc).
Proof.
  induction elements as [|el rest IH]; intro acc; cbn [collect]; emits_all.
  apply IH.
Qed.

Lemma in_try_print_items (items : list ExtractedItem) :
  emits (fun ev => in_try ev = true) (print_items items).
Proof.
  induction items as [|it rest IH]; cbn [print_items]; emits_all. exact IH.
Qed.

Lemma in_try_block (w : Scrape) initial_url content_selector wait_time click_selector :
  emits (fun ev => in_try ev = true)
    (try_block w initial_url content_selector wait_time click_selector).
Proof.
  unfold try_block, click_step, after_click, resolve_link, open_target,
    locate_container, extract, assemble.
  emits_all; first [apply in_try_collect | apply in_try_print_items].
Qed.

Lemma navigate_unfold (w : Scrape) initial_url content_selector cdp_url wait_time
  click_selector :
  navigate_and_extract_content w initial_url content_selector cdp_url wait_time
    click_selector
  = with_playwright (session w)
      (first_page (session w) cdp_url ;;
       try_finally (try_block w initial_url content_selector wait_time click_selector)
                   (call BrowserClose (close w))).
Proof. reflexivity. Qed.

(** The trace of a run, by how far the attachment gets. *)
Lemma navigate_trace (w : Scrape) initial_url content_selector cdp_url wait_time
  click_selector :
  let t := fst (navigate_and_extract_content w initial_url content_selector cdp_url
                  wait_time click_selector) in
  let fp := first_page (session w) cdp_url in
  match enter (session w), snd fp with
  | Fails _, _ => t = [PlaywrightEnter]
  | Gives _, Raises _ => t = (PlaywrightEnter :: fst fp ++ [PlaywrightExit])%list
  | Gives _, Returns _ =>
      t = (PlaywrightEnter :: fst fp
             ++ fst (try_block w initial_url content_selector wait_time click_selector)
             ++ [BrowserClose; PlaywrightExit])%list
  end.
Proof.
  intros t fp. unfold t. rewrite navigate_unfold. unfold with_playwright.
  destruct (enter (session w)) as [[]|e]; [|reflexivity].
  rewrite (fst_bind_returns _ _ tt) by reflexivity.
  rewrite fst_try_finally. fold fp.
  destruct (snd fp) as [[]|e] eqn:Ef.
  - rewrite (fst_bind_returns _ _ tt Ef), fst_try_finally. simpl.
    now rewrite <- !app_assoc.
  - now rewrite (fst_bind_raises _ _ _ Ef).
Qed.

Lemma first_page_quiet (s : Session) cdp_url :
  Forall (fun ev => is_close ev = false /\ is_driver ev = false)
         (fst (first_page s cdp_url)).
Proof.
  apply Forall_forall. intros ev [-> | ->]%first_page_events; now split.
Qed.

Lemma try_block_quiet (w : Scrape) initial_url content_selector wait_time
  click_selector :
  Forall (fun ev => is_close ev = false /\ is_driver ev = false)
         (fst (try_block w initial_url content_selector wait_time click_selector)).
Proof.
  pose proof (in_try_block w initial_url content_selector wait_time click_selector)
    as H.
  unfold emits in H. rewrite Forall_forall in *. intros ev Hi.
  specialize (H ev Hi). destruct ev; try discriminate H; now split.
Qed.

Lemma attached_iff (s : Session) cdp_url :
  attached s <-> enter s = Gives tt /\ snd (first_page s cdp_url) = Returns tt.
Proof.
  split.
  - intro H. split; [apply H | now apply first_page_attached].
  - intros [He Hf]. apply first_page_returns in Hf as [Hc Hp].
    repeat split; assumption.
Qed.

(** X1. [navigate_and_extract_content] closes the connection to the
    browser at most once, and exactly once in the runs that get a first
    page: when the driver does not start, the attachment fails, the
    browser has no context or no page can be opened, [browser.close()] is
    never called. *)
Theorem browser_closed_once_when_attached (w : Scrape)
  (initial_url content_selector cdp_url : string) (wait_time : Z)
  (click_selector : option string) :
  let t := fst (navigate_and_extract_content w initial_url content_selector cdp_url
                  wait_time click_selector) in
  count_close t <= 1
  /\ (count_close t = 1 <-> attached (session w))
  /\ (count_close t = 0 <-> ~ attached (session w)).
Proof.
  intro t.
  pose proof (navigate_trace w initial_url content_selector cdp_url wait_time
                click_selector) as H.
  cbv zeta in H. fold t in H.
  pose proof (attached_iff (session w) cdp_url) as Ha.
  assert (Hf : count_close (fst (first_page (session w) cdp_url)) = 0).
  { apply count_close_none.
    eapply Forall_impl; [|apply first_page_quiet]. now intros ev [? _]. }
  assert (Hb : count_close (fst (try_block w initial_url content_selector wait_time
                                   click_selector)) = 0).
  { apply count_close_none.
    eapply Forall_impl; [|apply try_block_quiet]. now intros ev [? _]. }
  destruct (enter (session w)) as [[]|e].
  - destruct (snd (first_page (session w) cdp_url)) as [[]|e] eqn:Ef.
    + assert (count_close t = 1) as ->.
      { rewrite H. change (PlaywrightEnter :: ?l) with ([PlaywrightEnter] ++ l)%list.
        rewrite !count_close_app, Hf, Hb. reflexivity. }
      intuition (auto; discriminate).
    + assert (count_close t = 0) as ->.
      { rewrite H. change (PlaywrightEnter :: ?l) with ([PlaywrightEnter] ++ l)%list.
        rewrite !count_close_app, Hf. reflexivity. }
      split; [lia|]. split; [split; [discriminate | intros [_ [=]]%Ha]|].
      split; [intros _ [_ [=]]%Ha | reflexivity].
  - rewrite H. unfold count_close. simpl. split; [lia|].
    split; [split; [discriminate | intros [[=] _]%Ha]|].
    split; [intros _ [[=] _]%Ha | reflexivity].
Qed.

(** X2. Whatever happens inside [navigate_and_extract_content], the
    Playwright driver it starts is stopped, last of all: the trace is the
    failed start alone, or runs from the start of the driver to its stop
    with neither in between. *)
Theorem driver_always_stopped (w : Scrape)
  (initial_url content_selector cdp_url : string) (wait_time : Z)
  (click_selector : option string) :
  let t := fst (navigate_and_extract_content w initial_url content_selector cdp_url
                  wait_time click_selector) in
  match enter (session w) with
  | Fails _ => t = [PlaywrightEnter]
  | Gives _ =>
      exists between,
        t = (PlaywrightEnter :: between ++ [PlaywrightExit])%list
        /\ Forall (fun ev => is_driver ev = false) between
  end.
Proof.
  intro t.
  pose proof (navigate_trace w initial_url content_selector cdp_url wait_time
                click_selector) as H.
  cbv zeta in H. fold t in H.
  pose proof (first_page_quiet (session w) cdp_url) as Hf.
  pose proof (try_block_quiet w initial_url content_selector wait_time click_selector)
    as Hb.
  destruct (enter (session w)) as [[]|e]; [|exact H].
  destruct (snd (first_page (session w) cdp_url)) as [[]|e].
  - exists (fst (first_page (session w) cdp_url)
            ++ fst (try_block w initial_url content_selector wait_time click_selector)
            ++ [BrowserClose])%list.
    split; [rewrite H; now rewrite <- !app_assoc|].
    repeat (apply Forall_app; split);
      try (eapply Forall_impl; [|eassumption]; now intros ev [_ ?]).
    now repeat constructor.
  - exists (fst (first_page (session w) cdp_url)). split; [exact H|].
    eapply Forall_impl; [|exact Hf]. now intros ev [_ ?].
Qed.

(** ** When the sequencer returns, and what *)

Lemma print_items_returns (items : list ExtractedItem) :
  snd (print_items items) = Returns tt.
Proof.
  induction items as [|it rest IH]; [reflexivity|]. cbn [print_items].
  do 3 (rewrite (snd_bind_returns _ _ tt) by reflexivity). exact IH.
Qed.

Lemma collect_returns_readable (elements : list Elem) :
  forall acc t items,
    collect elements acc = (t, Returns items) -> Forall readable elements.
Proof.
  induction elements as [|el rest IH]; intros acc t items; [constructor|].
  cbn [collect].
  destruct (evaluate_fails el) eqn:He; simpl; [discriminate|].
  destruct (inner_text_fails el) eqn:Ht; simpl; [discriminate|].
  destruct (collect rest _) as [t' r] eqn:E. intros [= _ ->].
  constructor; [now split | exact (IH _ _ _ E)].
Qed.

Lemma assemble_returns (w : Scrape) initial_url href items t result :
  assemble w initial_url href items = (t, Returns result) ->
  exists ttl,
    result_title w = Gives ttl
    /\ result = mkResult initial_url href (result_url w) ttl items
                         (join (LF ++ LF) (map text items)).
Proof.
  unfold assemble. intro E.
  apply bind_inv in E as (? & ttl & ? & Ht & E & _).
  repeat (apply bind_inv in E as (? & ? & ? & _ & E & _)).
  injection E as _ <-. exists ttl. split; [|reflexivity].
  apply (call_returns (Title new_page)). now rewrite Ht.
Qed.

Lemma assemble_answers (w : Scrape) initial_url href items ttl :
  result_title w = Gives ttl ->
  snd (assemble w initial_url href items)
  = Returns (mkResult initial_url href (result_url w) ttl items
                      (join (LF ++ LF) (map text items))).
Proof.
  intro H. unfold assemble. rewrite H.
  rewrite (snd_bind_returns _ _ ttl) by reflexivity.
  do 3 (rewrite (snd_bind_returns _ _ tt) by reflexivity).
  now rewrite (snd_bind_returns _ _ tt) by apply print_items_returns.
Qed.

(** The steps a returning [try] block went through. *)
Lemma try_block_returns (w : Scrape) initial_url content_selector wait_time
  click_selector t result :
  try_block w initial_url content_selector wait_time click_selector
  = (t, Returns result) ->
  goto_initial w = Gives tt /\ settle_initial w = Gives tt
  /\ exists href elements ttl,
       link_found w href
       /\ open_tab w = Gives tt /\ goto_target w = Gives tt
       /\ settle_target w = Gives tt
       /\ container_query w = Gives true
       /\ all_children w = Gives elements /\ Forall readable elements
       /\ result_title w = Gives ttl
       /\ result = mkResult initial_url href (result_url w) ttl
                            (map item_of (filter has_text elements))
                            (join (LF ++ LF)
                               (map text (map item_of (filter has_text elements))))
       /\ In (Goto new_page href "domcontentloaded" (Some 60000%Z)) t.
Proof.
  unfold try_block. intro E.
  apply bind_inv in E as (? & ? & t1 & _ & E & ->).
  apply bind_inv in E as (? & [] & t2 & Hg & E & ->).
  apply bind_inv in E as (? & [] & t3 & Hs & E & ->).
  apply bind_inv in E as (? & [] & t4 & _ & E & ->).
  unfold after_click in E.
  apply bind_inv in E as (? & href & t5 & Hl & E & ->).
  apply bind_inv in E as (to & [] & t6 & Ho & E & ->).
  apply bind_inv in E as (? & [] & t7 & Hc & E & ->).
  apply bind_inv in E as (? & items & t8 & Hx & E & ->).
  apply assemble_returns in E as (ttl & Ht & ->).
  unfold extract in Hx.
  apply bind_inv in Hx as (? & elements & ? & Hq & Hx & _).
  pose proof (collect_returns_readable _ _ _ _ Hx) as Hr.
  apply collect_returns in Hx. simpl in Hx. subst items.
  split; [apply (call_returns (Goto page initial_url "domcontentloaded" (Some 60000%Z)));
          now rewrite Hg|].
  split; [apply (call_returns (WaitForTimeout page wait_time)); now rewrite Hs|].
  exists href, elements, ttl.
  assert (Hlf : link_found w href) by (apply resolve_link_returns; now rewrite Hl).
  assert (Hot : open_tab w = Gives tt /\ goto_target w = Gives tt
                /\ settle_target w = Gives tt)
    by (apply (open_target_returns w href wait_time tt); now rewrite Ho).
  destruct Hot as (Ho1 & Ho2 & Ho3).
  assert (Hto : to = [ContextNewPage; Print ("Opening new tab with: " ++ href);
                      Goto new_page href "domcontentloaded" (Some 60000%Z);
                      WaitForTimeout new_page wait_time]).
  { change to with (fst (to, Returns (A:=unit) tt)). rewrite <- Ho.
    unfold open_target. now rewrite Ho1, Ho2, Ho3. }
  assert (Hcq : container_query w = Gives true).
  { pose proof (locate_container_outcome w content_selector wait_time) as H'.
    rewrite Hc in H'. simpl in H'.
    destruct (container_query w) as [[|]|]; [reflexivity| |discriminate H'].
    destruct (missing_title w); discriminate H'. }
  repeat (split; [assumption|]).
  split; [apply (call_returns (QuerySelectorAll tag_selector)); now rewrite Hq|].
  repeat (split; [assumption || reflexivity|]).
  do 5 (apply in_or_app; right). apply in_or_app; left.
  rewrite Hto. simpl. tauto.
Qed.

Lemma navigate_returns_inv (w : Scrape) initial_url content_selector cdp_url wait_time
  click_selector t result :
  navigate_and_extract_content w initial_url content_selector cdp_url wait_time
    click_selector = (t, Returns result) ->
  attached (session w) /\ close w = Gives tt
  /\ exists tb,
       try_block w initial_url content_selector wait_time click_selector
       = (tb, Returns result)
       /\ incl tb t.
Proof.
  rewrite navigate_unfold. unfold with_playwright. intro E.
  apply bind_inv in E as (? & [] & t1 & He & E & ->).
  apply try_finally_inv in E as (t2 & ? & E & _ & ->).
  apply bind_inv in E as (tf & [] & t3 & Hf & E & ->).
  apply try_finally_inv in E as (tb & tc & E & Hc & ->).
  split; [apply (attached_iff _ cdp_url); split|split].
  - apply (call_returns PlaywrightEnter). now rewrite He.
  - now rewrite Hf.
  - apply (call_returns BrowserClose). now rewrite Hc.
  - exists tb. split; [exact E|]. intros ev Hi.
    apply in_or_app; right. apply in_or_app; left.
    apply in_or_app; right. apply in_or_app; now left.
Qed.

(** X3. A result returned by [navigate_and_extract_content] is made of
    its argument [initial_url], of the link that the first anchor of the
    first marked element carried (which is also the address the new tab
    was sent to), of the address and title of the new tab, of the items
    of the matched elements whose inner text is not white space only, in
    order, each with that text without the white space at its two ends,
    and of these texts joined by a blank line. *)
Theorem returned_result_fields (w : Scrape)
  (initial_url content_selector cdp_url : string) (wait_time : Z)
  (click_selector : option string) (t : Trace) (result : ExtractionResult) :
  navigate_and_extract_content w initial_url content_selector cdp_url wait_time
    click_selector = (t, Returns result) ->
  exists href elements ttl,
    link_found w href
    /\ all_children w = Gives elements
    /\ result_title w = Gives ttl
    /\ result = mkResult initial_url href (result_url w) ttl
                         (map item_of (filter has_text elements))
                         (join (LF ++ LF)
                            (map text (map item_of (filter has_text elements))))
    /\ Forall (fun el => has_text el = false <-> blank (innerText el)) elements
    /\ Forall2 (fun it el => trims (innerText el) (text it))
               (content result) (filter has_text elements)
    /\ In (Goto new_page href "domcontentloaded" (Some 60000%Z)) t.
Proof.
  intros (_ & _ & tb & E & Hi)%navigate_returns_inv.
  apply try_block_returns in E
    as (_ & _ & href & elements & ttl & Hl & _ & _ & _ & _ & Hq & _ & Ht & Hr & Hg).
  exists href, elements, ttl. repeat (split; [assumption|]).
  split; [apply Forall_forall; intros el _; apply has_text_false|].
  split; [subst result; apply kept_items_trimmed | now apply Hi].
Qed.

(** X4. [navigate_and_extract_content] returns a result exactly when the
    driver starts, the browser is attached and gives a first page, both
    navigations and both pauses go through, the link is found, the
    container is found, every matched element can be read, the title of
    the new tab can be read and the connection can be closed. What the
    click step and the wait for the container answer plays no part. *)
Theorem returns_exactly_when_all_answer (w : Scrape)
  (initial_url content_selector cdp_url : string) (wait_time : Z)
  (click_selector : option string) :
  (exists t result,
     navigate_and_extract_content w initial_url content_selector cdp_url wait_time
       click_selector = (t, Returns result))
  <-> all_answer w.
Proof.
  split.
  - intros (t & result & E).
    apply navigate_returns_inv in E as (Ha & Hc & tb & E & _).
    apply try_block_returns in E
      as (Hg & Hs & href & elements & ttl & Hl & Ho & Hgt & Hst & Hq & Hx & Hr & Ht & _).
    repeat split; try assumption; try apply Ha; eauto.
  - intros (Hr & Hq & (elements & Hx & Hrd) & (ttl & Ht) & Hc).
    destruct (outcome_at_container w initial_url content_selector cdp_url wait_time
                click_selector Hr) as [href Ho].
    rewrite Hc in Ho.
    pose proof (locate_container_outcome w content_selector wait_time) as Hl.
    rewrite Hq in Hl. rewrite (snd_bind_returns _ _ tt Hl) in Ho.
    unfold after_container, extract in Ho. rewrite Hx in Ho.
    rewrite (snd_bind_returns _ _ (map item_of (filter has_text elements))) in Ho.
    + rewrite (assemble_answers _ _ _ _ ttl Ht) in Ho.
      destruct (navigate_and_extract_content _ _ _ _ _ _) as [t r].
      simpl in Ho. subst r. eauto.
    + rewrite (snd_bind_returns _ _ elements) by reflexivity.
      now rewrite (collect_readable _ Hrd).
Qed.

(** ** The texts of the items *)

(** X5. Every item the extractor returns carries a text that is not
    empty, neither begins nor ends with a white-space character (any of
    those [str.strip()] removes, the ones beyond U+00FF among them), and
    that trimming again leaves as it is. *)
Theorem item_texts_are_trimmed (w : Scrape) (t : Trace) (items : list ExtractedItem) :
  extract w = (t, Returns items) ->
  Forall (fun it => trimmed (text it) /\ strip (text it) = text it) items.
Proof.
  unfold extract. intro E.
  apply bind_inv in E as (? & elements & ? & _ & E & _).
  apply collect_returns in E. simpl in E. subst items.
  apply Forall_map, Forall_forall. intros el [_ H]%filter_In.
  destruct (has_text_trims el H) as (_ & _ & _ & _ & _ & Ht).
  split; [exact Ht | now apply strip_trimmed].
Qed.

(** X6. For a result the pipeline returns, the blank-line join kept in
    [full_text] and the text [main] hands to the model are the same
    string exactly when the result holds at most one item. *)
Theorem full_text_is_speech_text_iff (w : World) (tn : Trace)
  (result : ExtractionResult) :
  pipeline w = (tn, Returns result) ->
  (full_text result = speech_text (content result)
   <-> length (content result) <= 1).
Proof.
  intro Hp. destruct (navigate_yields _ _ _ _ _ _ _ _ Hp) as [Hf _].
  split.
  - intro E. destruct (le_gt_dec (length (content result)) 1) as [|Hgt]; [assumption|].
    pose proof (join_longer (content result) Hgt) as Hl.
    rewrite <- Hf, E in Hl. lia.
  - intro Hl. rewrite Hf. destruct (content result) as [|it [|it' rest]].
    + reflexivity.
    + reflexivity.
    + simpl in Hl. lia.
Qed.

(** ** Whole runs *)

Lemma run_main (w : World) : run w = (fst (main w), exit_status (snd (main w))).
Proof. unfold run. now destruct (main w). Qed.

(** X7. In a run of the program the speech model is invoked at most
    once, and it is invoked exactly in the runs whose connection test
    passes and whose pipeline returns a result. *)
Theorem model_invoked_at_most_once (w : World) :
  count_tts (fst (run w)) <= 1
  /\ (count_tts (fst (run w)) = 1
      <-> exists tp tn result,
            connection_test w = (tp, Returns true)
            /\ pipeline w = (tn, Returns result)).
Proof.
  destruct (connection_test_cases w) as (tp & ok & Ht & Hc).
  destruct ok.
  - destruct (pipeline w) as [tn [result|e]] eqn:Hp.
    + destruct (main_speaks _ _ _ _ Ht Hp) as [_ H1].
      rewrite run_main. cbn [fst]. rewrite H1. split; [lia|].
      split; [intros _; now exists tp, tn, result | reflexivity].
    + destruct (run_without_result _ _ _ Hp) as [H0 _]. rewrite H0.
      split; [lia|]. split; [discriminate|]. intros (? & ? & ? & _ & [=]).
  - rewrite (run_test_fails _ _ Ht). cbn [fst]. rewrite !count_tts_app, Hc.
    change (count_tts banner) with 0. change (count_tts instructions) with 0.
    cbn [Nat.add]. split; [lia|]. split; [discriminate|].
    intros (? & ? & ? & H & _). rewrite Ht in H. discriminate H.
Qed.

(** X8. The program ends with status 0 or 1, and with status 0 exactly
    when the connection test passes, the pipeline returns a result and
    the model writes [content.wav]. *)
Theorem exit_status_zero_iff (w : World) :
  (snd (run w) = 0%Z \/ snd (run w) = 1%Z)
  /\ (snd (run w) = 0%Z
      <-> exists tp tn result,
            connection_test w = (tp, Returns true)
            /\ pipeline w = (tn, Returns result)
            /\ tts_to_file w (speech_text (content result)) "content.wav" = None).
Proof.
  destruct (connection_test_cases w) as (tp & ok & Ht & _).
  destruct ok.
  - destruct (pipeline w) as [tn [result|e]] eqn:Hp.
    + rewrite run_main, (main_pipeline_returns _ _ _ _ Ht Hp).
      destruct (tts_to_file w (speech_text (content result)) "content.wav")
        as [msg|] eqn:Em; cbn [snd exit_status].
      * split; [now right|]. split; [discriminate|].
        intros (? & ? & r & _ & [= _ <-] & E). rewrite Em in E. discriminate E.
      * split; [now left|]. split; [|reflexivity].
        intros _. exists tp, tn, result. now rewrite Em.
    + rewrite (run_pipeline_raises _ _ _ _ Ht Hp). cbn [snd].
      split; [now right|]. split; [discriminate|].
      intros (? & ? & ? & _ & [=] & _).
  - rewrite (run_test_fails _ _ Ht). cbn [snd].
    split; [now right|]. split; [discriminate|].
    intros (? & ? & ? & H & _). rewrite Ht in H. discriminate H.
Qed.

(** ** The connection test *)

Ltac probe_cases w :=
  destruct (enter (probe_session w)) as [[]|?] eqn:Een;
  [destruct (connect_over_cdp (probe_session w)) as [[]|?] eqn:Eco;
   [destruct (contexts (probe_session w)) as [|[|?] ?] eqn:Ectx;
    [|destruct (context_new_page (probe_session w)) as [[]|?] eqn:Enp;
      [destruct (probe_goto w) as [[]|?] eqn:Ego;
       [destruct (probe_title w) as [?|?] eqn:Eti;
        [destruct (probe_close w) as [[]|?] eqn:Ecl|]|]|]
     |destruct (probe_goto w) as [[]|?] eqn:Ego;
      [destruct (probe_title w) as [?|?] eqn:Eti;
       [destruct (probe_close w) as [[]|?] eqn:Ecl|]|]]|]|].

Ltac refute_probe :=
  match goal with
  | H : attached _ |- _ =>
      let Hx := fresh in let Hp := fresh in
      destruct H as (? & ? & ? & ? & Hx & Hp);
      first [ congruence
            | match goal with
              | E : contexts _ = _ |- _ =>
                  rewrite E in Hx;
                  first [ discriminate Hx
                        | injection Hx as <- _; specialize (Hp eq_refl); congruence ]
              end ]
  end.

Ltac build_attached :=
  repeat split; try assumption;
  eexists; eexists; (split; [eassumption | intro; first [assumption | discriminate]]).

Lemma probe_failure_none (w : Probe) : probe_failure w = None <-> probe_ok w.
Proof.
  unfold probe_failure, session_failure.
  probe_cases w; simpl;
    (split;
     [first [discriminate | intros _; (split; [build_attached | eauto])]
     |intros (Ha & Hg & (? & Ht) & Hc);
      first [reflexivity | congruence | refute_probe]]).
Qed.

(** What the test answers, by the first of its steps that fails. *)
Lemma test_cdp_connection_outcome (w : Probe) (cdp_url : string) :
  match probe_failure w with
  | None => snd (test_cdp_connection w cdp_url) = Returns true
  | Some e =>
      snd (test_cdp_connection w cdp_url) = Returns false
      /\ last (fst (test_cdp_connection w cdp_url)) PlaywrightEnter
         = Print (cross_mark ++ " CDP Connection failed: " ++ str_exn e)
  end.
Proof.
  unfold probe_failure, session_failure, test_cdp_connection, with_playwright,
    first_page.
  probe_cases w; simpl; first [reflexivity | split; reflexivity].
Qed.

(** Once a page is at hand the test sends it to the test address. *)
Lemma test_cdp_connection_visits (w : Probe) (cdp_url : string) :
  attached (probe_session w) ->
  In (Goto page "https://example.com" "networkidle" None)
     (fst (test_cdp_connection w cdp_url)).
Proof.
  intro Ha. unfold test_cdp_connection, with_playwright, first_page.
  probe_cases w; simpl; first [tauto | refute_probe].
Qed.

(** X9. Every error of a call that [test_cdp_connection] makes is caught
    (its writes to the standard output being taken to succeed): it
    answers [True] exactly when the driver starts, the browser is
    attached and gives a page, the navigation to the test page goes
    through, the title can be read and the connection can be closed; in
    every other case it answers [False], and the last line it prints is
    the failure message with the text of the error of the first step
    that failed. *)
Theorem connection_test_answer (w : Probe) (cdp_url : string) :
  exists t ok,
    test_cdp_connection w cdp_url = (t, Returns ok)
    /\ (ok = true <-> probe_ok w)
    /\ (ok = false <-> exists e, probe_failure w = Some e)
    /\ (forall e, probe_failure w = Some e ->
        last t PlaywrightEnter
        = Print (cross_mark ++ " CDP Connection failed: " ++ str_exn e)).
Proof.
  pose proof (test_cdp_connection_outcome w cdp_url) as H.
  pose proof (probe_failure_none w) as Hn.
  destruct (test_cdp_connection w cdp_url) as [t r]. cbn [fst snd] in H.
  destruct (probe_failure w) as [e|].
  - destruct H as [-> Hl]. exists t, false. split; [reflexivity|].
    split; [split; [discriminate | intro Hp; apply Hn in Hp; discriminate Hp]|].
    split; [split; eauto|]. now intros e' [= <-].
  - subst r. exists t, true. split; [reflexivity|].
    split; [split; [intros _; now apply Hn | reflexivity]|].
    split; [split; [discriminate | intros [e [=]]]|]. discriminate.
Qed.

(** X10. [test_cdp_connection] closes the connection to the browser at
    most once, and only on the path that read the title of the test page:
    when the navigation or the title read fails after the browser was
    attached, the connection is left unclosed (the function has no
    [finally]). *)
Theorem connection_test_close (w : Probe) (cdp_url : string) :
  let t := fst (test_cdp_connection w cdp_url) in
  count_close t <= 1 /\ (count_close t = 1 <-> probe_read w).
Proof.
  unfold test_cdp_connection, with_playwright, first_page.
  probe_cases w;
    (split; [unfold count_close; simpl; lia|]; split;
     [first [discriminate | intros _; (split; [build_attached | eauto])]
     |intros (Ha & Hg & (? & Ht)); first [reflexivity | congruence | refute_probe]]).
Qed.

(** X11. When everything answers but the closing of the connection,
    [test_cdp_connection] has already printed its success line and still
    answers [False], its last line being the message of the error raised
    by [browser.close()]. *)
Theorem connection_test_fails_on_close (w : Probe) (cdp_url : string) (e : LibError) :
  probe_read w ->
  probe_close w = Fails e ->
  let t := fst (test_cdp_connection w cdp_url) in
  snd (test_cdp_connection w cdp_url) = Returns false
  /\ In (Print (check_mark ++ " CDP Connection successful!")) t
  /\ last t PlaywrightEnter
     = Print (cross_mark ++ " CDP Connection failed: " ++ lib_msg e).
Proof.
  intros (Ha & Hg & (ttl & Ht)) Hc.
  unfold test_cdp_connection, with_playwright, first_page.
  rewrite Hg, Ht, Hc.
  destruct (enter (probe_session w)) as [[]|?] eqn:Een; [|refute_probe].
  destruct (connect_over_cdp (probe_session w)) as [[]|?] eqn:Eco; [|refute_probe].
  destruct (contexts (probe_session w)) as [|[|?] ?] eqn:Ectx; [refute_probe| |].
  - destruct (context_new_page (probe_session w)) as [[]|?] eqn:Enp; [|refute_probe].
    split; [reflexivity|]. split; [simpl; tauto | reflexivity].
  - split; [reflexivity|]. split; [simpl; tauto | reflexivity].
Qed.

Lemma connection_test_fails_on_close_witness :
  let t := fst (test_cdp_connection sticky_probe default_cdp_url) in
  snd (test_cdp_connection sticky_probe default_cdp_url) = Returns false
  /\ In (Print (check_mark ++ " CDP Connection successful!")) t
  /\ last t PlaywrightEnter
     = Print (cross_mark ++ " CDP Connection failed: " ++ "Target closed").
Proof.
  apply (connection_test_fails_on_close sticky_probe default_cdp_url
           (mkLibError false "Target closed")).
  - repeat split; try reflexivity.
    + exists 1, []. split; [reflexivity | discriminate].
    + now exists "Example Domain".
  - reflexivity.
Defined.

(** ** The click selector *)

Lemma collect_only_reads (elements : list Elem) :
  forall acc, emits (fun ev => is_extraction ev = true) (collect elements acc).
Proof.
  induction elements as [|el rest IH]; intro acc; cbn [collect]; emits_all.
  apply IH.
Qed.

Lemma print_items_only_prints (items : list ExtractedItem) :
  emits (fun ev => is_print ev = true) (print_items items).
Proof.
  induction items as [|it rest IH]; cbn [print_items]; emits_all. exact IH.
Qed.

Lemma emits_impl {A} (P Q : Event -> Prop) (m : M A) :
  (forall ev, P ev -> Q ev) -> emits P m -> emits Q m.
Proof. unfold emits. intros H. now apply Forall_impl. Qed.

Lemma after_click_no_click (w : Scrape) initial_url content_selector wait_time :
  emits (fun ev => is_click_action ev = false)
    (after_click w initial_url content_selector wait_time).
Proof.
  unfold after_click, resolve_link, open_target, locate_container, extract, assemble.
  emits_all.
  - eapply emits_impl; [|apply collect_only_reads]. now intros [].
  - eapply emits_impl; [|apply print_items_only_prints]. now intros [].
Qed.

(** X12. Without a click selector ([None], or the empty string, which
    Python takes as false) a run never waits for, looks up or clicks
    anything on the first page. *)
Theorem no_click_without_selector (w : Scrape)
  (initial_url content_selector cdp_url : string) (wait_time : Z)
  (click_selector : option string) :
  click_selector = None \/ click_selector = Some "" ->
  Forall (fun ev => is_click_action ev = false)
    (fst (navigate_and_extract_content w initial_url content_selector cdp_url
            wait_time click_selector)).
Proof.
  intro Hs.
  pose proof (navigate_trace w initial_url content_selector cdp_url wait_time
                click_selector) as H.
  cbv zeta in H.
  assert (Hf : Forall (fun ev => is_click_action ev = false)
                      (fst (first_page (session w) cdp_url))).
  { apply Forall_forall. now intros ev [-> | ->]%first_page_events. }
  assert (Hb : Forall (fun ev => is_click_action ev = false)
                 (fst (try_block w initial_url content_selector wait_time
                         click_selector))).
  { unfold try_block.
    apply emits_bind; [now apply emits_one | intros _].
    apply emits_bind; [now apply emits_one | intros _].
    apply emits_bind; [now apply emits_one | intros _].
    apply emits_bind; [|intros _; apply after_click_no_click].
    destruct Hs as [-> | ->]; apply emits_ret. }
  destruct (enter (session w)) as [[]|e]; [|rewrite H; now repeat constructor].
  destruct (snd (first_page (session w) cdp_url)) as [[]|e]; rewrite H.
  - constructor; [reflexivity|]. repeat (apply Forall_app; split); try assumption.
    now repeat constructor.
  - constructor; [reflexivity|]. apply Forall_app; split; [assumption|].
    now repeat constructor.
Qed.

Lemma no_click_without_selector_witness :
  Forall (fun ev => is_click_action ev = false)
    (fst (navigate_and_extract_content (scrape calm) the_initial_url
            the_content_selector default_cdp_url 5000%Z (Some ""))).
Proof.
  apply (no_click_without_selector (scrape calm) the_initial_url the_content_selector
           default_cdp_url 5000%Z (Some "")).
  right. reflexivity.
Defined.

(** ** The link *)

Lemma truthy_iff (s : string) : truthy s = true <-> s <> "".
Proof. destruct s; simpl; split; congruence. Qed.

(** X13. The link resolution returns [href] exactly when the page has an
    element bearing the class whose first anchor carries the non-empty
    link [href]; it looks at nothing else, so a first anchor without a
    link makes the step raise even if the anchors or the marked elements
    that follow have one. *)
Theorem link_is_first_anchor_of_first_element (w : Scrape) (href : string) :
  (snd (resolve_link w) = Returns href
   <-> exists anchors rest,
         link_marked w = Gives ((href :: anchors) :: rest) /\ href <> "")
  /\ (forall anchors rest,
        link_marked w = Gives (("" :: anchors) :: rest) ->
        exists e, snd (resolve_link w) = Raises e).
Proof.
  split; [split|].
  - intros (dom & Hd & Hf & Ht)%resolve_link_returns.
    destruct dom as [|[|h anchors] rest]; try discriminate Hf.
    injection Hf as ->. exists anchors, rest. split; [exact Hd | now apply truthy_iff].
  - intros (anchors & rest & Hd & Hn). apply resolve_link_found.
    exists ((href :: anchors) :: rest). repeat split; [exact Hd | now apply truthy_iff].
  - intros anchors rest Hd. apply resolve_link_raises.
    exists (("" :: anchors) :: rest). now split.
Qed.

(** ** Waiting *)

Open Scope Z_scope.

Ltac wait_calc := unfold total_wait; cbn -[Z.add Z.mul]; lia.

Lemma total_wait_app (a b : Trace) :
  total_wait (a ++ b)%list = total_wait a + total_wait b.
Proof.
  induction a as [|ev a IH]; [reflexivity|].
  change (total_wait ((ev :: a) ++ b)%list)
    with (wait_budget ev + total_wait (a ++ b)%list).
  change (total_wait (ev :: a)) with (wait_budget ev + total_wait a).
  rewrite IH. lia.
Qed.

Lemma total_wait_none (t : Trace) :
  Forall (fun ev => wait_budget ev = 0) t -> total_wait t = 0.
Proof.
  induction 1 as [|ev t H _ IH]; [reflexivity|].
  change (total_wait (ev :: t)) with (wait_budget ev + total_wait t). lia.
Qed.

Lemma total_wait_bind {A B} (m : M A) (f : A -> M B) a b :
  total_wait (fst m) <= a -> (forall x, total_wait (fst (f x)) <= b) -> 0 <= b ->
  total_wait (fst (bind m f)) <= a + b.
Proof.
  intros Hm Hf Hb. destruct m as [t [x|e]]; simpl in *; [|lia].
  specialize (Hf x). destruct (f x) as [t' r]. simpl in *.
  rewrite total_wait_app. lia.
Qed.

Lemma click_step_wait (w : Scrape) wait_time click_selector :
  0 <= wait_time ->
  total_wait (fst (click_step w wait_time click_selector)) <= wait_time + 2000.
Proof.
  intro H. unfold click_step. destruct click_selector as [sel|]; [|wait_calc].
  destruct (truthy sel); [|wait_calc].
  destruct (click_wait w) as [[]|?]; [|wait_calc].
  destruct (click_query w) as [[|]|?]; try (wait_calc).
  destruct (click_click w) as [[]|?]; [|wait_calc].
  destruct (click_settle w) as [[]|?]; wait_calc.
Qed.

Lemma resolve_link_wait (w : Scrape) : total_wait (fst (resolve_link w)) = 0.
Proof.
  apply total_wait_none.
  assert (H : emits (fun ev => wait_budget ev = 0) (resolve_link w))
    by (unfold resolve_link; emits_all).
  exact H.
Qed.

Lemma open_target_wait (w : Scrape) href wait_time :
  0 <= wait_time ->
  total_wait (fst (open_target w href wait_time)) <= 60000 + wait_time.
Proof.
  intro H. unfold open_target.
  destruct (open_tab w) as [[]|?]; [|wait_calc].
  destruct (goto_target w) as [[]|?]; [|wait_calc].
  destruct (settle_target w) as [[]|?]; wait_calc.
Qed.

Lemma locate_container_wait (w : Scrape) content_selector wait_time :
  total_wait (fst (locate_container w content_selector wait_time)) = wait_time.
Proof.
  unfold locate_container.
  destruct (container_wait w) as [[]|?];
    destruct (container_query w) as [[|]|?]; try (wait_calc);
    destruct (missing_title w); wait_calc.
Qed.

Lemma after_container_wait (w : Scrape) initial_url href :
  total_wait (fst (after_container w initial_url href)) = 0.
Proof.
  apply total_wait_none.
  assert (H : emits (fun ev => wait_budget ev = 0)
                (after_container w initial_url href)).
  { unfold after_container, extract, assemble. emits_all.
    - eapply emits_impl; [|apply collect_only_reads]. now intros [].
    - eapply emits_impl; [|apply print_items_only_prints]. now intros []. }
  exact H.
Qed.

Lemma try_block_wait (w : Scrape) initial_url content_selector wait_time
  click_selector :
  0 <= wait_time ->
  total_wait (fst (try_block w initial_url content_selector wait_time click_selector))
  <= 122000 + 4 * wait_time.
Proof.
  intro H. unfold try_block.
  replace (122000 + 4 * wait_time)
    with (0 + (60000 + (wait_time + ((wait_time + 2000)
            + (0 + ((60000 + wait_time) + (wait_time + 0))))))) by lia.
  apply total_wait_bind; [wait_calc | intros _ | lia].
  apply total_wait_bind; [wait_calc | intros _ | lia].
  apply total_wait_bind; [wait_calc | intros _ | lia].
  apply total_wait_bind; [now apply click_step_wait | intros _ | lia].
  unfold after_click.
  apply total_wait_bind; [rewrite resolve_link_wait; lia | intros href | lia].
  apply total_wait_bind; [now apply open_target_wait | intros _ | lia].
  apply total_wait_bind; [rewrite locate_container_wait; lia | intros _ | lia].
  pose proof (after_container_wait w initial_url href) as Ha.
  unfold after_container in Ha. rewrite Ha. lia.
Qed.

(** X14. The timeouts and pauses [navigate_and_extract_content] asks for
    in one run add up to at most 122000 + 4 * [wait_time] milliseconds
    (142 s with the 5000 ms of the configured pipeline): two navigations
    of 60 s, two pauses and two waits for a selector of [wait_time], and
    the pause of 2000 ms after the click. Each navigation waits for the
    DOM content only, never for the network to fall idle. *)
Theorem waits_are_bounded (w : Scrape)
  (initial_url content_selector cdp_url : string) (wait_time : Z)
  (click_selector : option string) :
  0 <= wait_time ->
  total_wait (fst (navigate_and_extract_content w initial_url content_selector
                     cdp_url wait_time click_selector))
  <= 122000 + 4 * wait_time
  /\ Forall bounded_goto
       (fst (navigate_and_extract_content w initial_url content_selector
               cdp_url wait_time click_selector)).
Proof.
  intro Hw. split; [|apply emits_navigate; try (now split);
                     intros [] H; try discriminate H; intros; exact I].
  pose proof (navigate_trace w initial_url content_selector cdp_url wait_time
                click_selector) as H.
  cbv zeta in H.
  assert (Hf : total_wait (fst (first_page (session w) cdp_url)) = 0).
  { apply total_wait_none, Forall_forall.
    now intros ev [-> | ->]%first_page_events. }
  pose proof (try_block_wait w initial_url content_selector wait_time click_selector
                Hw) as Hb.
  destruct (enter (session w)) as [[]|e]; [|rewrite H; wait_calc].
  destruct (snd (first_page (session w) cdp_url)) as [[]|e]; rewrite H.
  - change (PlaywrightEnter :: ?l) with ([PlaywrightEnter] ++ l)%list.
    rewrite !total_wait_app, Hf.
    change (total_wait [PlaywrightEnter]) with 0.
    change (total_wait [BrowserClose; PlaywrightExit]) with 0. lia.
  - change (PlaywrightEnter :: ?l) with ([PlaywrightEnter] ++ l)%list.
    rewrite !total_wait_app, Hf.
    change (total_wait [PlaywrightEnter]) with 0.
    change (total_wait [PlaywrightExit]) with 0. lia.
Qed.

Lemma waits_are_bounded_witness :
  total_wait (fst (pipeline calm)) <= 122000 + 4 * 5000
  /\ Forall bounded_goto (fst (pipeline calm)).
Proof.
  apply (waits_are_bounded (scrape calm) the_initial_url the_content_selector
           default_cdp_url 5000 (Some the_click_selector)).
  lia.
Defined.

Close Scope Z_scope.

(** ** The two page readers *)

Lemma get_webpage_content_frame (w : Reader) url cdp_url :
  get_webpage_content w url cdp_url
  = reader_frame (reader_session w) cdp_url (content_block w url) (reader_close w).
Proof. reflexivity. Qed.

Lemma get_webpage_content_with_selector_frame (w : Reader) url selector cdp_url :
  get_webpage_content_with_selector w url selector cdp_url
  = reader_frame (reader_session w) cdp_url (selected_block w url selector)
                 (reader_close w).
Proof. reflexivity. Qed.

Lemma frame_outcome {A} (s : Session) cdp_url (block : R A) closing :
  snd (reader_frame s cdp_url block closing)
  = match enter s with
    | Fails e => Raises (PlaywrightError e)
    | Gives _ =>
        match snd (first_page s cdp_url) with
        | Raises e => Raises e
        | Returns _ =>
            match closing with
            | Fails e => Raises (PlaywrightError e)
            | Gives _ => snd block
            end
        end
    end.
Proof.
  unfold reader_frame, with_playwrightR, lift.
  destruct (enter s) as [[]|e]; [|reflexivity].
  destruct (first_page s cdp_url) as [tf [[]|e]]; [|reflexivity].
  destruct block as [tb rb]. destruct closing as [[]|e]; reflexivity.
Qed.

Lemma frame_trace {A} (s : Session) cdp_url (block : R A) closing :
  fst (reader_frame s cdp_url block closing)
  = match enter s with
    | Fails _ => [inl PlaywrightEnter]
    | Gives _ =>
        (inl PlaywrightEnter :: map inl (fst (first_page s cdp_url))
           ++ match snd (first_page s cdp_url) with
              | Raises _ => []
              | Returns _ => fst block ++ [inl BrowserClose]
              end
           ++ [inl PlaywrightExit])%list
    end.
Proof.
  unfold reader_frame, with_playwrightR, lift.
  destruct (enter s) as [[]|e]; [|reflexivity].
  destruct (first_page s cdp_url) as [tf [[]|e]]; simpl.
  - destruct block as [tb rb]. destruct closing as [[]|e]; simpl;
      now rewrite <- !app_assoc.
  - reflexivity.
Qed.

Lemma count_closeR_app (a b : list Action) :
  count_closeR (a ++ b)%list = count_closeR a + count_closeR b.
Proof. unfold count_closeR. now rewrite filter_app, length_app. Qed.

Lemma count_closeR_none (t : list Action) :
  Forall (fun a => is_closeR a = false) t -> count_closeR t = 0.
Proof.
  induction 1 as [|a t H _ IH]; [reflexivity|].
  unfold count_closeR in *. simpl. now rewrite H.
Qed.

Lemma first_page_no_closeR (s : Session) cdp_url :
  count_closeR (map inl (fst (first_page s cdp_url))) = 0.
Proof.
  apply count_closeR_none, Forall_map, Forall_forall.
  now intros ev [-> | ->]%first_page_events.
Qed.

(** A frame closes the connection once exactly when it got a page,
    whatever its block does, provided the block itself never closes. *)
Lemma frame_closes {A} (s : Session) cdp_url (block : R A) closing :
  count_closeR (fst block) = 0 ->
  let t := fst (reader_frame s cdp_url block closing) in
  count_closeR t <= 1 /\ (count_closeR t = 1 <-> attached s).
Proof.
  intros Hb t. unfold t. rewrite frame_trace.
  pose proof (attached_iff s cdp_url) as Ha.
  pose proof (first_page_no_closeR s cdp_url) as Hf.
  destruct (enter s) as [[]|e].
  - change (inl PlaywrightEnter :: ?l) with ([@inl Event PageRead PlaywrightEnter] ++ l)%list.
    destruct (snd (first_page s cdp_url)) as [[]|e];
      rewrite !count_closeR_app, Hf, ?Hb; cbn.
    + split; [lia|]. split; [intros _; now apply Ha | reflexivity].
    + split; [lia|]. split; [discriminate | intros [_ [=]]%Ha].
  - cbn. split; [lia|]. split; [discriminate | intros [[=] _]%Ha].
Qed.

Lemma count_closeR_bindR {A B} (m : R A) (f : A -> R B) :
  count_closeR (fst m) = 0 -> (forall a, count_closeR (fst (f a)) = 0) ->
  count_closeR (fst (bindR m f)) = 0.
Proof.
  intros Hm Hf. destruct m as [t [a|e]]; simpl in *; [|exact Hm].
  specialize (Hf a). destruct (f a) as [t' r]. simpl in *.
  rewrite count_closeR_app. lia.
Qed.

Lemma count_closeR_lift {A} (m : M A) :
  emits (fun ev => is_close ev = false) m -> count_closeR (fst (lift m)) = 0.
Proof.
  intro H. apply count_closeR_none, Forall_map.
  eapply Forall_impl; [|exact H]. intros ev He. now destruct ev.
Qed.

Lemma inner_texts_only_reads (elements : list Elem) :
  emits (fun ev => is_extraction ev = true) (inner_texts elements).
Proof.
  induction elements as [|el rest IH]; cbn [inner_texts]; emits_all. exact IH.
Qed.

Lemma content_block_no_close (w : Reader) url :
  count_closeR (fst (content_block w url)) = 0.
Proof.
  unfold content_block.
  repeat (apply count_closeR_bindR; [|intro]); try reflexivity;
    apply count_closeR_lift; now apply emits_one.
Qed.

Lemma selection_no_close (w : Reader) selector :
  count_closeR (fst (selection w selector)) = 0.
Proof.
  unfold selection. destruct selector as [sel|]; [|reflexivity].
  destruct (truthy sel); [|reflexivity].
  apply count_closeR_lift. emits_all.
  eapply emits_impl; [|apply inner_texts_only_reads]. now intros [].
Qed.

Lemma selected_block_no_close (w : Reader) url selector :
  count_closeR (fst (selected_block w url selector)) = 0.
Proof.
  unfold selected_block.
  apply count_closeR_bindR; [apply count_closeR_lift; now apply emits_one | intros _].
  apply count_closeR_bindR; [apply count_closeR_lift; now apply emits_one | intro].
  apply count_closeR_bindR; [reflexivity | intro].
  apply count_closeR_bindR; [apply selection_no_close | reflexivity].
Qed.

(** X15. [get_webpage_content] and [get_webpage_content_with_selector]
    close the connection to the browser exactly once in every run that
    got a page, also when the navigation or a read of the page fails, and
    never otherwise. *)
Theorem readers_close_once (w : Reader) (url cdp_url : string)
  (selector : option string) :
  let t1 := fst (get_webpage_content w url cdp_url) in
  let t2 := fst (get_webpage_content_with_selector w url selector cdp_url) in
  (count_closeR t1 <= 1 /\ (count_closeR t1 = 1 <-> attached (reader_session w)))
  /\ (count_closeR t2 <= 1 /\ (count_closeR t2 = 1 <-> attached (reader_session w))).
Proof.
  intros t1 t2. unfold t1, t2.
  rewrite get_webpage_content_frame, get_webpage_content_with_selector_frame.
  split; apply frame_closes;
    [apply content_block_no_close | apply selected_block_no_close].
Qed.

Lemma content_block_returns (w : Reader) url result :
  snd (content_block w url) = Returns result
  <-> reader_goto w = Gives tt
      /\ exists t c h,
           reader_title w = Gives t /\ reader_body w = Gives c
           /\ reader_html w = Gives h
           /\ result = mkPageContent (reader_url w) t c h.
Proof.
  unfold content_block.
  destruct (reader_goto w) as [[]|?];
    [destruct (reader_title w) as [t|?];
     [destruct (reader_body w) as [c|?];
      [destruct (reader_html w) as [h|?]|]|]|];
    simpl; (split; [intros [= <-] | intros (? & ? & ? & ? & ? & ? & ? & ?)]);
    try congruence.
  split; [reflexivity|]. now exists t, c, h.
Qed.

(** X16. [get_webpage_content] returns exactly when the driver starts,
    the browser is attached and gives a page, the navigation goes
    through, the title, the text of the body and the markup can be read,
    and the connection can be closed; the dict it returns then holds the
    address of the page and these three reads. Any failure is raised to
    the caller. *)
Theorem get_webpage_content_returns (w : Reader) (url cdp_url : string)
  (result : PageContent) :
  snd (get_webpage_content w url cdp_url) = Returns result
  <-> attached (reader_session w)
      /\ reader_goto w = Gives tt
      /\ reader_close w = Gives tt
      /\ exists t c h,
           reader_title w = Gives t /\ reader_body w = Gives c
           /\ reader_html w = Gives h
           /\ result = mkPageContent (reader_url w) t c h.
Proof.
  rewrite get_webpage_content_frame, frame_outcome.
  pose proof (attached_iff (reader_session w) cdp_url) as Ha.
  pose proof (content_block_returns w url result) as Hb.
  destruct (enter (reader_session w)) as [[]|e].
  - destruct (snd (first_page (reader_session w) cdp_url)) as [[]|e].
    + destruct (reader_close w) as [[]|e].
      * rewrite Hb. split.
        -- intros (Hg & Hx). split; [now apply Ha|]. now repeat split.
        -- intros (_ & Hg & _ & Hx). now split.
      * split; [discriminate | intros (_ & _ & [=] & _)].
    + split; [discriminate | intros ([_ [=]]%Ha & _)].
  - split; [discriminate | intros ([[=] _]%Ha & _)].
Qed.

Lemma bindR_inv {A B} (m : R A) (f : A -> R B) t b :
  bindR m f = (t, Returns b) ->
  exists t1 a t2, m = (t1, Returns a) /\ f a = (t2, Returns b) /\ t = (t1 ++ t2)%list.
Proof.
  destruct m as [t1 [a|e]]; simpl; [|discriminate].
  destruct (f a) as [t2 r] eqn:E. intros [= <- ->]. now exists t1, a, t2.
Qed.

Lemma inner_texts_returns (elements : list Elem) t texts :
  inner_texts elements = (t, Returns texts) ->
  texts = map innerText elements
  /\ Forall (fun el => inner_text_fails el = None) elements.
Proof.
  revert t texts. induction elements as [|el rest IH]; intros t texts.
  - intros [= _ <-]. now split.
  - cbn [inner_texts]. intro E.
    apply bind_inv in E as (? & txt & ? & Ht & E & _).
    apply bind_inv in E as (? & texts' & ? & Hr & E & _).
    injection E as _ <-. apply IH in Hr as [-> Hf].
    destruct (inner_text_fails el) eqn:Ef; [discriminate Ht|].
    injection Ht as _ <-. split; [reflexivity | now constructor].
Qed.

Lemma selected_block_returns (w : Reader) url selector t result :
  selected_block w url selector = (t, Returns result) ->
  exists ts selected,
    selection w selector = (ts, Returns selected)
    /\ selected_content result = selected
    /\ incl ts t.
Proof.
  unfold selected_block. intro E.
  apply bindR_inv in E as (? & ? & ? & _ & E & ->).
  apply bindR_inv in E as (? & ? & ? & _ & E & ->).
  apply bindR_inv in E as (? & ? & ? & _ & E & ->).
  apply bindR_inv in E as (ts & selected & ? & Hs & E & ->).
  injection E as <- <-. exists ts, selected. split; [exact Hs|]. split; [reflexivity|].
  intros a Ha. do 3 (apply in_or_app; right). apply in_or_app. now left.
Qed.

Lemma frame_returns {A} (s : Session) cdp_url (block : R A) closing t a :
  reader_frame s cdp_url block closing = (t, Returns a) ->
  exists tb, block = (tb, Returns a) /\ incl tb t.
Proof.
  intro E. pose proof (frame_outcome s cdp_url block closing) as Ho.
  pose proof (frame_trace s cdp_url block closing) as Ht.
  rewrite E in Ho, Ht. cbn [fst snd] in Ho, Ht.
  destruct (enter s) as [[]|?]; [|discriminate Ho].
  destruct (snd (first_page s cdp_url)) as [[]|?]; [|discriminate Ho].
  destruct closing as [[]|?]; [|discriminate Ho].
  destruct block as [tb rb]. cbn [fst snd] in Ho, Ht. subst rb.
  exists tb. split; [reflexivity|]. intros x Hx. rewrite Ht.
  right. apply in_or_app; right. apply in_or_app; left. apply in_or_app. now left.
Qed.

(** X17. Called without a selector ([None], or the empty string),
    [get_webpage_content_with_selector] never queries the page for
    elements, and a dict it returns has no [selected_content]. *)
Theorem no_selection_without_selector (w : Reader) (url cdp_url : string)
  (selector : option string) :
  selector = None \/ selector = Some "" ->
  Forall (fun a => is_query_all a = false)
         (fst (get_webpage_content_with_selector w url selector cdp_url))
  /\ (forall result,
        snd (get_webpage_content_with_selector w url selector cdp_url)
        = Returns result ->
        selected_content result = None).
Proof.
  intro Hs. split.
  - rewrite get_webpage_content_with_selector_frame, frame_trace.
    assert (Hf : Forall (fun a : Action => is_query_all a = false)
                   (map inl (fst (first_page (reader_session w) cdp_url)))).
    { apply Forall_map, Forall_forall. now intros ev [-> | ->]%first_page_events. }
    assert (Hb : Forall (fun a => is_query_all a = false)
                   (fst (selected_block w url selector))).
    { unfold selected_block, selection.
      destruct Hs as [-> | ->]; simpl;
        destruct (reader_goto w) as [[]|?]; [|now repeat constructor| |now repeat constructor];
        (destruct (reader_title w) as [?|?]; [|now repeat constructor]);
        destruct (reader_body w) as [?|?]; now repeat constructor. }
    destruct (enter (reader_session w)) as [[]|?]; [|now repeat constructor].
    constructor; [reflexivity|]. apply Forall_app; split; [exact Hf|].
    apply Forall_app; split; [|now repeat constructor].
    destruct (snd (first_page (reader_session w) cdp_url)); [|constructor].
    apply Forall_app; split; [exact Hb | now repeat constructor].
  - intros result E.
    destruct (get_webpage_content_with_selector w url selector cdp_url)
      as [t r] eqn:Eg. cbn [snd] in E. subst r.
    rewrite get_webpage_content_with_selector_frame in Eg.
    apply frame_returns in Eg as (tb & Eb & _).
    apply selected_block_returns in Eb as (ts & selected & Hsel & <- & _).
    unfold selection in Hsel. destruct Hs as [-> | ->]; now injection Hsel as _ <-.
Qed.

(** X18. Called with a selector, [get_webpage_content_with_selector]
    queries the page with it, and a dict it returns holds under
    [selected_content] the inner text of every match, in document order,
    as it was read: nothing is trimmed and empty texts are kept, so there
    are as many texts as matches. *)
Theorem selection_keeps_every_match (w : Reader) (url cdp_url sel : string)
  (t : list Action) (result : SelectedContent) :
  truthy sel = true ->
  get_webpage_content_with_selector w url (Some sel) cdp_url = (t, Returns result) ->
  exists elements,
    reader_matches w = Gives elements
    /\ selected_content result = Some (map innerText elements)
    /\ length (map innerText elements) = length elements
    /\ In (inl (QuerySelectorAll sel)) t.
Proof.
  intros Hs Eg.
  rewrite get_webpage_content_with_selector_frame in Eg.
  apply frame_returns in Eg as (tb & Eb & Hi).
  apply selected_block_returns in Eb as (ts & selected & Hsel & <- & Hi').
  unfold selection in Hsel. rewrite Hs in Hsel. unfold lift in Hsel.
  injection Hsel as <- Hr.
  destruct (reader_matches w) as [elements|e] eqn:Em; [|discriminate Hr].
  exists elements. split; [reflexivity|].
  destruct (inner_texts elements) as [ti [texts|e]] eqn:Ei; [|discriminate Hr].
  apply inner_texts_returns in Ei as [-> _].
  cbn in Hr. injection Hr as <-. split; [reflexivity|]. split; [apply length_map|].
  apply Hi, Hi'. simpl. now left.
Qed.

(** ** Where the sequencer navigates *)

Lemma click_step_no_goto (w : Scrape) wait_time click_selector :
  emits (fun ev => is_goto ev = false) (click_step w wait_time click_selector).
Proof. unfold click_step. emits_all. Qed.

Lemma resolve_link_no_goto (w : Scrape) :
  emits (fun ev => is_goto ev = false) (resolve_link w).
Proof. unfold resolve_link. emits_all. Qed.

Lemma after_target_no_goto (w : Scrape) initial_url content_selector wait_time href :
  emits (fun ev => is_goto ev = false)
    (locate_container w content_selector wait_time ;;
     collected_content <- extract w ;;
     assemble w initial_url href collected_content).
Proof.
  unfold locate_container, extract, assemble. emits_all.
  - eapply emits_impl; [|apply collect_only_reads]. now intros [].
  - eapply emits_impl; [|apply print_items_only_prints]. now intros [].
Qed.

Lemma open_target_goto (w : Scrape) href wait_time ev :
  In ev (fst (open_target w href wait_time)) -> is_goto ev = true ->
  ev = Goto new_page href "domcontentloaded" (Some 60000%Z).
Proof.
  unfold open_target.
  destruct (open_tab w) as [[]|?]; [|simpl; intros [<-|[]]; discriminate].
  destruct (goto_target w) as [[]|?];
    [destruct (settle_target w) as [[]|?]|]; simpl;
    intros H Hg; repeat (destruct H as [<-|H]; try discriminate Hg; try reflexivity);
    destruct H.
Qed.

Lemma try_block_goto (w : Scrape) initial_url content_selector wait_time
  click_selector ev :
  In ev (fst (try_block w initial_url content_selector wait_time click_selector)) ->
  is_goto ev = true ->
  ev = Goto page initial_url "domcontentloaded" (Some 60000%Z)
  \/ exists href, link_found w href
                  /\ ev = Goto new_page href "domcontentloaded" (Some 60000%Z).
Proof.
  intros H Hg. unfold try_block in H.
  assert (Hno : forall A (m : M A), emits (fun ev => is_goto ev = false) m ->
                                    In ev (fst m) -> False).
  { intros A m Hm Hi. apply (emits_as_forall _ _ _ Hm) in Hi. congruence. }
  apply in_fst_bind in H as [H | (? & _ & H)];
    [simpl in H; destruct H as [<-|[]]; discriminate Hg|].
  apply in_fst_bind in H as [H | (? & _ & H)];
    [simpl in H; destruct H as [<-|[]]; now left|].
  apply in_fst_bind in H as [H | (? & _ & H)];
    [simpl in H; destruct H as [<-|[]]; discriminate Hg|].
  apply in_fst_bind in H as [H | (? & _ & H)];
    [now apply (Hno _ _ (click_step_no_goto _ _ _)) in H|].
  unfold after_click in H.
  apply in_fst_bind in H as [H | (href & Hl%resolve_link_returns & H)];
    [now apply (Hno _ _ (resolve_link_no_goto _)) in H|].
  apply in_fst_bind in H as [H | (? & _ & H)].
  - right. exists href. split; [exact Hl | now apply (open_target_goto w href wait_time)].
  - now apply (Hno _ _ (after_target_no_goto _ _ _ _ _)) in H.
Qed.

(** X19. [navigate_and_extract_content] sends a page to two addresses at
    most: the first page to its argument [initial_url], and the new tab
    to the link found by the link resolution, which is never empty. *)
Theorem navigates_to_argument_or_link (w : Scrape)
  (initial_url content_selector cdp_url : string) (wait_time : Z)
  (click_selector : option string) (tab : Tab) (url wait_until : string)
  (timeout : option Z) :
  In (Goto tab url wait_until timeout)
     (fst (navigate_and_extract_content w initial_url content_selector cdp_url
             wait_time click_selector)) ->
  (tab = page /\ url = initial_url)
  \/ (tab = new_page /\ url <> "" /\ link_found w url).
Proof.
  intro H.
  pose proof (navigate_trace w initial_url content_selector cdp_url wait_time
                click_selector) as Ht.
  cbv zeta in Ht.
  assert (Hfp : ~ In (Goto tab url wait_until timeout)
                     (fst (first_page (session w) cdp_url)))
    by (intros [E|E]%first_page_events; discriminate E).
  destruct (enter (session w)) as [[]|?];
    [|rewrite Ht in H; destruct H as [E|[]]; discriminate E].
  destruct (snd (first_page (session w) cdp_url)) as [[]|?]; rewrite Ht in H.
  - destruct H as [E|H]; [discriminate E|].
    apply in_app_or in H as [H|H]; [contradiction|].
    apply in_app_or in H as [H|H];
      [|destruct H as [E|[E|[]]]; discriminate E].
    apply try_block_goto in H as [E | (href & Hl & E)]; [| |reflexivity].
    + injection E as -> -> _ _. now left.
    + injection E as -> -> _ _. right. split; [reflexivity|].
      split; [|exact Hl]. destruct Hl as (_ & _ & _ & Hne). now apply truthy_iff.
  - destruct H as [E|H]; [discriminate E|].
    apply in_app_or in H as [H|H]; [contradiction|].
    destruct H as [E|[]]; discriminate E.
Qed.

(** ** The further statements at sample worlds *)

Lemma returned_result_fields_witness :
  exists href elements ttl,
    link_found (scrape roomy) href
    /\ all_children (scrape roomy) = Gives elements
    /\ result_title (scrape roomy) = Gives ttl
    /\ roomy_result
       = mkResult the_initial_url href (result_url (scrape roomy)) ttl
                  (map item_of (filter has_text elements))
                  (join (LF ++ LF) (map text (map item_of (filter has_text elements))))
    /\ Forall (fun el => has_text el = false <-> blank (innerText el)) elements
    /\ Forall2 (fun it el => trims (innerText el) (text it))
               spaced_items (filter has_text elements)
    /\ In (Goto new_page href "domcontentloaded" (Some 60000%Z)) (fst (pipeline roomy)).
Proof.
  apply (returned_result_fields (scrape roomy) the_initial_url the_content_selector
           default_cdp_url 5000%Z (Some the_click_selector)
           (fst (pipeline roomy)) roomy_result).
  reflexivity.
Defined.

Lemma item_texts_are_trimmed_witness :
  Forall (fun it => trimmed (text it) /\ strip (text it) = text it) spaced_items.
Proof.
  apply (item_texts_are_trimmed (scrape roomy)
           (QuerySelectorAll tag_selector :: reads spaced) spaced_items).
  reflexivity.
Defined.

Lemma full_text_is_speech_text_iff_witness :
  full_text calm_result = speech_text (content calm_result)
  <-> length (content calm_result) <= 1.
Proof.
  apply (full_text_is_speech_text_iff calm (fst (pipeline calm)) calm_result).
  reflexivity.
Defined.

Lemma no_selection_without_selector_witness :
  Forall (fun a => is_query_all a = false)
         (fst (get_webpage_content_with_selector plain_reader "https://example.com"
                 None default_cdp_url))
  /\ (forall result,
        snd (get_webpage_content_with_selector plain_reader "https://example.com"
               None default_cdp_url) = Returns result ->
        selected_content result = None).
Proof.
  apply (no_selection_without_selector plain_reader "https://example.com"
           default_cdp_url None).
  left. reflexivity.
Defined.

Lemma selection_keeps_every_match_witness :
  exists elements,
    reader_matches plain_reader = Gives elements
    /\ selected_content
         (mkSelectedContent "https://example.com/" "Example Domain"
            "Example Domain body" (Some [" one "; ""; "  "; "two"]))
       = Some (map innerText elements)
    /\ length (map innerText elements) = length elements
    /\ In (inl (QuerySelectorAll "li"))
          (fst (get_webpage_content_with_selector plain_reader "https://example.com"
                  (Some "li") default_cdp_url)).
Proof.
  apply (selection_keeps_every_match plain_reader "https://example.com"
           default_cdp_url "li"
           (fst (get_webpage_content_with_selector plain_reader "https://example.com"
                   (Some "li") default_cdp_url))
           (mkSelectedContent "https://example.com/" "Example Domain"
              "Example Domain body" (Some [" one "; ""; "  "; "two"])));
    reflexivity.
Defined.

Lemma navigates_to_argument_or_link_witness :
  (new_page = page /\ "https://www.perplexity.ai/page/a" = the_initial_url)
  \/ (new_page = new_page /\ "https://www.perplexity.ai/page/a" <> ""
      /\ link_found (scrape calm) "https://www.perplexity.ai/page/a").
Proof.
  apply (navigates_to_argument_or_link (scrape calm) the_initial_url
           the_content_selector default_cdp_url 5000%Z (Some the_click_selector)
           new_page "https://www.perplexity.ai/page/a" "domcontentloaded"
           (Some 60000%Z)).
  vm_compute. repeat (first [left; reflexivity | right]).
Defined.

(** The extractor keeps two of the four matches of this page, the reader
    all four. *)
Example extractor_and_reader_differ :
  map text (map item_of (filter has_text mixed_elements)) = ["one"; "two"]
  /\ map innerText mixed_elements = [" one "; ""; "  "; "two"].
Proof. split; reflexivity. Qed.

(** * The program as a whole *)

Lemma test_visits_example (w : Probe) cdp_url :
  emits (visits "https://example.com") (test_cdp_connection w cdp_url).
Proof.
  apply emits_test_cdp_connection; [|reflexivity].
  intros [] H _ _; try discriminate H; exact I.
Qed.

Lemma pipeline_visits (w : World) :
  emits (first_page_visits "https://www.perplexity.ai/") (pipeline w).
Proof.
  apply emits_navigate; try reflexivity.
  - intros [] H _ _; try discriminate H; exact I.
  - intros [] H; try discriminate H; exact I.
Qed.

Lemma in_bind_first {A B} ev (m : M A) (f : A -> M B) :
  In ev (fst m) -> In ev (fst (bind m f)).
Proof.
  destruct m as [t [a|e]]; simpl; [|easy].
  destruct (f a). simpl. intro. apply in_or_app. now left.
Qed.

Lemma in_bind_next {A B} ev (m : M A) (f : A -> M B) a :
  snd m = Returns a -> In ev (fst (f a)) -> In ev (fst (bind m f)).
Proof.
  destruct m as [t r]. simpl. intros ->. destruct (f a). simpl.
  intro. apply in_or_app. now right.
Qed.

(** Once a first page is at hand the sequencer sends it to its argument
    [initial_url]. *)
Lemma navigate_visits_initial_url (w : Scrape) initial_url content_selector cdp_url
  wait_time click_selector :
  attached (session w) ->
  In (Goto page initial_url "domcontentloaded" (Some 60000%Z))
     (fst (navigate_and_extract_content w initial_url content_selector cdp_url
             wait_time click_selector)).
Proof.
  intro Ha.
  pose proof (navigate_trace w initial_url content_selector cdp_url wait_time
                click_selector) as H.
  cbv zeta in H. rewrite (first_page_attached _ cdp_url Ha) in H.
  destruct Ha as (He & _). rewrite He in H. rewrite H.
  right. apply in_or_app. right. apply in_or_app. left.
  unfold try_block. apply (in_bind_next _ _ _ tt); [reflexivity|].
  apply in_bind_first. now left.
Qed.

(** C5. The program first runs the connection test: once a page is at
    hand the test sends it to https://example.com, it navigates nowhere
    else, and it passes exactly when every step of it answers.  When the
    test fails the program prints the diagnostic instructions and ends
    with status 1.  Otherwise it runs the pipeline, which sends the first
    page to https://www.perplexity.ai/ once it is at hand and to no other
    address, and then either the pipeline returns its result for that
    address, the model writes [content.wav] and the status is 0, or an
    exception was raised (by the pipeline or by the model), its message
    is printed and the status is 1. *)
Theorem program_exit_status (w : World) :
  exists tp ok,
    connection_test w = (tp, Returns ok)
    /\ (ok = true <-> probe_ok (probe w))
    /\ (attached (probe_session (probe w)) ->
        In (Goto page "https://example.com" "networkidle" None) tp)
    /\ Forall (visits "https://example.com") tp
    /\ (exists rest, fst (run w) = (banner ++ tp ++ rest)%list)
    /\ (ok = false -> run w = ((banner ++ tp ++ instructions)%list, 1%Z))
    /\ (ok = true ->
        (attached (session (scrape w)) ->
         In (Goto page "https://www.perplexity.ai/" "domcontentloaded" (Some 60000%Z))
            (fst (pipeline w)))
        /\ Forall (first_page_visits "https://www.perplexity.ai/") (fst (pipeline w))
        /\ (exists rest,
              fst (run w) = (banner ++ tp ++ heading ++ fst (pipeline w) ++ rest)%list)
        /\ ((exists tn result,
               pipeline w = (tn, Returns result)
               /\ all_answer (scrape w)
               /\ initial_url result = "https://www.perplexity.ai/"
               /\ tts_to_file w (speech_text (content result)) "content.wav" = None
               /\ run w
                  = ((banner ++ tp ++ heading ++ tn
                      ++ [success_line result;
                          announcement (speech_text (content result));
                          TtsToFile (speech_text (content result)) "content.wav" false])%list,
                     0%Z))
            \/ (exists e before,
                  run w = ((before ++ failure_report e)%list, 1%Z)
                  /\ ((exists tn, pipeline w = (tn, Raises e))
                      \/ (exists tn result msg,
                            pipeline w = (tn, Returns result)
                            /\ tts_to_file w (speech_text (content result)) "content.wav"
                               = Some msg
                            /\ e = ModelError msg))))).
Proof.
  destruct (test_cdp_connection_returns (probe w) default_cdp_url) as [ok H].
  pose proof (test_visits_example (probe w) default_cdp_url) as Hv.
  pose proof (test_cdp_connection_outcome (probe w) default_cdp_url) as Hok.
  pose proof (probe_failure_none (probe w)) as Hnone.
  pose proof (test_cdp_connection_visits (probe w) default_cdp_url) as Hgo.
  unfold emits in Hv. fold (connection_test w) in H, Hv, Hok, Hgo.
  destruct (connection_test w) as [tp r] eqn:Ht. simpl in H, Hv, Hok, Hgo. subst r.
  exists tp, ok. split; [reflexivity|].
  split.
  { destruct (probe_failure (probe w)) as [e|].
    - destruct Hok as [[= ->] _]. split; [discriminate|].
      intro Hp. apply Hnone in Hp. discriminate Hp.
    - injection Hok as ->. split; [intros _; now apply Hnone | reflexivity]. }
  split; [exact Hgo|]. split; [exact Hv|].
  pose proof (navigate_visits_initial_url (scrape w) the_initial_url
                the_content_selector default_cdp_url 5000%Z (Some the_click_selector))
    as Hvis.
  fold (navigate_with_specific_selectors (scrape w) the_initial_url default_cdp_url)
    in Hvis.
  fold (pipeline w) in Hvis.
  destruct ok.
  - pose proof (pipeline_visits w) as Hq. unfold emits in Hq.
    destruct (pipeline w) as [tn [result|e]] eqn:Hp; cbn [fst] in Hq, Hvis |- *.
    + pose proof (main_pipeline_returns _ _ _ _ Ht Hp) as Hm.
      assert (Hall : all_answer (scrape w)
                     /\ initial_url result = "https://www.perplexity.ai/").
      { unfold pipeline, navigate_with_specific_selectors in Hp.
        apply navigate_returns_inv in Hp as (Ha & Hc & tb & E & _).
        apply try_block_returns in E
          as (Hg & Hs & href & elements & ttl & Hl & Ho & Hgt & Hst & Hcq & Hx
              & Hr & Htt & -> & _).
        split; [|reflexivity].
        repeat split; try assumption; try apply Ha; eauto. }
      destruct Hall as [Hall Hurl].
      destruct (tts_to_file w (speech_text (content result)) "content.wav")
        as [msg|] eqn:Em.
      * split; [unfold run; rewrite Hm; eexists; reflexivity|].
        split; [discriminate|]. intros _. split; [exact Hvis|]. split; [exact Hq|].
        split; [unfold run; rewrite Hm; eexists; reflexivity|].
        right. exists (ModelError msg). eexists. split.
        -- unfold run. rewrite Hm. cbn [exit_status]. f_equal.
           rewrite !app_comm_cons, !app_assoc. reflexivity.
        -- right. exists tn, result, msg. now rewrite Em.
      * split; [unfold run; rewrite Hm; eexists; reflexivity|].
        split; [discriminate|]. intros _. split; [exact Hvis|]. split; [exact Hq|].
        split; [unfold run; rewrite Hm; eexists; reflexivity|].
        left. exists tn, result. split; [reflexivity|].
        split; [exact Hall|]. split; [exact Hurl|]. split; [exact Em|].
        unfold run. now rewrite Hm.
    + rewrite (run_pipeline_raises _ _ _ _ Ht Hp).
      split; [eexists; reflexivity|]. split; [discriminate|]. intros _.
      split; [exact Hvis|]. split; [exact Hq|]. split; [eexists; reflexivity|].
      right. exists e. eexists. split.
      * f_equal. rewrite !app_assoc. reflexivity.
      * left. now exists tn.
  - rewrite (run_test_fails _ _ Ht). split; [eexists; reflexivity|].
    split; [reflexivity|]. discriminate.
Qed.

(** The program in a world where everything answers. *)
Lemma program_exit_status_witness :
  connection_test calm
  = ([PlaywrightEnter; ConnectOverCdp default_cdp_url;
      Goto page "https://example.com" "networkidle" None; Title page;
      Print (check_mark ++ " CDP Connection successful!");
      Print "  Page title: Example Domain";
      Print "  URL: https://example.com/";
      BrowserClose; PlaywrightExit], Returns true)
  /\ In (Goto page "https://www.perplexity.ai/" "domcontentloaded" (Some 60000%Z))
        (fst (pipeline calm))
  /\ pipeline calm = (fst (pipeline calm), Returns calm_result)
  /\ snd (run calm) = 0%Z.
Proof.
  destruct (program_exit_status calm)
    as (tp & ok & Ht & Hok & _ & _ & _ & _ & Hrun).
  assert (Hp : probe_ok (probe calm)).
  { repeat split; try reflexivity.
    - exists 1, []. split; [reflexivity | discriminate].
    - now exists "Example Domain". }
  apply Hok in Hp. destruct (Hrun Hp) as (Hgo & _ & _ & _).
  split; [reflexivity|]. split; [|split; reflexivity].
  apply Hgo. repeat split; try reflexivity.
  exists 1, []. split; [reflexivity | discriminate].
Defined.
